(** * Photini: image list and importer — a shallow embedding and its properties

    The development follows two source files of Photini,
    [src/photini/imagelist.py] (thumbnail widget, flow layout, image list
    and selection) and [src/photini/importer.py] (import sources, name
    mangler, importer pane).

    Conventions of the embedding.
    - Python [int] is [Z]; [//] and [%] are [Z.div] and [Z.modulo] (both
      round towards minus infinity for a positive divisor, as Python
      does) guarded by the [ZeroDivisionError] check.
    - A Python call that may raise returns a [result]; code that changes
      the object it belongs to is written in state passing style.
    - Widgets are modelled by the data the code reads and writes, the
      toolkit, the file system, the camera and the user by explicit
      arguments (oracles) or by fields of a world record.
    - Objects compared by identity (the [Image] widgets) carry an
      explicit identity. *)

From Stdlib Require Import ZArith QArith Qround List String Ascii Bool Lia.
From stdpp Require Import gmap strings list.
Import ListNotations.

#[local] Open Scope string_scope.
#[local] Open Scope Z_scope.

(** ** Python prelude *)

Module Py.

(** The exception classes that the modelled code can raise.
    [FileExistsError], [FileNotFoundError] and [NotADirectoryError] are the
    subclasses of [OSError] that [os.mkdir] raises; [shutil.copy2] raises
    [IsADirectoryError] and [shutil.SameFileError], subclasses of [OSError]
    as well. *)
Inductive exn : Type :=
| KeyError
| ValueError
| IndexError
| AttributeError
| TypeError
| ZeroDivisionError
| MemoryError
| OSError
| FileExistsError
| FileNotFoundError
| NotADirectoryError
| IsADirectoryError
| SameFileError
| OverflowError
| RuntimeError
| GPhoto2Error.

Inductive result (A : Type) : Type :=
| Ok (a : A)
| Raise (e : exn).
Arguments Ok {A} a.
Arguments Raise {A} e.

Definition bind {A B : Type} (m : result A) (k : A -> result B) : result B :=
  match m with
  | Ok a => k a
  | Raise e => Raise e
  end.

Definition is_ok {A : Type} (m : result A) : bool :=
  match m with Ok _ => true | Raise _ => false end.

(** [a // b] *)
Definition floordiv (a b : Z) : result Z :=
  if b =? 0 then Raise ZeroDivisionError else Ok (a / b).

(** [a % b] *)
Definition pymod (a b : Z) : result Z :=
  if b =? 0 then Raise ZeroDivisionError else Ok (a mod b).

(** A Python [int] passed where the toolkit takes a C [int]: the call
    raises [OverflowError] for a value that does not fit. *)
Definition fits_int (v : Z) : bool := (- 2 ^ 31 <=? v) && (v <? 2 ^ 31).

Definition c_int (v : Z) : result Z :=
  if fits_int v then Ok v else Raise OverflowError.

End Py.

Notation "x <- e ;; k" := (Py.bind e (fun x => k))
  (at level 62, e at next level, right associativity, only parsing).

(** ** [imagelist.py]: class [ThumbsLayout] *)

Module ThumbsLayout.
Import Py.

Record QSize : Type := { width : Z; height : Z }.
Record QPoint : Type := { x : Z; y : Z }.
Record QRect : Type := { topLeft : QPoint; size : QSize }.

(** [getContentsMargins()] *)
Record Margins : Type := { left : Z; top : Z; right : Z; bottom : Z }.

(** The layout object.  An item of [item_list] is represented by what the
    code asks of it, its [sizeHint()]; the rectangle an item receives from
    [setGeometry] is part of the outcome of [_do_layout].  The numbers that
    Qt hands out (sizes, margins, the origin) are C [int]s; the code
    computes with Python [int]s and hands them back through [QPoint] and
    [QSize], which take C [int]s. *)
Record t : Type := {
  item_list : list QSize;
  viewport_size : QSize;
  margins : Margins
}.

Record outcome : Type := {
  size_hint : QSize;
  (** entry [n] is the argument of [item_list[n].setGeometry] *)
  geometry : list QRect;
  (** argument of [scroll_area.set_multi_row], [None] when it is not called *)
  set_multi_row : option bool
}.

(** The loop [for n, item in enumerate(self.item_list)], started at [n]. *)
Fixpoint place_items (x0 y0 item_w item_h columns : Z) (item_size : QSize)
    (n : Z) (items : list QSize) : result (list QRect) :=
  match items with
  | [] => Ok []
  | _ :: items' =>
      i <- pymod n columns ;;
      j <- floordiv n columns ;;
      px <- c_int (x0 + i * item_w) ;;
      py <- c_int (y0 + j * item_h) ;;
      let r := {| topLeft := {| x := px; y := py |}; size := item_size |} in
      rs <- place_items x0 y0 item_w item_h columns item_size (n + 1) items' ;;
      Ok (r :: rs)
  end.

Definition _do_layout (self : t) (origin : QPoint) : result outcome :=
  let m := margins self in
  let width_hint := left m + right m in
  let height_hint := top m + bottom m in
  match item_list self with
  | [] =>
      w <- c_int width_hint ;;
      h <- c_int height_hint ;;
      Ok {| size_hint := {| width := w; height := h |};
            geometry := [];
            set_multi_row := None |}
  | item0 :: _ =>
      let item_size := item0 in
      let item_h := height item_size in
      let item_w := width item_size in
      let len := Z.of_nat (length (item_list self)) in
      let multi_row := height (viewport_size self) - height_hint >? item_h in
      grid <-
        (if multi_row then
           q <- floordiv (width (viewport_size self) - width_hint) item_w ;;
           let columns := Z.max q 1 in
           rows <- floordiv (len + columns - 1) columns ;;
           Ok (columns, rows)
         else Ok (len, 1)) ;;
      let '(columns, rows) := grid in
      let width_hint := width_hint + columns * item_w in
      let height_hint := height_hint + rows * item_h in
      w <- c_int width_hint ;;
      h <- c_int height_hint ;;
      let x0 := x origin + left m in
      let y0 := y origin + top m in
      rects <- place_items x0 y0 item_w item_h columns item_size 0
                 (item_list self) ;;
      Ok {| size_hint := {| width := w; height := h |};
            geometry := rects;
            set_multi_row := Some multi_row |}
  end.

End ThumbsLayout.

(** ** [imagelist.py]: the items of [ThumbsLayout] *)

Module ThumbsItems.
Import Py ThumbsLayout.

Definition set_item_list (l : list QSize) (self : t) : t :=
  {| item_list := l; viewport_size := viewport_size self;
     margins := margins self |}.

(** [addItem] *)
Definition addItem (item : QSize) (self : t) : t :=
  set_item_list (item_list self ++ [item])%list self.

(** [count] *)
Definition count (self : t) : Z := Z.of_nat (length (item_list self)).

(** [itemAt] *)
Definition itemAt (self : t) (idx : Z) : option QSize :=
  if (idx <? 0) || (idx >=? Z.of_nat (length (item_list self))) then None
  else nth_error (item_list self) (Z.to_nat idx).

(** [takeAt]: the value returned and the layout afterwards;
    [item_list.pop(idx)] for an index of the list. *)
Definition takeAt (self : t) (idx : Z) : option QSize * t :=
  if (idx <? 0) || (idx >=? Z.of_nat (length (item_list self)))
  then (None, self)
  else (nth_error (item_list self) (Z.to_nat idx),
        set_item_list
          (firstn (Z.to_nat idx) (item_list self)
           ++ skipn (S (Z.to_nat idx)) (item_list self))%list
          self).

End ThumbsItems.

(** ** [imagelist.py]: class [Image] *)

Module Image.
Import Py.

(** *** The toolkit's images

    A [QImage] is its size and its pixels; a pixel is the list of its
    channel values, red, green and blue, with the alpha value before them
    when the format has one, and is [[]] outside the image.  An image is
    null when it has no pixel, as one that Qt failed to read or to
    allocate. *)
Record QImage : Type := {
  width : Z;
  height : Z;
  pixel : Z -> Z -> list Z
}.

Definition isNull (im : QImage) : bool :=
  (width im <=? 0) || (height im <=? 0).

Definition inside (im : QImage) (px py : Z) : bool :=
  (0 <=? px) && (px <? width im) && (0 <=? py) && (py <? height im).

(** [QImage.copy(x, y, w, h)]: the result always has the given size; it is
    read from position [(x, y)] of the image and is zero (here: no channel
    value) beyond it. *)
Definition copy (im : QImage) (x y w h : Z) : QImage :=
  {| width := w;
     height := h;
     pixel := fun px py =>
       if inside im (px + x) (py + y) then pixel im (px + x) (py + y) else [] |}.

(** [QTransform]: the 3 by 3 matrix; a point is a row vector, [m31] and
    [m32] are the translation [dx] and [dy], and the matrix is affine when
    its last column is 0, 0, 1.  The angles used are multiples of 180
    degrees, for which Qt takes the sine and cosine exactly. *)
Record QTransform : Type := {
  m11 : Z; m12 : Z; m13 : Z;
  m21 : Z; m22 : Z; m23 : Z;
  m31 : Z; m32 : Z; m33 : Z
}.

(** [QTransform()] *)
Definition identity : QTransform :=
  {| m11 := 1; m12 := 0; m13 := 0;
     m21 := 0; m22 := 1; m23 := 0;
     m31 := 0; m32 := 0; m33 := 1 |}.

(** [QTransform(m11, m12, m21, m22, dx, dy)] *)
Definition affine (a b c d dx dy : Z) : QTransform :=
  {| m11 := a; m12 := b; m13 := 0;
     m21 := c; m22 := d; m23 := 0;
     m31 := dx; m32 := dy; m33 := 1 |}.

(** [a * b] *)
Definition mul (a b : QTransform) : QTransform :=
  {| m11 := m11 a * m11 b + m12 a * m21 b + m13 a * m31 b;
     m12 := m11 a * m12 b + m12 a * m22 b + m13 a * m32 b;
     m13 := m11 a * m13 b + m12 a * m23 b + m13 a * m33 b;
     m21 := m21 a * m11 b + m22 a * m21 b + m23 a * m31 b;
     m22 := m21 a * m12 b + m22 a * m22 b + m23 a * m32 b;
     m23 := m21 a * m13 b + m22 a * m23 b + m23 a * m33 b;
     m31 := m31 a * m11 b + m32 a * m21 b + m33 a * m31 b;
     m32 := m31 a * m12 b + m32 a * m22 b + m33 a * m32 b;
     m33 := m31 a * m13 b + m32 a * m23 b + m33 a * m33 b |}.

(** [t.scale(sx, sy)] *)
Definition scale (t : QTransform) (sx sy : Z) : QTransform :=
  mul (affine sx 0 0 sy 0 0) t.

(** [t.rotate(180.0)] *)
Definition rotate180 (t : QTransform) : QTransform :=
  mul (affine (-1) 0 0 (-1) 0 0) t.

(** [t.transposed()] *)
Definition transposed (t : QTransform) : QTransform :=
  {| m11 := m11 t; m12 := m21 t; m13 := m31 t;
     m21 := m12 t; m22 := m22 t; m23 := m32 t;
     m31 := m13 t; m32 := m23 t; m33 := m33 t |}.

Definition is_affine (t : QTransform) : bool :=
  (m13 t =? 0) && (m23 t =? 0) && (m33 t =? 1).

(** What the code asks of Qt, PIL and OpenCV beyond sizes and copies.  The
    results depend on pixel interpolation and on codecs, so they are taken
    from the environment. *)
Record Toolkit : Type := {
  (** [im.transformed(t)] *)
  transformed : QImage -> QTransform -> QImage;
  (** [im.scaled(w, h, mode, Qt.SmoothTransformation)]; the flag is true
      for [Qt.KeepAspectRatio], false for [Qt.IgnoreAspectRatio] *)
  scaled : QImage -> Z -> Z -> bool -> QImage;
  (** [qt_im.save(buf, 'PPM')], [PIL.open], [resize((w, h), PIL.ANTIALIAS)],
      [save(data, fmt)]: the data, or the exception that one of the calls
      raises, as [PIL.open] does for the buffer of an image that Qt could
      not save *)
  pil_resize_save : QImage -> Z -> Z -> string -> result string;
  (** [qt_im.save(buf, fmt)] *)
  qt_save : QImage -> string -> string;
  (** the pixmap after [pixmap.loadFromData(data)], null when it fails *)
  loadFromData : string -> QImage;
  (** the module [PIL] was imported *)
  PIL : bool
}.

(** *** The metadata that [Image] reads and writes

    [photini.metadata.Metadata] itself is not part of these two files; the
    fields are the attributes used here. *)
Record Thumbnail : Type := {
  data : string;
  fmt : string;
  w : Z;
  h : Z
}.

Record Metadata : Type := {
  orientation : option Z;
  thumbnail : option Thumbnail;
  (** the value of [metadata.changed()] *)
  changed : bool
}.

(** What the label [self.image] shows. *)
Inductive Label : Type :=
| Text (s : string)
| Pixmap (pixmap : QImage).

Record t : Type := {
  (** identity of the widget object *)
  ident : nat;
  path : string;
  file_type : string;
  selected : bool;
  thumb_size : Z;
  metadata : Metadata;
  image : Label
}.

Definition set_metadata (self : t) (md : Metadata) : t :=
  {| ident := ident self; path := path self; file_type := file_type self;
     selected := selected self; thumb_size := thumb_size self;
     metadata := md; image := image self |}.

Definition set_image (self : t) (l : Label) : t :=
  {| ident := ident self; path := path self; file_type := file_type self;
     selected := selected self; thumb_size := thumb_size self;
     metadata := metadata self; image := l |}.

Definition set_thumbnail (md : Metadata) (th : Thumbnail) : Metadata :=
  {| orientation := orientation md; thumbnail := Some th;
     changed := changed md |}.

(** [set_selected(value)]; the style sheet follows [selected]. *)
Definition set_selected (self : t) (value : bool) : t :=
  {| ident := ident self; path := path self; file_type := file_type self;
     selected := value; thumb_size := thumb_size self;
     metadata := metadata self; image := image self |}.

Definition get_selected (self : t) : bool := selected self.

(** *** [get_video_frame]

    What OpenCV answers: whether the module was imported, whether the
    capture opened, and the result of [video.read()], a flag and a frame
    with its [shape] and its values by row, column and channel; and the
    byte order of the machine, on which the pixels of a 32 bit format
    depend. *)
Record Frame : Type := {
  shape_height : Z;
  shape_width : Z;
  shape_channel : Z;
  value : Z -> Z -> Z -> Z
}.

Record Video : Type := {
  cv2 : bool;
  isOpened : bool;
  read : bool * Frame;
  (** [sys.byteorder == 'little'] *)
  little_endian : bool
}.

Inductive Format : Type := Format_RGB888 | Format_ARGB32.

(** [QtGui.QImage(np_image.data, width, height, bpl, fmt)] over an array
    of [channel] bytes for a pixel, whose byte [c] of row [y], column [x]
    is [plane c y x].  [Format_RGB888] reads three bytes as red, green and
    blue.  [Format_ARGB32] reads four bytes as one word 0xAARRGGBB in the
    byte order of the machine: in memory the bytes are blue, green, red
    and alpha on a little-endian machine, alpha, red, green and blue on a
    big-endian one.  The columns from [width] to [new_width], left
    uninitialised by [np.empty], are outside the image. *)
Definition from_array (plane : Z -> Z -> Z -> Z) (channel : Z)
    (width height bpl : Z) (fmt : Format) (little_endian : bool) : QImage :=
  {| width := width;
     height := height;
     pixel := fun px py =>
       if (0 <=? px) && (px <? width) && (0 <=? py) && (py <? height)
       then
         let byte c := plane c py px in
         match fmt with
         | Format_RGB888 => [byte 0; byte 1; byte 2]
         | Format_ARGB32 =>
             if little_endian then [byte 3; byte 2; byte 1; byte 0]
             else [byte 0; byte 1; byte 2; byte 3]
         end
       else [] |}.

Definition get_video_frame (video : Video) : option QImage :=
  if negb (cv2 video) then None else
  if negb (isOpened video) then None else
  let '(OK, cv_image) := read video in
  if negb OK then None else
  let height := shape_height cv_image in
  let width := shape_width cv_image in
  let channel := shape_channel cv_image in
  let fmt := Format_RGB888 in
  (* need to pad to 4 pixel multiple *)
  let new_width := width - (width mod (-4)) in
  let cv c := fun py px => value cv_image py px c in
  if channel =? 4 then
    (* assume BGRA *)
    let fmt := Format_ARGB32 in
    let plane c :=
      if c =? 0 then cv 3 else if c =? 1 then cv 2
      else if c =? 2 then cv 1 else cv 0 in
    let bpl := new_width * channel in
    Some (from_array plane channel width height bpl fmt (little_endian video))
  else if channel =? 3 then
    (* assume BGR *)
    let plane c := if c =? 0 then cv 2 else if c =? 1 then cv 1 else cv 0 in
    let bpl := new_width * channel in
    Some (from_array plane channel width height bpl fmt (little_endian video))
  else if channel =? 1 then
    (* assume Y *)
    let channel := 3 in
    let plane (c : Z) := cv 0 in
    let bpl := new_width * channel in
    Some (from_array plane channel width height bpl fmt (little_endian video))
  else None.

(** *** [transform] *)
Definition transform (tk : Toolkit) (pixmap : QImage) (orientation : option Z)
    (inverse : bool) : QImage :=
  let orientation :=
    match orientation with
    | Some o => (if o =? 0 then 1 else o) - 1
    | None => 1 - 1
    end in
  if orientation =? 0 then pixmap else
  (* need to rotate and or reflect image *)
  let transform := identity in
  let transform :=
    if Z.land orientation 1 =? 0 then transform
    else (* reflect left-right *) scale transform (-1) 1 in
  let transform :=
    if Z.land orientation 2 =? 0 then transform
    else rotate180 transform in
  let transform :=
    if Z.land orientation 4 =? 0 then transform
    else (* transpose horizontal & vertical *)
      mul (affine 0 1 1 0 1 1) transform in
  let transform := if inverse then transposed transform else transform in
  transformed tk pixmap transform.

(** *** [load_thumbnail] *)

(** [QtGui.QPixmap()] *)
Definition null_pixmap : QImage :=
  {| width := 0; height := 0; pixel := fun _ _ => [] |}.

(** The text ['No\nthumbnail\nin file'], in three lines. *)
Definition no_thumbnail : string :=
  "No" ++ String (ascii_of_nat 10) "thumbnail"
  ++ String (ascii_of_nat 10) "in file".

Definition load_thumbnail (tk : Toolkit) (self : t) : t :=
  let pixmap := null_pixmap in
  let thumb := thumbnail (metadata self) in
  let pixmap :=
    match thumb with
    | Some th => loadFromData tk (data th)
    | None => pixmap
    end in
  if isNull pixmap then set_image self (Text no_thumbnail) else
  let pixmap := transform tk pixmap (orientation (metadata self)) false in
  set_image self
    (Pixmap (scaled tk pixmap (thumb_size self) (thumb_size self) true)).

(** *** [regenerate_thumbnail]

    [int(0.5 + float(a) / b)] for integers [a >= 0] and [b > 0]; the
    quotient is taken in the rationals.  (In the code it is a double: for
    [b = 4.0] the quotient and the sum are exact, for [b = 3.0] the
    rounding error of the quotient is far below the distance, at least
    1/6, of [0.5 + a / 3] to the next integer, for every [a] below 2^50.) *)
Definition py_int (q : Q) : Z :=
  if Qle_bool 0 q then Qfloor q else Qceiling q.

Definition round_div (a b : Z) : Z :=
  py_int (Qplus (1 # 2) (Qdiv (inject_Z a) (inject_Z b))).

(** The padding step: the image to scale and the size of the thumbnail. *)
Definition pad_4_3 (qt_im : QImage) : QImage * (Z * Z) :=
  let w := width qt_im in
  let h := height qt_im in
  if w >=? h then
    let new_h := round_div (w * 3) 4 in
    let new_w := round_div (h * 4) 3 in
    let qt_im :=
      if new_h >? h then
        let pad := (new_h - h) / 2 in
        copy qt_im 0 (- pad) w new_h
      else if new_w >? w then
        let pad := (new_w - w) / 2 in
        copy qt_im (- pad) 0 new_w h
      else qt_im in
    (qt_im, (160, 120))
  else
    let new_h := round_div (w * 4) 3 in
    let new_w := round_div (h * 3) 4 in
    let qt_im :=
      if new_w >? w then
        let pad := (new_w - w) / 2 in
        copy qt_im (- pad) 0 new_w h
      else if new_h >? h then
        let pad := (new_h - h) / 2 in
        copy qt_im 0 (- pad) w new_h
      else qt_im in
    (qt_im, (120, 160)).

(** Records of the [logging] module: [logger.error(msg)], and an exception
    logged by [catch_all]. *)
Inductive LogRecord : Type :=
| Error (msg : string)
| Exception (e : exn).

Definition startswith (s prefix : string) : bool :=
  String.prefix prefix s.

(** The steps of [regenerate_thumbnail], in the order of the code.
    [decoded] is [QtGui.QImage(self.path)], [video] what OpenCV answers
    for [self.path]. *)

(** Lines 258 to 262: the image read, [None] when the function logs an
    error and returns. *)
Definition read_image_data (decoded : QImage) (video : Video) (self : t)
    : option QImage :=
  (* get Qt image first *)
  let qt_im := Some decoded in
  let qt_im :=
    if startswith (file_type self) "video" && isNull decoded
    then (* use OpenCV to read first frame *) get_video_frame video
    else qt_im in
  match qt_im with
  | None => None
  | Some qt_im => if isNull qt_im then None else Some qt_im
  end.

(** The image data can be read: [QImage(path)] is not null, or the file is
    a video and OpenCV delivers a first frame that is not null. *)
Definition readable (decoded : QImage) (video : Video) (self : t) : bool :=
  negb (isNull decoded)
  || (startswith (file_type self) "video"
      && match get_video_frame video with
         | Some frame => negb (isNull frame)
         | None => false
         end).

(** Lines 267 to 278. *)
Definition reorient_and_shrink (tk : Toolkit) (self : t) (qt_im : QImage)
    : QImage :=
  (* reorient if required *)
  let qt_im :=
    if String.eqb (file_type self) "image/x-canon-cr2"
       || String.eqb (file_type self) "image/x-nikon-nef"
    then transform tk qt_im (orientation (metadata self)) true
    else qt_im in
  (* use Qt's scaling to pre-shrink very large images *)
  if Z.max (width qt_im) (height qt_im) >=? 6000
  then scaled tk qt_im 6000 6000 true
  else qt_im.

(** Lines 301 to 323: the data of the thumbnail, or the exception that
    leaves the method. *)
Definition scale_and_save (tk : Toolkit) (qt_im : QImage) (w h : Z)
    (fmt : string) : result string :=
  if PIL tk then pil_resize_save tk qt_im w h fmt
  else
    (* scale Qt image - not as good quality as PIL *)
    Ok (qt_save tk (scaled tk qt_im w h false) fmt).

Definition cannot_read (self : t) : LogRecord :=
  Error ("Cannot read " ++ file_type self ++ " image data from " ++ path self).

(** The result is the object and the log.  Modelled from the spec: the
    decorator [catch_all] of [photini.pyqt], which is not among the source
    files, logs an exception that leaves the method; what was done before
    it was raised stays done, here nothing. *)
Definition regenerate_thumbnail (tk : Toolkit) (decoded : QImage)
    (video : Video) (self : t) (log : list LogRecord) : t * list LogRecord :=
  match read_image_data decoded video self with
  | None => (self, (log ++ [cannot_read self])%list)
  | Some qt_im =>
      let qt_im := reorient_and_shrink tk self qt_im in
      (* DCF spec says thumbnail must be 160 x 120 so pad picture to 4:3
         aspect ratio *)
      let '(qt_im, (w, h)) := pad_4_3 qt_im in
      let fmt := "JPEG" in
      match scale_and_save tk qt_im w h fmt with
      | Raise e => (self, (log ++ [Exception e])%list)
      | Ok data =>
          (* set thumbnail *)
          let self :=
            set_metadata self
              (set_thumbnail (metadata self)
                 {| data := data; fmt := fmt; w := w; h := h |}) in
          (* reload thumbnail *)
          (load_thumbnail tk self, log)
      end
  end.

(** *** A toolkit to run the model

    Scaling by nearest neighbour, with the sizes that [QSize.scaled]
    computes; the encoders return the format, and [PIL.open] raises for
    the empty buffer of a null image. *)
Definition scaled_size (wd ht w h : Z) (keep : bool) : Z * Z :=
  if negb keep || (wd =? 0) || (ht =? 0) then (w, h) else
  let rw := h * wd / ht in
  if rw <=? w then (rw, h) else (w, w * ht / wd).

Definition nearest_neighbour (im : QImage) (w h : Z) (keep : bool) : QImage :=
  let '(w', h') := scaled_size (width im) (height im) w h keep in
  {| width := w';
     height := h';
     pixel := fun px py =>
       if (0 <=? px) && (px <? w') && (0 <=? py) && (py <? h')
       then pixel im (px * width im / w') (py * height im / h')
       else [] |}.

(** [im.transformed(t)].  For an affine matrix whose linear part turns or
    reflects the axes, as the matrices that [transform] builds for display
    do, the picture is turned and moved back to the origin.  For a matrix
    that is not affine the result is the null image, which is what Qt
    returns when the projective matrix sends points of the picture to
    infinity and the result cannot be allocated, as for the transposed
    matrices of the orientations 6, 7 and 8. *)
Definition turned (im : QImage) (t : QTransform) : QImage :=
  if negb (is_affine t) then null_pixmap else
  let w := width im in
  let h := height im in
  let w' := Z.abs (m11 t) * w + Z.abs (m21 t) * h in
  let h' := Z.abs (m12 t) * w + Z.abs (m22 t) * h in
  let tx := (if m11 t <? 0 then w - 1 else 0)
            + (if m21 t <? 0 then h - 1 else 0) in
  let ty := (if m12 t <? 0 then w - 1 else 0)
            + (if m22 t <? 0 then h - 1 else 0) in
  {| width := w';
     height := h';
     pixel := fun px py =>
       if (0 <=? px) && (px <? w') && (0 <=? py) && (py <? h')
       then pixel im (m11 t * (px - tx) + m12 t * (py - ty))
                     (m21 t * (px - tx) + m22 t * (py - ty))
       else [] |}.

Definition reference_toolkit : Toolkit :=
  {| transformed := turned;
     scaled := nearest_neighbour;
     pil_resize_save := fun im w h fmt =>
       if isNull im then Raise OSError else Ok fmt;
     qt_save := fun im fmt => fmt;
     loadFromData := fun _ => null_pixmap;
     PIL := true |}.

(** A grey picture of the given size. *)
Definition grey (w h : Z) : QImage :=
  {| width := w;
     height := h;
     pixel := fun px py =>
       if (0 <=? px) && (px <? w) && (0 <=? py) && (py <? h)
       then [128; 128; 128] else [] |}.

Definition no_video : Video :=
  {| cv2 := false; isOpened := false;
     read := (false, {| shape_height := 0; shape_width := 0;
                        shape_channel := 0; value := fun _ _ _ => 0 |});
     little_endian := true |}.

(** The widget made by [Image(path, ...)] for a JPEG file without
    thumbnail. *)
Definition jpeg_file (ident : nat) (path : string) : t :=
  {| ident := ident; path := path; file_type := "image/jpeg";
     selected := false; thumb_size := 80;
     metadata := {| orientation := None; thumbnail := None;
                    changed := false |};
     image := Text no_thumbnail |}.

(** The widget for a Canon raw file with the given orientation and
    without thumbnail. *)
Definition raw_file (ident : nat) (path : string) (orientation : option Z)
    : t :=
  {| ident := ident; path := path; file_type := "image/x-canon-cr2";
     selected := false; thumb_size := 80;
     metadata := {| orientation := orientation; thumbnail := None;
                    changed := false |};
     image := Text no_thumbnail |}.

(** The matrices of [transform] for orientation 6: the one for display,
    and the one passed to Qt when [inverse] is set. *)
Definition display_6 : QTransform :=
  {| m11 := 0; m12 := 1; m13 := 0;
     m21 := -1; m22 := 0; m23 := 0;
     m31 := -1; m32 := 1; m33 := 1 |}.

Definition inverse_6 : QTransform :=
  {| m11 := 0; m12 := -1; m13 := -1;
     m21 := 1; m22 := 0; m23 := 1;
     m31 := 0; m32 := 0; m33 := 1 |}.

End Image.

(** ** [imagelist.py]: class [ImageList] *)

Module ImageList.
Import Py.

(** What the operating system and the metadata library answer about a
    path when an [Image] is made for it. *)
Record Os : Type := {
  (** [os.path.abspath] *)
  abspath : string -> string;
  (** [os.path.isfile] *)
  isfile : string -> bool;
  (** [Metadata(path)] *)
  read_metadata : string -> Image.Metadata;
  (** [metadata.get_mime_type()], [mimetypes.guess_type(path)[0]] and
      [imghdr.what(path)] *)
  get_mime_type : string -> option string;
  guess_type : string -> option string;
  imghdr_what : string -> option string;
  (** the metadata after [metadata.save(...)] *)
  save : Image.Metadata -> Image.Metadata
}.

(** Truth value of an optional string: [None] and [''] are false. *)
Definition truthy (s : option string) : bool :=
  match s with
  | Some s => negb (String.eqb s "")
  | None => false
  end.

(** [Image.__init__]: the file type and the initial state of the widget. *)
Definition new_Image (os : Os) (ident : nat) (path : string) (thumb_size : Z)
    : Image.t :=
  (* set file type *)
  let file_type := get_mime_type os path in
  let file_type := if truthy file_type then file_type else guess_type os path in
  let file_type :=
    if truthy file_type then file_type else
    let file_type := imghdr_what os path in
    if truthy file_type
    then match file_type with
         | Some ft => Some ("image/" ++ ft)
         | None => None
         end
    else file_type in
  (* anything not recognised is assumed to be 'raw' *)
  let file_type := if truthy file_type then file_type else Some "image/raw" in
  {| Image.ident := ident;
     Image.path := path;
     Image.file_type := match file_type with Some ft => ft | None => "" end;
     Image.selected := false;
     Image.thumb_size := thumb_size;
     Image.metadata := read_metadata os path;
     Image.image := Image.Text "" |}.

(** Signals emitted and dialogs shown, latest last. *)
Inductive Event : Type :=
| selection_changed (selection : list nat)
| new_metadata (unsaved : bool)
| image_list_changed
| unsaved_data_dialog.

(** Buttons of the message box, the values of [dialog.exec_()]. *)
Inductive StandardButton : Type := Save | Cancel | Discard.

Record t : Type := {
  images : list Image.t;
  (** references to [Image] objects, by identity *)
  last_selected : option nat;
  selection_anchor : option nat;
  thumb_size : Z;
  (** identity of the next object made *)
  next_ident : nat;
  events : list Event
}.

Definition set_images (self : t) (l : list Image.t) : t :=
  {| images := l; last_selected := last_selected self;
     selection_anchor := selection_anchor self; thumb_size := thumb_size self;
     next_ident := next_ident self; events := events self |}.

Definition set_last_selected (self : t) (o : option nat) : t :=
  {| images := images self; last_selected := o;
     selection_anchor := selection_anchor self; thumb_size := thumb_size self;
     next_ident := next_ident self; events := events self |}.

Definition set_selection_anchor (self : t) (o : option nat) : t :=
  {| images := images self; last_selected := last_selected self;
     selection_anchor := o; thumb_size := thumb_size self;
     next_ident := next_ident self; events := events self |}.

Definition emit (self : t) (e : Event) : t :=
  {| images := images self; last_selected := last_selected self;
     selection_anchor := selection_anchor self; thumb_size := thumb_size self;
     next_ident := next_ident self; events := (events self ++ [e])%list |}.

(** [ImageList.__init__] *)
Definition init (thumb_size : Z) : t :=
  {| images := []; last_selected := None; selection_anchor := None;
     thumb_size := thumb_size; next_ident := 0; events := [] |}.

(** [get_image] *)
Fixpoint find_path (path : string) (l : list Image.t) : option Image.t :=
  match l with
  | [] => None
  | image :: l' =>
      if String.eqb (Image.path image) path then Some image
      else find_path path l'
  end.

Definition get_image (self : t) (path : string) : option Image.t :=
  find_path path (images self).

(** The paths of the open images. *)
Definition paths (l : list Image.t) : list string := map Image.path l.

(** The identities of the widgets of the list. *)
Definition idents (l : list Image.t) : list nat := map Image.ident l.

(** [show_thumbnail]: the widget is put at the end of the layout and its
    thumbnail loaded. *)
Definition show_thumbnail (tk : Image.Toolkit) (image : Image.t) : Image.t :=
  Image.load_thumbnail tk image.

(** [open_file] *)
Definition open_file (tk : Image.Toolkit) (os : Os) (path : string) (self : t)
    : t :=
  let path := abspath os path in
  if negb (isfile os path) then self else
  match get_image self path with
  | Some _ => (* already opened this path *) self
  | None =>
      let image := new_Image os (next_ident self) path (thumb_size self) in
      let image := show_thumbnail tk image in
      {| images := (images self ++ [image])%list;
         last_selected := last_selected self;
         selection_anchor := selection_anchor self;
         thumb_size := thumb_size self;
         next_ident := S (next_ident self);
         events := events self |}
  end.

(** A sequence of calls of [open_file], each with the state of the file
    system at its time. *)
Fixpoint open_files (tk : Image.Toolkit) (calls : list (Os * string))
    (self : t) : t :=
  match calls with
  | [] => self
  | (os, path) :: calls' => open_files tk calls' (open_file tk os path self)
  end.

(** [get_selected_images] and [emit_selection] *)
Definition get_selected_images (self : t) : list Image.t :=
  filter (fun image => Image.get_selected image) (images self).

Definition emit_selection (self : t) : t :=
  emit self (selection_changed (map Image.ident (get_selected_images self))).

(** [image.set_selected(value)] for the object [ident]: every entry of the
    list that refers to the object shows the new value. *)
Definition set_selected (ident : nat) (value : bool) (l : list Image.t)
    : list Image.t :=
  map (fun image =>
         if Nat.eqb (Image.ident image) ident
         then Image.set_selected image value else image) l.

(** [self.images.index(image)] *)
Fixpoint index_from (ident : nat) (l : list Image.t) (i : Z) : result Z :=
  match l with
  | [] => Raise ValueError
  | image :: l' =>
      if Nat.eqb (Image.ident image) ident then Ok i
      else index_from ident l' (i + 1)
  end.

Definition index (l : list Image.t) (image : option nat) : result Z :=
  match image with
  | Some ident => index_from ident l 0
  | None => Raise ValueError
  end.

(** [self.images[i]] for [i >= 0] *)
Definition item (l : list Image.t) (i : Z) : result Image.t :=
  match nth_error l (Z.to_nat i) with
  | Some image => Ok image
  | None => Raise IndexError
  end.

(** [for i in range(lo, hi + 1): self.images[i].set_selected(value)], as
    the loop over the [n] indices from [lo]. *)
Fixpoint set_range (value : bool) (lo : Z) (n : nat) (l : list Image.t)
    : result (list Image.t) :=
  match n with
  | O => Ok l
  | S n' =>
      image <- item l lo ;;
      set_range value (lo + 1) n' (set_selected (Image.ident image) value l)
  end.

Definition set_selected_range (value : bool) (idx1 idx2 : Z)
    (l : list Image.t) : result (list Image.t) :=
  let lo := Z.min idx1 idx2 in
  let hi := Z.max idx1 idx2 in
  set_range value lo (Z.to_nat (hi + 1 - lo)) l.

(** [i in range(lo, hi + 1)] *)
Definition in_range (lo hi i : Z) : bool := (lo <=? i) && (i <=? hi).

(** [_clear_selection] *)
Definition _clear_selection (l : list Image.t) : list Image.t :=
  map (fun image =>
         if Image.get_selected image then Image.set_selected image false
         else image) l.

(** [select_image]; [image] is the identity of the widget given. *)
Definition select_image (self : t) (image : nat)
    (extend_selection multiple_selection : bool) : result t :=
  self <-
    (if extend_selection && bool_decide (is_Some (selection_anchor self)) then
       idx1 <- index (images self) (selection_anchor self) ;;
       idx2 <- index (images self) (last_selected self) ;;
       l <- set_selected_range false idx1 idx2 (images self) ;;
       idx2 <- index l (Some image) ;;
       l <- set_selected_range true idx1 idx2 l ;;
       Ok (set_images self l)
     else if multiple_selection then
       let l :=
         map (fun im =>
                if Nat.eqb (Image.ident im) image
                then Image.set_selected im (negb (Image.get_selected im))
                else im) (images self) in
       Ok (set_selection_anchor (set_images self l) (Some image))
     else
       let l := _clear_selection (images self) in
       let l := set_selected image true l in
       Ok (set_selection_anchor (set_images self l) (Some image))) ;;
  let self := set_last_selected self (Some image) in
  Ok (emit_selection self).

(** [select_all] *)
Definition select_all (self : t) : t :=
  let l := map (fun image => Image.set_selected image true) (images self) in
  let self := set_images self l in
  let self := set_selection_anchor self None in
  let self := set_last_selected self None in
  emit_selection self.

(** [_inc_selection] *)
Definition _inc_selection (self : t) (inc : Z) (extend_selection : bool)
    : result t :=
  idx <-
    (match last_selected self with
     | Some _ =>
         idx <- index (images self) (last_selected self) ;;
         pymod (idx + inc) (Z.of_nat (length (images self)))
     | None => Ok 0
     end) ;;
  image <- item (images self) idx ;;
  select_image self (Image.ident image) extend_selection false.

(** [_save_files()], called without argument: all images are saved. *)
Definition _save_files (os : Os) (self : t) : t :=
  let l :=
    map (fun image =>
           Image.set_metadata image (save os (Image.metadata image)))
        (images self) in
  let self := set_images self l in
  let unsaved :=
    existsb (fun image => Image.changed (Image.metadata image)) (images self) in
  emit self (new_metadata unsaved).

(** [unsaved_files_dialog(all_files)], with the default [with_cancel] and
    [with_discard]; [answer] is what the user chooses if the dialog is
    shown.  True if OK to continue with close or quit or whatever. *)
Definition unsaved_files_dialog (os : Os) (answer : StandardButton)
    (all_files : bool) (self : t) : bool * t :=
  if negb (existsb
             (fun image =>
                Image.changed (Image.metadata image)
                && (all_files || Image.selected image))
             (images self))
  then (true, self) else
  let self := emit self unsaved_data_dialog in
  match answer with
  | Save => (true, _save_files os self)
  | Discard => (true, self)
  | Cancel => (false, self)
  end.

(** The images that [close_files(all_files)] is to close, and whether one
    of them has unsaved metadata: the test of the loop of
    [unsaved_files_dialog]. *)
Definition closing (all_files : bool) (image : Image.t) : bool :=
  all_files || Image.selected image.

Definition unsaved (all_files : bool) (self : t) : bool :=
  existsb (fun image =>
             Image.changed (Image.metadata image)
             && (all_files || Image.selected image))
          (images self).

(** [self.images.remove(image)] *)
Fixpoint remove (ident : nat) (l : list Image.t) : result (list Image.t) :=
  match l with
  | [] => Raise ValueError
  | image :: l' =>
      if Nat.eqb (Image.ident image) ident then Ok l'
      else l'' <- remove ident l' ;; Ok (image :: l'')
  end.

Fixpoint remove_all (close_list : list Image.t) (l : list Image.t)
    : result (list Image.t) :=
  match close_list with
  | [] => Ok l
  | image :: close_list' =>
      l' <- remove (Image.ident image) l ;;
      remove_all close_list' l'
  end.

(** [close_files], lines 789 to 806: what is done once
    [unsaved_files_dialog] has returned true. *)
Definition close_confirmed (all_files : bool) (self : t) : result t :=
  let close_list :=
    if all_files then images self else get_selected_images self in
  match close_list with
  | [] => Ok self
  | first :: _ =>
      idx <- index (images self) (Some (Image.ident first)) ;;
      l <- remove_all close_list (images self) ;;
      let self := set_images self l in
      self <-
        (if (0 <=? idx) && (idx <? Z.of_nat (length (images self))) then
           image <- item (images self) idx ;;
           select_image self (Image.ident image) false false
         else
           let self := set_last_selected self None in
           let self := set_selection_anchor self None in
           Ok (emit_selection self)) ;;
      Ok (emit self image_list_changed)
  end.

(** [close_files] *)
Definition close_files (os : Os) (answer : StandardButton) (all_files : bool)
    (self : t) : result t :=
  let '(ok, self) := unsaved_files_dialog os answer all_files self in
  if negb ok then Ok self else close_confirmed all_files self.

End ImageList.

(** ** Image lists used as examples *)

Module ImageListExample.
Import Py ImageList.

(** A file system in which every path names a JPEG file without
    thumbnail; saving the metadata clears the flag [changed]. *)
Definition jpeg_os : Os :=
  {| abspath := fun p => p;
     isfile := fun _ => true;
     read_metadata := fun _ =>
       {| Image.orientation := None; Image.thumbnail := None;
          Image.changed := false |};
     get_mime_type := fun _ => Some "image/jpeg";
     guess_type := fun _ => None;
     imghdr_what := fun _ => None;
     save := fun m =>
       {| Image.orientation := Image.orientation m;
          Image.thumbnail := Image.thumbnail m;
          Image.changed := false |} |}.

(** Four images; the second and the third are selected, from the anchor
    (the second) to the image selected last (the third). *)
Definition four_images : t :=
  {| images :=
       [ Image.jpeg_file 0 "/p/a.jpg";
         Image.set_selected (Image.jpeg_file 1 "/p/b.jpg") true;
         Image.set_selected (Image.jpeg_file 2 "/p/c.jpg") true;
         Image.jpeg_file 3 "/p/d.jpg" ];
     last_selected := Some 2%nat;
     selection_anchor := Some 1%nat;
     thumb_size := 80;
     next_ident := 4;
     events := [] |}.

(** Two images, the first with metadata that is not saved. *)
Definition one_edited : t :=
  {| images :=
       [ Image.set_metadata (Image.jpeg_file 0 "/p/a.jpg")
           {| Image.orientation := None; Image.thumbnail := None;
              Image.changed := true |};
         Image.jpeg_file 1 "/p/b.jpg" ];
     last_selected := None;
     selection_anchor := None;
     thumb_size := 80;
     next_ident := 2;
     events := [] |}.

End ImageListExample.

(** ** [imagelist.py]: the mouse and keyboard handlers of the selection *)

Module Selection.
Import Py ImageList.

(** [event.modifiers()], as far as the handlers tell the values apart. *)
Inductive Modifiers : Type :=
| NoModifier
| ControlModifier
| ShiftModifier
| OtherModifiers.

(** [image.get_selected()] for the widget [image], which is one of the
    list. *)
Definition selected_of (self : t) (image : nat) : bool :=
  existsb (fun im => Nat.eqb (Image.ident im) image && Image.get_selected im)
          (images self).

(** [Image.mousePressEvent] and [Image.mouseReleaseEvent]: the bodies of
    the methods, which [catch_all] decorates; [drag_start_pos] is not part
    of the state. *)
Definition mousePressEvent (modifiers : Modifiers) (self : t) (image : nat)
    : result t :=
  match modifiers with
  | ControlModifier => select_image self image false true
  | ShiftModifier => select_image self image true false
  | _ =>
      if negb (selected_of self image) then
        (* don't clear selection in case we're about to drag *)
        select_image self image false false
      else Ok self
  end.

Definition mouseReleaseEvent (modifiers : Modifiers) (self : t) (image : nat)
    : result t :=
  match modifiers with
  | ControlModifier | ShiftModifier => Ok self
  | _ => (* clear any multiple selection *) select_image self image false false
  end.

(** [ImageList.mousePressEvent]; [underMouse] is
    [self.scroll_area.underMouse()]. *)
Definition list_mousePressEvent (underMouse : bool) (self : t) : t :=
  if underMouse then
    let self := set_images self (_clear_selection (images self)) in
    let self := set_last_selected self None in
    let self := set_selection_anchor self None in
    emit_selection self
  else self.

(** [select_images(images)] *)
Definition select_images (self : t) (selection : list nat) : t :=
  let self := set_images self (_clear_selection (images self)) in
  match selection with
  | [] =>
      let self := set_last_selected self None in
      let self := set_selection_anchor self None in
      emit_selection self
  | first :: _ =>
      let l :=
        fold_left (fun l image => set_selected image true l) selection
                  (images self) in
      let self := set_images self l in
      let self := set_selection_anchor self (Some first) in
      let self := set_last_selected self (List.last (map Some selection) None) in
      emit_selection self
  end.

(** The shortcuts of the scroll area.  [self.images[-1]] is the last image
    and raises IndexError for the empty list, as [self.images[0]] does. *)
Definition move_to_prev_thumb (self : t) : result t :=
  _inc_selection self (-1) false.

Definition move_to_next_thumb (self : t) : result t :=
  _inc_selection self 1 false.

Definition move_to_first_thumb (self : t) : result t :=
  image <- item (images self) 0 ;;
  select_image self (Image.ident image) false false.

Definition move_to_last_thumb (self : t) : result t :=
  match List.last (map Some (images self)) None with
  | Some image => select_image self (Image.ident image) false false
  | None => Raise IndexError
  end.

Definition select_prev_thumb (self : t) : result t :=
  _inc_selection self (-1) true.

Definition select_next_thumb (self : t) : result t :=
  _inc_selection self 1 true.

End Selection.

(** ** Python strings and [datetime] *)

Module Str.

Definition is_digit (c : ascii) : bool :=
  (48 <=? nat_of_ascii c)%nat && (nat_of_ascii c <=? 57)%nat.

(** The value of a decimal digit. *)
Definition digit_value (c : ascii) : Z := Z.of_nat (nat_of_ascii c) - 48.

(** The digit of a value from 0 to 9. *)
Definition digit (n : Z) : ascii := ascii_of_nat (Z.to_nat (48 + n)).

Fixpoint all_digits (s : string) : bool :=
  match s with
  | EmptyString => true
  | String c s' => is_digit c && all_digits s'
  end.

(** The number written by a string of digits, after [acc]. *)
Fixpoint number_from (acc : Z) (s : string) : Z :=
  match s with
  | EmptyString => acc
  | String c s' => number_from (acc * 10 + digit_value c) s'
  end.

(** [int(s)] for a text of decimal digits, [None] otherwise. *)
Definition number (s : string) : option Z :=
  match s with
  | EmptyString => None
  | _ => if all_digits s then Some (number_from 0 s) else None
  end.

(** ['%0*d' % (width, n)] for [0 <= n < 10 ^ width] *)
Fixpoint zero_padded (width : nat) (n : Z) : string :=
  match width with
  | O => EmptyString
  | S w => zero_padded w (n / 10) ++ String (digit (n mod 10)) EmptyString
  end.

(** [c * n] *)
Definition repeat (c : ascii) (n : Z) : string :=
  string_of_list_ascii (List.repeat c (Z.to_nat n)).

(** [s[:n]] and [s[n:]] for [n >= 0] *)
Definition take (n : Z) (s : string) : string :=
  String.substring 0 (Z.to_nat n) s.

Definition drop (n : Z) (s : string) : string :=
  String.substring (Z.to_nat n) (String.length s - Z.to_nat n) s.

Definition len (s : string) : Z := Z.of_nat (String.length s).

(** [s.rfind(c)] for a character [c]: the last index of [c], -1 without. *)
Fixpoint rfind_from (c : ascii) (s : string) (i : Z) (found : Z) : Z :=
  match s with
  | EmptyString => found
  | String c' s' =>
      rfind_from c s' (i + 1) (if Ascii.eqb c' c then i else found)
  end.

Definition rfind (c : ascii) (s : string) : Z := rfind_from c s 0 (-1).

(** [s.replace(a, b)] for characters [a] and [b] *)
Fixpoint replace (a b : ascii) (s : string) : string :=
  match s with
  | EmptyString => EmptyString
  | String c s' => String (if Ascii.eqb c a then b else c) (replace a b s')
  end.

(** [s[i]] for [0 <= i] *)
Definition char_at (s : string) (i : Z) : option ascii :=
  String.get (Z.to_nat i) s.

(** [s.lower()], for the ASCII letters *)
Definition lower_char (c : ascii) : ascii :=
  let n := nat_of_ascii c in
  if (65 <=? n)%nat && (n <=? 90)%nat then ascii_of_nat (n + 32) else c.

Fixpoint lower (s : string) : string :=
  match s with
  | EmptyString => EmptyString
  | String c s' => String (lower_char c) (lower s')
  end.

Fixpoint has_other_than (c : ascii) (s : string) : bool :=
  match s with
  | EmptyString => false
  | String c' s' => negb (Ascii.eqb c' c) || has_other_than c s'
  end.

(** [s.rstrip(c)] for a character [c] *)
Fixpoint rstrip (c : ascii) (s : string) : string :=
  match s with
  | EmptyString => EmptyString
  | String c' s' =>
      if has_other_than c s then String c' (rstrip c s') else EmptyString
  end.

End Str.

(** [os.path], as [posixpath] has it. *)
Module Path.

(** [os.path.splitext] *)
Definition splitext (p : string) : string * string :=
  let sepIndex := Str.rfind "/" p in
  let dotIndex := Str.rfind "." p in
  if (dotIndex >? sepIndex)
     && Str.has_other_than "."
          (Str.take (dotIndex - (sepIndex + 1)) (Str.drop (sepIndex + 1) p))
  then (Str.take dotIndex p, Str.drop dotIndex p)
  else (p, "").

(** [os.path.split] *)
Definition split (p : string) : string * string :=
  let i := Str.rfind "/" p + 1 in
  let head := Str.take i p in
  let tail := Str.drop i p in
  let head :=
    if negb (String.eqb head "") && Str.has_other_than "/" head
    then Str.rstrip "/" head else head in
  (head, tail).

Definition dirname (p : string) : string := fst (split p).
Definition basename (p : string) : string := snd (split p).

(** [os.path.join(a, b)] *)
Definition join (a b : string) : string :=
  if String.prefix "/" b then b
  else if String.eqb a "" || String.eqb (Str.drop (Str.len a - 1) a) "/"
  then a ++ b
  else a ++ "/" ++ b.

End Path.

Module DateTime.
Import Py.

(** A naive [datetime]: the fields of the object. *)
Record t : Type := {
  year : Z; month : Z; day : Z;
  hour : Z; minute : Z; second : Z;
  microsecond : Z
}.

(** [datetime.min] *)
Definition min : t :=
  {| year := 1; month := 1; day := 1;
     hour := 0; minute := 0; second := 0; microsecond := 0 |}.

Definition is_leap (y : Z) : bool :=
  (y mod 4 =? 0) && (negb (y mod 100 =? 0) || (y mod 400 =? 0)).

Definition days_in_month (y m : Z) : Z :=
  if m =? 2 then (if is_leap y then 29 else 28)
  else if (m =? 4) || (m =? 6) || (m =? 9) || (m =? 11) then 30
  else 31.

(** The values that the constructor of [datetime] accepts. *)
Definition valid (d : t) : bool :=
  (1 <=? year d) && (year d <=? 9999)
  && (1 <=? month d) && (month d <=? 12)
  && (1 <=? day d) && (day d <=? days_in_month (year d) (month d))
  && (0 <=? hour d) && (hour d <=? 23)
  && (0 <=? minute d) && (minute d <=? 59)
  && (0 <=? second d) && (second d <=? 59)
  && (0 <=? microsecond d) && (microsecond d <=? 999999).

(** Comparison: by year, then month, and so on to the microsecond. *)
Definition fields (d : t) : list Z :=
  [year d; month d; day d; hour d; minute d; second d; microsecond d].

Fixpoint lex_ltb (a b : list Z) : bool :=
  match a, b with
  | x :: a', y :: b' => (x <? y) || ((x =? y) && lex_ltb a' b')
  | [], _ :: _ => true
  | _, [] => false
  end.

(** [a < b] *)
Definition ltb (a b : t) : bool := lex_ltb (fields a) (fields b).

(** [d.isoformat(' ')] *)
Definition isoformat (d : t) : string :=
  Str.zero_padded 4 (year d) ++ "-" ++ Str.zero_padded 2 (month d) ++ "-"
  ++ Str.zero_padded 2 (day d) ++ " "
  ++ Str.zero_padded 2 (hour d) ++ ":" ++ Str.zero_padded 2 (minute d) ++ ":"
  ++ Str.zero_padded 2 (second d)
  ++ (if microsecond d =? 0 then ""
      else "." ++ Str.zero_padded 6 (microsecond d)).

(** [datetime.strptime(s, '%Y-%m-%d %H:%M:%S')], and with ['.%f'] appended
    to the format when [fraction] is set.  The texts accepted are those in
    which every field but the fraction has its full width, as [isoformat]
    writes them; [strptime] also reads a month, day, hour, minute or second
    of one digit, which this code never writes. *)
Definition two (a b : ascii) : option Z :=
  Str.number (String a (String b EmptyString)).

Definition strptime (s : string) (fraction : bool) : result t :=
  match s with
  | String y1 (String y2 (String y3 (String y4 (String s1
    (String m1 (String m2 (String s2
    (String d1 (String d2 (String s3
    (String H1 (String H2 (String s4
    (String M1 (String M2 (String s5
    (String S1 (String S2 rest)))))))))))))))))) =>
      if negb (Ascii.eqb s1 "-" && Ascii.eqb s2 "-" && Ascii.eqb s3 " "
               && Ascii.eqb s4 ":" && Ascii.eqb s5 ":")
      then Raise ValueError else
      match Str.number (String y1 (String y2 (String y3 (String y4 EmptyString)))),
            two m1 m2, two d1 d2, two H1 H2, two M1 M2, two S1 S2 with
      | Some y, Some m, Some d, Some hh, Some mi, Some ss =>
          let us :=
            if fraction then
              match rest with
              | String "." f =>
                  if (1 <=? Str.len f) && (Str.len f <=? 6)
                  then match Str.number f with
                       | Some n => Some (n * 10 ^ (6 - Str.len f))
                       | None => None
                       end
                  else None
              | _ => None
              end
            else
              match rest with
              | EmptyString => Some 0
              | _ => None
              end in
          match us with
          | None => Raise ValueError
          | Some us =>
              let r := {| year := y; month := m; day := d;
                          hour := hh; minute := mi; second := ss;
                          microsecond := us |} in
              if valid r then Ok r else Raise ValueError
          end
      | _, _, _, _, _, _ => Raise ValueError
      end
  | _ => Raise ValueError
  end.

End DateTime.

(** ** [importer.py]: the entry of a file, and class [NameMangler] *)

(** The dictionary that describes a file of an import source.  The keys
    ['path'] (folders), ['folder'] (cameras) and ['dest_path'] (set by
    [Importer.show_file_list]) may be absent. *)
Module FileData.

Record t : Type := {
  camera : option string;
  path : option string;
  folder : option string;
  name : string;
  timestamp : DateTime.t;
  dest_path : option string
}.

Definition set_dest_path (d : t) (p : string) : t :=
  {| camera := camera d; path := path d; folder := folder d; name := name d;
     timestamp := timestamp d; dest_path := Some p |}.

End FileData.

(** [str.format], called with keyword arguments only, for keyword arguments that are strings, after
    CPython 3.10 ([Objects/stringlib/unicode_format.h] and
    [Python/formatter_unicode.c]). *)
Module Format.
Import Py.

(** A value met while a field is formatted: a string, or another object,
    known by a handle. *)
Inductive value : Type :=
| VStr (s : string)
| VObj (handle : nat).

Inductive key : Type :=
| KIndex (i : Z)
| KName (s : string).

(** What the interpreter answers for objects other than strings, and its
    limits. *)
Record Runtime : Type := {
  (** [getattr(v, name)] *)
  getattr : value -> string -> result value;
  (** [obj[key]] *)
  getitem : nat -> key -> result value;
  (** [str(obj)], [repr(v)], [ascii(v)] *)
  py_str : nat -> string;
  py_repr : value -> string;
  py_ascii : value -> string;
  (** [format(obj, spec)] *)
  format_obj : nat -> string -> result string;
  (** [PY_SSIZE_T_MAX] *)
  ssize_max : Z;
  (** length of the longest string that can be allocated *)
  memory : Z;
  (** [d.strftime(fmt)] *)
  strftime : DateTime.t -> string -> string
}.

Definition snoc (s : string) (c : ascii) : string := s ++ String c EmptyString.

(** *** The markup iterator *)

Inductive token : Type :=
| Literal (c : ascii)
| Field (field_name : string) (conversion : option ascii)
        (format_spec : string) (needs_expanding : bool)
(** the place where the parser raises [ValueError] *)
| Malformed.

Inductive state : Type :=
| InLiteral
(** a brace was read *)
| AfterBrace (c : ascii)
| InName (field_name : string)
(** after a ['['] of the field name, up to the next [']'] *)
| InIndex (field_name : string)
| AfterBang (field_name : string)
| AfterConversion (field_name : string) (conversion : ascii)
| InSpec (field_name : string) (conversion : option ascii) (count : nat)
         (format_spec : string) (needs_expanding : bool).

Definition step_name (field_name : string) (c : ascii)
    : list token * option state :=
  if Ascii.eqb c "{" then ([Malformed], None)
  else if Ascii.eqb c "[" then ([], Some (InIndex (snoc field_name c)))
  else if Ascii.eqb c "}"
  then ([Field field_name None "" false], Some InLiteral)
  else if Ascii.eqb c ":" then ([], Some (InSpec field_name None 1 "" false))
  else if Ascii.eqb c "!" then ([], Some (AfterBang field_name))
  else ([], Some (InName (snoc field_name c))).

Definition step (st : state) (c : ascii) : list token * option state :=
  match st with
  | InLiteral =>
      if Ascii.eqb c "{" || Ascii.eqb c "}" then ([], Some (AfterBrace c))
      else ([Literal c], Some InLiteral)
  | AfterBrace b =>
      if Ascii.eqb c b then ([Literal b], Some InLiteral)
      else if Ascii.eqb b "}" then ([Malformed], None)
      else step_name "" c
  | InName field_name => step_name field_name c
  | InIndex field_name =>
      if Ascii.eqb c "]" then ([], Some (InName (snoc field_name c)))
      else ([], Some (InIndex (snoc field_name c)))
  | AfterBang field_name => ([], Some (AfterConversion field_name c))
  | AfterConversion field_name conversion =>
      if Ascii.eqb c "}"
      then ([Field field_name (Some conversion) "" false], Some InLiteral)
      else if Ascii.eqb c ":"
      then ([], Some (InSpec field_name (Some conversion) 1 "" false))
      else ([Malformed], None)
  | InSpec field_name conversion count format_spec needs_expanding =>
      if Ascii.eqb c "{"
      then ([], Some (InSpec field_name conversion (S count)
                        (snoc format_spec c) true))
      else if Ascii.eqb c "}" then
        match count with
        | 1%nat | O =>
            ([Field field_name conversion format_spec needs_expanding],
             Some InLiteral)
        | S count' =>
            ([], Some (InSpec field_name conversion count'
                         (snoc format_spec c) needs_expanding))
        end
      else ([], Some (InSpec field_name conversion count
                        (snoc format_spec c) needs_expanding))
  end.

Fixpoint tokens (st : state) (s : string) : list token :=
  match s with
  | EmptyString =>
      match st with
      | InLiteral => []
      | _ => [Malformed]
      end
  | String c s' =>
      let '(out, next) := step st c in
      (out ++ match next with
              | Some st' => tokens st' s'
              | None => []
              end)%list
  end.

(** *** Field names *)

(** [get_integer]: [Ok None] when the text is empty or has a character
    that is not a digit. *)
Fixpoint get_integer_from (rt : Runtime) (acc : Z) (s : string)
    : result (option Z) :=
  match s with
  | EmptyString => Ok (Some acc)
  | String c s' =>
      if Str.is_digit c then
        if acc * 10 + Str.digit_value c >? ssize_max rt then Raise ValueError
        else get_integer_from rt (acc * 10 + Str.digit_value c) s'
      else Ok None
  end.

Definition get_integer (rt : Runtime) (s : string) : result (option Z) :=
  match s with
  | EmptyString => Ok None
  | _ => get_integer_from rt 0 s
  end.

(** [field_name_split]: the part up to the first ['.'] or ['['], and the
    rest. *)
Fixpoint field_name_split (s : string) : string * string :=
  match s with
  | EmptyString => (EmptyString, EmptyString)
  | String c s' =>
      if Ascii.eqb c "." || Ascii.eqb c "[" then (EmptyString, s)
      else let '(first, rest) := field_name_split s' in (String c first, rest)
  end.

Inductive accessor : Type :=
| Attr (name : string)
| Item (name : string)
(** the place where the iterator raises [ValueError] *)
| BadAccessor.

Inductive accessor_state : Type :=
| Start
| InAttr (name : string)
| InItem (name : string).

Definition named (a : string -> accessor) (name : string) : accessor :=
  match name with
  | EmptyString => BadAccessor
  | _ => a name
  end.

Fixpoint accessors (st : accessor_state) (s : string) : list accessor :=
  match s with
  | EmptyString =>
      match st with
      | Start => []
      | InAttr name => [named Attr name]
      | InItem _ => [BadAccessor]
      end
  | String c s' =>
      match st with
      | Start =>
          if Ascii.eqb c "." then accessors (InAttr "") s'
          else if Ascii.eqb c "[" then accessors (InItem "") s'
          else [BadAccessor]
      | InAttr name =>
          if Ascii.eqb c "." then named Attr name :: accessors (InAttr "") s'
          else if Ascii.eqb c "["
          then named Attr name :: accessors (InItem "") s'
          else accessors (InAttr (snoc name c)) s'
      | InItem name =>
          if Ascii.eqb c "]" then named Item name :: accessors Start s'
          else accessors (InItem (snoc name c)) s'
      end
  end.

Definition access (rt : Runtime) (obj : value) (a : accessor) : result value :=
  match a with
  | BadAccessor => Raise ValueError
  | Attr name => getattr rt obj name
  | Item name =>
      index <- get_integer rt name ;;
      match index, obj with
      | Some i, VStr s =>
          match Str.char_at s i with
          | Some c => Ok (VStr (String c EmptyString))
          | None => Raise IndexError
          end
      | None, VStr _ => Raise TypeError
      | Some i, VObj h => getitem rt h (KIndex i)
      | None, VObj h => getitem rt h (KName name)
      end
  end.

Fixpoint access_all (rt : Runtime) (obj : value) (l : list accessor)
    : result value :=
  match l with
  | [] => Ok obj
  | a :: l' => obj' <- access rt obj a ;; access_all rt obj' l'
  end.

(** [get_field_object], called with an empty tuple of positional arguments:
    a field without name or with a number for name raises [IndexError]. *)
Definition get_field_object (rt : Runtime) (kwargs : gmap string string)
    (field_name : string) : result value :=
  let '(first, rest) := field_name_split field_name in
  first_idx <- get_integer rt first ;;
  let field_name_is_empty := String.eqb first "" in
  let using_numeric_index :=
    field_name_is_empty || bool_decide (is_Some first_idx) in
  if using_numeric_index then Raise IndexError else
  match kwargs !! first with
  | None => Raise KeyError
  | Some s => access_all rt (VStr s) (accessors Start rest)
  end.

(** [do_conversion] *)
Definition do_conversion (rt : Runtime) (obj : value) (conversion : ascii)
    : result value :=
  if Ascii.eqb conversion "r" then Ok (VStr (py_repr rt obj))
  else if Ascii.eqb conversion "s"
  then Ok (VStr match obj with VStr s => s | VObj h => py_str rt h end)
  else if Ascii.eqb conversion "a" then Ok (VStr (py_ascii rt obj))
  else Raise ValueError.

(** *** The format specification of a string *)

Definition is_alignment_token (c : ascii) : bool :=
  Ascii.eqb c "<" || Ascii.eqb c ">" || Ascii.eqb c "=" || Ascii.eqb c "^".

Definition is_sign_element (c : ascii) : bool :=
  Ascii.eqb c " " || Ascii.eqb c "+" || Ascii.eqb c "-".

(** If the text starts with [c], the rest of it. *)
Definition eat (c : ascii) (s : string) : option string :=
  match s with
  | String c' s' => if Ascii.eqb c' c then Some s' else None
  | EmptyString => None
  end.

(** [get_integer] of the formatter: the number written by the digits at
    the start of the text ([None] without digit), and the rest. *)
Fixpoint leading_integer (rt : Runtime) (acc : option Z) (s : string)
    : result (option Z * string) :=
  match s with
  | EmptyString => Ok (acc, s)
  | String c s' =>
      if Str.is_digit c then
        let a := match acc with Some a => a | None => 0 end in
        if a * 10 + Str.digit_value c >? ssize_max rt then Raise ValueError
        else leading_integer rt (Some (a * 10 + Str.digit_value c)) s'
      else Ok (acc, s)
  end.

Record spec : Type := {
  fill_char : ascii;
  align : ascii;
  width : option Z;
  precision : option Z
}.

(** [parse_internal_render_format_spec] with the default type ['s'] and
    the default alignment ['<'], followed by the checks of
    [format_string_internal]: the specification of a string, or
    [ValueError]. *)
Definition parse_spec (rt : Runtime) (s : string) : result spec :=
  (* If the second char is an alignment token, then parse the fill char *)
  let '(fill_char, fill_char_specified, align, s) :=
    match s with
    | String f (String a s') =>
        if is_alignment_token a then (f, true, a, s')
        else if is_alignment_token f then (" "%char, false, f, String a s')
        else (" "%char, false, "<"%char, s)
    | String a s' =>
        if is_alignment_token a then (" "%char, false, a, s')
        else (" "%char, false, "<"%char, s)
    | EmptyString => (" "%char, false, "<"%char, s)
    end in
  (* Parse the various sign options *)
  let '(sign, s) :=
    match s with
    | String c s' => if is_sign_element c then (true, s') else (false, s)
    | EmptyString => (false, s)
    end in
  let '(no_neg_0, s) :=
    match eat "z" s with Some s' => (true, s') | None => (false, s) end in
  (* If the next character is #, we're in alternate mode. *)
  let '(alternate, s) :=
    match eat "#" s with Some s' => (true, s') | None => (false, s) end in
  (* The special case for 0-padding *)
  let '(fill_char, s) :=
    if fill_char_specified then (fill_char, s) else
    match eat "0" s with
    | Some s' => ("0"%char, s')
    | None => (fill_char, s)
    end in
  ws <- leading_integer rt None s ;;
  let '(width, s) := ws in
  (* Comma and underscore signify thousands separators *)
  let '(comma, s) :=
    match eat "," s with Some s' => (true, s') | None => (false, s) end in
  match (match eat "_" s with
         | Some s' => if comma then None else Some (true, s')
         | None => Some (false, s)
         end) with
  | None => Raise ValueError
  | Some (underscore, s) =>
  if underscore && bool_decide (is_Some (eat "," s)) then Raise ValueError else
  (* Parse field precision *)
  ps <-
    (match eat "." s with
     | Some s' =>
         ps <- leading_integer rt None s' ;;
         match fst ps with
         | None => Raise ValueError
         | Some _ => Ok ps
         end
     | None => Ok (None, s)
     end) ;;
  let '(precision, s) := ps in
  (* Finally, parse the type field. *)
  match s with
  | String _ (String _ _) => Raise ValueError
  | _ =>
    let type := match s with String c _ => c | EmptyString => "s"%char end in
    if comma || underscore then Raise ValueError
    else if negb (Ascii.eqb type "s") then Raise ValueError
    else if sign || no_neg_0 || alternate || Ascii.eqb align "="
    then Raise ValueError
    else Ok {| fill_char := fill_char; align := align;
               width := width; precision := precision |}
  end
  end.

(** [format(value, format_spec)] for a string. *)
Definition format_str (rt : Runtime) (value : string) (format_spec : string)
    : result string :=
  (* zero length format spec is equivalent to str(obj) *)
  if String.eqb format_spec "" then Ok value else
  f <- parse_spec rt format_spec ;;
  let len := Str.len value in
  let len :=
    match precision f with
    | Some p => if len >=? p then p else len
    | None => len
    end in
  let total :=
    match width f with
    | Some w => Z.max w len
    | None => len
    end in
  if total >? memory rt then Raise MemoryError else
  let n_padding := total - len in
  let lpad :=
    if Ascii.eqb (align f) ">" then n_padding
    else if Ascii.eqb (align f) "^" then n_padding / 2
    else 0 in
  let rpad := n_padding - lpad in
  Ok (Str.repeat (fill_char f) lpad ++ Str.take len value
      ++ Str.repeat (fill_char f) rpad).

(** [render_field] *)
Definition render_field (rt : Runtime) (obj : value) (format_spec : string)
    : result string :=
  match obj with
  | VStr s => format_str rt s format_spec
  | VObj h => format_obj rt h format_spec
  end.

(** *** [build_string] *)

(** [output_markup]; [expand] is [build_string] one level below. *)
Definition output_markup (rt : Runtime) (kwargs : gmap string string)
    (expand : string -> result string)
    (field_name : string) (conversion : option ascii) (format_spec : string)
    (needs_expanding : bool) : result string :=
  fieldobj <- get_field_object rt kwargs field_name ;;
  fieldobj <-
    (match conversion with
     | Some c => do_conversion rt fieldobj c
     | None => Ok fieldobj
     end) ;;
  actual_format_spec <-
    (if needs_expanding then expand format_spec else Ok format_spec) ;;
  render_field rt fieldobj actual_format_spec.

(** [do_markup] over the parts that the iterator delivers. *)
Fixpoint do_markup (rt : Runtime) (kwargs : gmap string string)
    (expand : string -> result string) (l : list token) : result string :=
  match l with
  | [] => Ok ""
  | Literal c :: l' =>
      rest <- do_markup rt kwargs expand l' ;;
      Ok (String c rest)
  | Field field_name conversion format_spec needs_expanding :: l' =>
      out <- output_markup rt kwargs expand field_name conversion format_spec
               needs_expanding ;;
      rest <- do_markup rt kwargs expand l' ;;
      Ok (out ++ rest)
  | Malformed :: _ => Raise ValueError
  end.

Fixpoint build_string (rt : Runtime) (kwargs : gmap string string)
    (recursion_depth : nat) (input : string) : result string :=
  match recursion_depth with
  | O => (* Max string recursion exceeded *) Raise ValueError
  | S depth =>
      do_markup rt kwargs (build_string rt kwargs depth)
        (tokens InLiteral input)
  end.

(** [format_string.format] with the keyword arguments [kwargs] *)
Definition format (rt : Runtime) (format_string : string)
    (kwargs : gmap string string) : result string :=
  build_string rt kwargs 2 format_string.

(** *** A runtime to run the model

    No object but strings: every attribute lookup fails; [repr] and
    [ascii] put the text between quotes.  [strftime] knows the numeric
    directives [%Y %m %d %H %M %S %f] and [%%] and leaves any other text as
    it is. *)
Definition directive (d : DateTime.t) (c : ascii) : option string :=
  if Ascii.eqb c "Y" then Some (Str.zero_padded 4 (DateTime.year d))
  else if Ascii.eqb c "m" then Some (Str.zero_padded 2 (DateTime.month d))
  else if Ascii.eqb c "d" then Some (Str.zero_padded 2 (DateTime.day d))
  else if Ascii.eqb c "H" then Some (Str.zero_padded 2 (DateTime.hour d))
  else if Ascii.eqb c "M" then Some (Str.zero_padded 2 (DateTime.minute d))
  else if Ascii.eqb c "S" then Some (Str.zero_padded 2 (DateTime.second d))
  else if Ascii.eqb c "f" then Some (Str.zero_padded 6 (DateTime.microsecond d))
  else if Ascii.eqb c "%" then Some "%"
  else None.

(** [percent] is set when the character before was an unused ['%']. *)
Fixpoint strftime_from (d : DateTime.t) (percent : bool) (fmt : string)
    : string :=
  match fmt with
  | EmptyString => if percent then "%" else ""
  | String c fmt' =>
      if percent then
        match directive d c with
        | Some text => text ++ strftime_from d false fmt'
        | None => String "%" (String c (strftime_from d false fmt'))
        end
      else if Ascii.eqb c "%" then strftime_from d true fmt'
      else String c (strftime_from d false fmt')
  end.

Definition strftime_numeric (d : DateTime.t) (fmt : string) : string :=
  strftime_from d false fmt.

Definition strings_only : Runtime :=
  {| getattr := fun _ _ => Raise AttributeError;
     getitem := fun _ _ => Raise TypeError;
     py_str := fun _ => "";
     py_repr := fun v => match v with
                         | VStr s => "'" ++ s ++ "'"
                         | VObj _ => ""
                         end;
     py_ascii := fun v => match v with
                          | VStr s => "'" ++ s ++ "'"
                          | VObj _ => ""
                          end;
     format_obj := fun _ _ => Raise TypeError;
     ssize_max := 2 ^ 63 - 1;
     memory := 2 ^ 32;
     strftime := strftime_numeric |}.

End Format.

Module NameMangler.
Import Py.

(** [number_parser.findall(name)] for the pattern [(\d+)]: the maximal runs
    of decimal digits, from left to right.  [run] is the run being read.
    (Digits are the ASCII digits.) *)
Fixpoint findall (run : string) (s : string) : list string :=
  match s with
  | EmptyString =>
      match run with EmptyString => [] | _ => [run] end
  | String c s' =>
      if Str.is_digit c then findall (Format.snoc run c) s'
      else match run with
           | EmptyString => findall "" s'
           | _ => run :: findall "" s'
           end
  end.

(** [numbers[-1]] *)
Definition last_of (l : list string) : option string := List.last (map Some l) None.

(** The dictionary [subst] of [transform]. *)
Definition substitutions (file_data : FileData.t) : gmap string string :=
  let name := FileData.name file_data in
  let subst : gmap string string := {[ "name" := name ]} in
  let numbers := findall "" name in
  let subst :=
    match last_of numbers with
    | Some number => <[ "number" := number ]> subst
    | None => <[ "number" := "" ]> subst
    end in
  let '(root, ext) := Path.splitext name in
  let subst := <[ "ext" := ext ]> (<[ "root" := root ]> subst) in
  let camera :=
    match FileData.camera file_data with
    | Some c => if String.eqb c "" then "unknown_camera" else c
    | None => "unknown_camera"
    end in
  <[ "camera" := Str.replace " " "_" camera ]> subst.

(** [transform]; [format_string] is the attribute of the object, [None]
    until [new_format] is called. *)
Definition transform (rt : Format.Runtime) (format_string : option string)
    (file_data : FileData.t) : result string :=
  let subst := substitutions file_data in
  match format_string with
  | None => Raise AttributeError
  | Some format_string =>
      (* process {...} parts first *)
      result <-
        (match Format.format rt format_string subst with
         | Ok result => Ok result
         | Raise KeyError | Raise ValueError => Ok format_string
         | Raise e => Raise e
         end) ;;
      (* then do timestamp *)
      Ok (Format.strftime rt (FileData.timestamp file_data) result)
  end.

End NameMangler.

(** ** [imagelist.py]: opening a list of files and sorting the thumbnails *)

Module Thumbnails.
Import Py ImageList.

(** [list.sort(key=...)] for keys that are strings: the sort is stable and
    compares keys with [<] only.  The elements are inserted from the last
    to the first; an element goes before the first element whose key is not
    below its own. *)
Section Sort.
Context {A : Type} (key : A -> string).

Fixpoint insert (x : A) (l : list A) : list A :=
  match l with
  | [] => [x]
  | y :: l' =>
      if String.ltb (key y) (key x) then y :: insert x l' else x :: l
  end.

Definition sort (l : list A) : list A := fold_right insert [] l.

End Sort.

(** What [_date_key] reads for an image: the [datetime] of the three dates
    of its metadata ([None] for a date that is not set), the date of a
    file, [datetime.fromtimestamp(os.path.getmtime(path))], and
    [d.strftime(fmt)]. *)
Record Dates : Type := {
  date_taken : Image.t -> option DateTime.t;
  date_digitised : Image.t -> option DateTime.t;
  date_modified : Image.t -> option DateTime.t;
  getmtime : string -> DateTime.t;
  strftime : DateTime.t -> string -> string
}.

(** The image list with the check box [sort_date], the configuration store
    of the application and the exceptions logged by [catch_all]. *)
Record t : Type := {
  image_list : ImageList.t;
  sort_date : bool;
  config_store : gmap (string * string) string;
  log : list exn
}.

Definition set_image_list (l : ImageList.t) (self : t) : t :=
  {| image_list := l; sort_date := sort_date self;
     config_store := config_store self; log := log self |}.

Definition config_set (section key value : string) (self : t) : t :=
  {| image_list := image_list self; sort_date := sort_date self;
     config_store := <[(section, key) := value]> (config_store self);
     log := log self |}.

Definition log_exception (e : exn) (self : t) : t :=
  {| image_list := image_list self; sort_date := sort_date self;
     config_store := config_store self; log := (log self ++ [e])%list |}.

(** [str(b)] for a [bool] *)
Definition str_bool (b : bool) : string := if b then "True" else "False".

(** [_date_key] *)
Definition _date_key (D : Dates) (image : Image.t) : string :=
  let result := date_taken D image in
  let result :=
    match result with None => date_digitised D image | Some _ => result end in
  let result :=
    match result with None => date_modified D image | Some _ => result end in
  let result :=
    match result with
    | None => (* use file date as last resort *) getmtime D (Image.path image)
    | Some result => result
    end in
  (* convert result to string and append path so photos with same
     time stamp get sorted consistently *)
  strftime D result "%Y%m%d%H%M%S%f" ++ Image.path image.

(** The date that [_date_key] writes for an image: the first of the three
    dates of the metadata that is set, else the date of the file. *)
Definition key_date (D : Dates) (image : Image.t) : DateTime.t :=
  match date_taken D image, date_digitised D image, date_modified D image with
  | Some d, _, _ => d
  | None, Some d, _ => d
  | None, None, Some d => d
  | None, None, None => getmtime D (Image.path image)
  end.

(** [_sort_thumbnails]; the key of the sort. *)
Definition sort_key (D : Dates) (sort_date : bool) : Image.t -> string :=
  if sort_date then _date_key D else Image.path.

Definition _sort_thumbnails (tk : Image.Toolkit) (D : Dates) (self : t) : t :=
  let sort_date := sort_date self in
  let self := config_set "controls" "sort_date" (str_bool sort_date) self in
  let images := sort (sort_key D sort_date) (images (image_list self)) in
  let images := map (show_thumbnail tk) images in
  set_image_list (emit (set_images (image_list self) images) image_list_changed)
    self.

(** [done_opening] *)
Definition done_opening (tk : Image.Toolkit) (D : Dates) (path : string)
    (self : t) : t :=
  _sort_thumbnails tk D (config_set "paths" "images" (Path.dirname path) self).

(** [open_file_list], under [catch_all]: [calls] are the paths of
    [path_list], each with the state of the file system when [open_file] is
    called for it; [path_list[-1]] raises [IndexError] for the empty
    list. *)
Definition open_file_list (tk : Image.Toolkit) (D : Dates)
    (calls : list (Os * string)) (self : t) : t :=
  let self := set_image_list (open_files tk calls (image_list self)) self in
  match List.last (map (fun c => Some (snd c)) calls) None with
  | Some path => done_opening tk D path self
  | None => log_exception IndexError self
  end.

End Thumbnails.

(** ** Thumbnails sorted as example *)

Module ThumbnailsExample.
Import Py ImageList Thumbnails ImageListExample.

Definition noon (day : Z) : DateTime.t :=
  {| DateTime.year := 2019; DateTime.month := 3; DateTime.day := day;
     DateTime.hour := 12; DateTime.minute := 0; DateTime.second := 0;
     DateTime.microsecond := 0 |}.

(** The first picture was taken on the 8th of March and the last one on
    the 6th; the two others have no date in their metadata, and their
    files are of the 7th. *)
Definition dates : Dates :=
  {| date_taken := fun image =>
       if String.eqb (Image.path image) "/p/a.jpg" then Some (noon 8)
       else if String.eqb (Image.path image) "/p/d.jpg" then Some (noon 6)
       else None;
     date_digitised := fun _ => None;
     date_modified := fun _ => None;
     getmtime := fun _ => noon 7;
     strftime := Format.strftime_numeric |}.

(** The four images of [four_images], sorted by date or by name. *)
Definition four (sort_date : bool) : Thumbnails.t :=
  {| image_list := four_images; sort_date := sort_date;
     config_store := ∅; log := [] |}.

End ThumbnailsExample.

(** ** [importer.py]: the import sources and class [Importer] *)

Module Source.

Inductive t : Type :=
| FolderSource (root : string)
| CameraSource (model port_name : string).

End Source.

(** A Python dictionary with string keys: the entries in the order of their
    insertion. *)
Module Dict.

Fixpoint get {V : Type} (k : string) (d : list (string * V)) : option V :=
  match d with
  | [] => None
  | (k', v) :: d' => if String.eqb k' k then Some v else get k d'
  end.

(** [d[k] = v] *)
Fixpoint set {V : Type} (k : string) (v : V) (d : list (string * V))
    : list (string * V) :=
  match d with
  | [] => [(k, v)]
  | (k', v') :: d' =>
      if String.eqb k' k then (k', v) :: d' else (k', v') :: set k v d'
  end.

Definition keys {V : Type} (d : list (string * V)) : list string := map fst d.

End Dict.

(** [list.sort(key=...)]: the sort is stable and compares keys with [<]
    only.  The elements are inserted from the last to the first; an element
    goes before the first element that is not below it, so elements that
    compare equal keep their order. *)
Module Sort.

Section Sort.
Context {A : Type} (lt : A -> A -> bool).

Fixpoint insert (x : A) (l : list A) : list A :=
  match l with
  | [] => [x]
  | y :: l' => if lt y x then y :: insert x l' else x :: l
  end.

Fixpoint sort (l : list A) : list A :=
  match l with
  | [] => []
  | x :: l' => insert x (sort l')
  end.

End Sort.

End Sort.

Module Importer.
Import Py.

(** Calls that leave the importer, latest last: a file written by
    [shutil.copy2] or by [camera_file.save], the answer of a call of
    [abort_copy], and the calls of [image_list.open_file] and
    [image_list.done_opening]. *)
Inductive Event : Type :=
| Copied (dest_path : string)
| Polled (abort : bool)
| Opened (path : string)
| DoneOpening (path : string).

(** Records of the [logging] module: [logger.error(msg)], and an exception
    logged by [catch_all]. *)
Inductive LogRecord : Type :=
| Error (msg : string)
| Exception (e : exn).

(** An item of [file_list_widget]: its text, its data for [Qt.UserRole],
    whether its flags are [ItemIsSelectable | ItemIsEnabled] (or
    [NoItemFlags]), and whether it is selected. *)
Record Item : Type := {
  text : string;
  data : string;
  selectable : bool;
  selected : bool
}.

Definition setSelected (v : bool) (i : Item) : Item :=
  {| text := text i; data := data i; selectable := selectable i;
     selected := v |}.

(** The data of an item of [source_selector]: one of the two methods, or a
    source with its configuration section. *)
Inductive ItemData : Type :=
| NewFileList
| AddFolder
| SourceItem (source : Source.t) (config_section : string).

(** The widgets.  The items of [source_selector] are ['<select source>'],
    the [entries] and ['<add a folder>'], as [refresh] makes them; before
    the first [refresh] the current index is -1. *)
Record Widgets : Type := {
  entries : list (Source.t * string);
  currentIndex : Z;
  signalsBlocked : bool;
  path_format : string;
  path_example : string;
  file_list_widget : list Item;
  copy_button : bool;
  isVisible : bool
}.

Definition set_entries (v : list (Source.t * string)) (r : Widgets) :
     Widgets :=
  {| entries := v; currentIndex := currentIndex r; signalsBlocked :=
     signalsBlocked r; path_format := path_format r; path_example :=
     path_example r; file_list_widget := file_list_widget r; copy_button :=
     copy_button r; isVisible := isVisible r |}.

Definition set_currentIndex (v : Z) (r : Widgets) : Widgets :=
  {| entries := entries r; currentIndex := v; signalsBlocked :=
     signalsBlocked r; path_format := path_format r; path_example :=
     path_example r; file_list_widget := file_list_widget r; copy_button :=
     copy_button r; isVisible := isVisible r |}.

Definition set_signalsBlocked (v : bool) (r : Widgets) : Widgets :=
  {| entries := entries r; currentIndex := currentIndex r; signalsBlocked :=
     v; path_format := path_format r; path_example := path_example r;
     file_list_widget := file_list_widget r; copy_button := copy_button r;
     isVisible := isVisible r |}.

Definition set_path_format (v : string) (r : Widgets) : Widgets :=
  {| entries := entries r; currentIndex := currentIndex r; signalsBlocked :=
     signalsBlocked r; path_format := v; path_example := path_example r;
     file_list_widget := file_list_widget r; copy_button := copy_button r;
     isVisible := isVisible r |}.

Definition set_path_example (v : string) (r : Widgets) : Widgets :=
  {| entries := entries r; currentIndex := currentIndex r; signalsBlocked :=
     signalsBlocked r; path_format := path_format r; path_example := v;
     file_list_widget := file_list_widget r; copy_button := copy_button r;
     isVisible := isVisible r |}.

Definition set_file_list_widget (v : list Item) (r : Widgets) : Widgets :=
  {| entries := entries r; currentIndex := currentIndex r; signalsBlocked :=
     signalsBlocked r; path_format := path_format r; path_example :=
     path_example r; file_list_widget := v; copy_button := copy_button r;
     isVisible := isVisible r |}.

Definition set_copy_button (v : bool) (r : Widgets) : Widgets :=
  {| entries := entries r; currentIndex := currentIndex r; signalsBlocked :=
     signalsBlocked r; path_format := path_format r; path_example :=
     path_example r; file_list_widget := file_list_widget r; copy_button :=
     v; isVisible := isVisible r |}.

Definition set_isVisible (v : bool) (r : Widgets) : Widgets :=
  {| entries := entries r; currentIndex := currentIndex r; signalsBlocked :=
     signalsBlocked r; path_format := path_format r; path_example :=
     path_example r; file_list_widget := file_list_widget r; copy_button :=
     copy_button r; isVisible := v |}.


(** What lies outside the importer: the regular files and the directories
    of the file system, the configuration store, the log, the calls made
    (see [Event]), the number of [processEvents] calls made by
    [abort_copy], and whether the timer of [new_source] is pending.  A
    file or directory is the text of its path as it is given to the
    functions of [os]: two texts for one place ([a/./b] and [a/b]) are two
    paths here, and the root [/] is a directory when it is among
    [dirs]. *)
Record World : Type := {
  files : gset string;
  dirs : gset string;
  config_store : gmap (string * string) string;
  log : list LogRecord;
  trace : list Event;
  polls : nat;
  list_files_timer : bool
}.

Definition set_files (v : gset string) (r : World) : World :=
  {| files := v; dirs := dirs r; config_store := config_store r; log := log
     r; trace := trace r; polls := polls r; list_files_timer :=
     list_files_timer r |}.

Definition set_dirs (v : gset string) (r : World) : World :=
  {| files := files r; dirs := v; config_store := config_store r; log := log
     r; trace := trace r; polls := polls r; list_files_timer :=
     list_files_timer r |}.

Definition set_config_store (v : gmap (string * string) string) (r : World)
     : World :=
  {| files := files r; dirs := dirs r; config_store := v; log := log r;
     trace := trace r; polls := polls r; list_files_timer :=
     list_files_timer r |}.

Definition set_log (v : list LogRecord) (r : World) : World :=
  {| files := files r; dirs := dirs r; config_store := config_store r; log
     := v; trace := trace r; polls := polls r; list_files_timer :=
     list_files_timer r |}.

Definition set_trace (v : list Event) (r : World) : World :=
  {| files := files r; dirs := dirs r; config_store := config_store r; log
     := log r; trace := v; polls := polls r; list_files_timer :=
     list_files_timer r |}.

Definition set_polls (v : nat) (r : World) : World :=
  {| files := files r; dirs := dirs r; config_store := config_store r; log
     := log r; trace := trace r; polls := v; list_files_timer :=
     list_files_timer r |}.

Definition set_list_files_timer (v : bool) (r : World) : World :=
  {| files := files r; dirs := dirs r; config_store := config_store r; log
     := log r; trace := trace r; polls := polls r; list_files_timer := v |}.


(** The attributes of the [Importer]; [format_string] and [example] are
    those of its [NameMangler]. *)
Record t : Type := {
  format_string : option string;
  example : option FileData.t;
  file_data : list (string * FileData.t);
  file_list : list string;
  source : option Source.t;
  config_section : option string;
  import_in_progress : bool;
  ui : Widgets;
  world : World
}.

Definition set_format_string (v : option string) (r : t) : t :=
  {| format_string := v; example := example r; file_data := file_data r;
     file_list := file_list r; source := source r; config_section :=
     config_section r; import_in_progress := import_in_progress r; ui := ui
     r; world := world r |}.

Definition set_example (v : option FileData.t) (r : t) : t :=
  {| format_string := format_string r; example := v; file_data := file_data
     r; file_list := file_list r; source := source r; config_section :=
     config_section r; import_in_progress := import_in_progress r; ui := ui
     r; world := world r |}.

Definition set_file_data (v : list (string * FileData.t)) (r : t) : t :=
  {| format_string := format_string r; example := example r; file_data := v;
     file_list := file_list r; source := source r; config_section :=
     config_section r; import_in_progress := import_in_progress r; ui := ui
     r; world := world r |}.

Definition set_file_list (v : list string) (r : t) : t :=
  {| format_string := format_string r; example := example r; file_data :=
     file_data r; file_list := v; source := source r; config_section :=
     config_section r; import_in_progress := import_in_progress r; ui := ui
     r; world := world r |}.

Definition set_source (v : option Source.t) (r : t) : t :=
  {| format_string := format_string r; example := example r; file_data :=
     file_data r; file_list := file_list r; source := v; config_section :=
     config_section r; import_in_progress := import_in_progress r; ui := ui
     r; world := world r |}.

Definition set_config_section (v : option string) (r : t) : t :=
  {| format_string := format_string r; example := example r; file_data :=
     file_data r; file_list := file_list r; source := source r;
     config_section := v; import_in_progress := import_in_progress r; ui :=
     ui r; world := world r |}.

Definition set_import_in_progress (v : bool) (r : t) : t :=
  {| format_string := format_string r; example := example r; file_data :=
     file_data r; file_list := file_list r; source := source r;
     config_section := config_section r; import_in_progress := v; ui := ui
     r; world := world r |}.

Definition set_ui (v : Widgets) (r : t) : t :=
  {| format_string := format_string r; example := example r; file_data :=
     file_data r; file_list := file_list r; source := source r;
     config_section := config_section r; import_in_progress :=
     import_in_progress r; ui := v; world := world r |}.

Definition set_world (v : World) (r : t) : t :=
  {| format_string := format_string r; example := example r; file_data :=
     file_data r; file_list := file_list r; source := source r;
     config_section := config_section r; import_in_progress :=
     import_in_progress r; ui := ui r; world := v |}.


(** *** State and exceptions

    A method is a function from the state to a result and the state after
    it: what was done before an exception is raised stays done. *)
Definition M (A : Type) : Type := t -> result A * t.

Definition ret {A : Type} (a : A) : M A := fun s => (Ok a, s).

Definition raise {A : Type} (e : exn) : M A := fun s => (Raise e, s).

Definition mbind {A B : Type} (m : M A) (k : A -> M B) : M B :=
  fun s =>
    match m s with
    | (Ok a, s') => k a s'
    | (Raise e, s') => (Raise e, s')
    end.

Definition get : M t := fun s => (Ok s, s).

Definition modify (f : t -> t) : M unit := fun s => (Ok tt, f s).

Definition lift {A : Type} (r : result A) : M A := fun s => (r, s).

Notation "x <~ m ;; k" := (mbind m (fun x => k))
  (at level 62, m at next level, right associativity, only parsing).
Notation "m ;;; k" := (mbind m (fun _ => k))
  (at level 62, right associativity, only parsing).

Definition when (b : bool) (m : M unit) : M unit := if b then m else ret tt.

(** Modelled from the spec: the decorator [catch_all] of [photini.pyqt],
    which is not among the source files.  Following section 7 of the spec
    (errors are logged and the current operation is given up), an exception
    that leaves the decorated method is logged and the call returns. *)
Definition set_log' (f : list LogRecord -> list LogRecord) (s : t) : t :=
  set_world (set_log (f (log (world s))) (world s)) s.

Definition catch_all (m : M unit) : M unit :=
  fun s =>
    match m s with
    | (Ok tt, s') => (Ok tt, s')
    | (Raise e, s') => (Ok tt, set_log' (fun l => l ++ [Exception e])%list s')
    end.

Definition emit (e : Event) : M unit :=
  modify (fun s =>
            set_world (set_trace (trace (world s) ++ [e])%list (world s)) s).

Definition logger_error (msg : string) : M unit :=
  modify (set_log' (fun l => l ++ [Error msg])%list).

(** Modelled from the spec: the configuration key-value store, of which the
    spec says no more; [get] returns the value stored, or the default. *)
Definition config_get (section key fallback : string) : M string :=
  s <~ get ;;
  ret (default fallback (config_store (world s) !! (section, key))).

Definition config_set (section key value : string) : M unit :=
  modify (fun s =>
            set_world
              (set_config_store
                 (<[(section, key) := value]> (config_store (world s)))
                 (world s)) s).

(** The metadata of a file that [FolderSource.get_file_data] reads. *)
Record FileMetadata : Type := {
  date_taken : option DateTime.t;
  date_digitised : option DateTime.t;
  date_modified : option DateTime.t;
  camera_model : option string
}.

(** What is asked of the user, the operating system, the camera library,
    the interpreter and the other modules of the program. *)
Record Env : Type := {
  rt : Format.Runtime;
  (** what the [n]th [processEvents] of [abort_copy] brings: the user
      stops the copy, the pane is hidden *)
  user : nat -> bool * bool;
  (** [datetime.now()] *)
  now : DateTime.t;
  (** [eval] of a configuration text *)
  eval_bool : string -> result bool;
  eval_list : string -> result (list string);
  (** [image_types_lower() + video_types_lower()] *)
  types_lower : list string;
  (** [os.walk(root)]: the directories with their files *)
  walk : string -> list (string * list string);
  (** [Metadata(path)] *)
  metadata : string -> FileMetadata;
  (** [datetime.fromtimestamp(os.path.getmtime(path))] *)
  getmtime : string -> DateTime.t;
  (** the module [gphoto2] was imported *)
  gp : bool;
  (** [gp.check_result(gp.gp_camera_autodetect())] *)
  autodetect : list (string * string);
  (** [CameraSource.session] up to [camera.init()] for a port name: the
      model of the camera found there, [camera.get_abilities().model], or
      the exception raised by the library *)
  camera_init : string -> result string;
  (** [camera.exit()] *)
  camera_exit : result unit;
  (** [CameraSource._list_files(camera)], [None] for [GPhoto2Error] *)
  camera_files : option (list string);
  (** [datetime.utcfromtimestamp(camera.file_get_info(...).file.mtime)],
      [None] for [GPhoto2Error] *)
  camera_mtime : string -> string -> option DateTime.t;
  (** [str(ex)] if [camera.file_get] or [camera_file.save] raises
      [GPhoto2Error] for a folder and a name *)
  camera_error : string -> string -> option string;
  (** the method [add_folder], which asks the user for a directory *)
  add_folder : M unit
}.

(** *** The import sources *)

Definition isfile (s : t) (path : string) : bool :=
  bool_decide (path ∈ files (world s)).

Definition isdir (s : t) (path : string) : bool :=
  bool_decide (path ∈ dirs (world s)).

Definition exists_ (s : t) (path : string) : bool :=
  isfile s path || isdir s path.

(** [os.mkdir(name)], for a name that does not end with a separator, as
    [os.path.dirname] gives it: it raises if something is at the path, or
    if the directory in which to make it is missing or is a file.  A name
    without directory is made in the current directory. *)
Definition mkdir (name : string) : M unit :=
  s <~ get ;;
  let parent := Path.dirname name in
  if String.eqb name "" then raise FileNotFoundError
  else if exists_ s name then raise FileExistsError
  else if String.eqb parent "" || isdir s parent then
    modify (fun s =>
              set_world (set_dirs ({[name]} ∪ dirs (world s)) (world s)) s)
  else if isfile s parent then raise NotADirectoryError
  else raise FileNotFoundError.

(** [os.makedirs(name)]: the directories above [name] that are missing are
    made first, then [name].  [depth] bounds the recursion, which is on a
    shorter name each time: [makedirs] gives it more than it needs (see
    [makedirs_depth]). *)
Fixpoint makedirs_from (depth : nat) (name : string) : M unit :=
  match depth with
  | O => raise RuntimeError
  | S depth =>
      let '(head, tail) := Path.split name in
      let '(head, tail) :=
        if String.eqb tail "" then Path.split head else (head, tail) in
      s <~ get ;;
      if negb (String.eqb head "") && negb (String.eqb tail "")
         && negb (exists_ s head)
      then
        (fun s =>
           match makedirs_from depth head s with
           | (Raise FileExistsError, s') =>
               (* be happy if someone already created the path *)
               (Ok tt, s')
           | r => r
           end) ;;;
        if String.eqb tail "." then
          (* xxx/newdir/. exists if xxx/newdir exists *)
          ret tt
        else mkdir name
      else mkdir name
  end.

Definition makedirs (name : string) : M unit :=
  makedirs_from (S (String.length name)) name.

(** The file written at [dest_path], new or in the place of the file that
    was there. *)
Definition write_file (dest_path : string) : M unit :=
  modify (fun s =>
            set_world (set_files ({[dest_path]} ∪ files (world s)) (world s)) s)
  ;;; emit (Copied dest_path).

(** [shutil.copy2(src, dst)] for a source that is a file and a destination
    whose directory exists: a destination that is a directory receives the
    file under the base name of the source; the copy raises if source and
    target are the same file, or if the target is a directory. *)
Definition copy2 (src dst : string) : M unit :=
  s <~ get ;;
  let dst :=
    if isdir s dst then Path.join dst (Path.basename src) else dst in
  if String.eqb src dst then raise SameFileError
  else if isdir s dst then raise IsADirectoryError
  else write_file dst.

(** [d[key]] for a value that may be absent *)
Definition lookup {A : Type} (v : option A) : M A :=
  match v with
  | Some a => ret a
  | None => raise KeyError
  end.

(** [FolderSource.get_file_data] *)
Definition timestamp_of (E : Env) (path : string) : DateTime.t :=
  let metadata := metadata E path in
  let timestamp := date_taken metadata in
  let timestamp :=
    match timestamp with Some _ => timestamp | None => date_digitised metadata end in
  let timestamp :=
    match timestamp with Some _ => timestamp | None => date_modified metadata end in
  match timestamp with
  | None => (* use file date as last resort *) getmtime E path
  | Some timestamp => timestamp
  end.

Definition folder_get_file_data (E : Env) (root : string) (s : t)
    : option (list (string * FileData.t)) :=
  if negb (isdir s root) then None else
  let file_list :=
    flat_map
      (fun '(root, files) =>
         flat_map
           (fun name =>
              let '(base, ext) := Path.splitext name in
              if existsb (String.eqb (Str.lower ext))
                   (map (fun x => "." ++ x) (types_lower E))
              then [Path.join root name] else [])
           files)
      (walk E root) in
  Some
    (fold_left
       (fun file_data path =>
          let name := Path.basename path in
          Dict.set name
            {| FileData.camera := camera_model (metadata E path);
               FileData.path := Some path;
               FileData.folder := None;
               FileData.name := name;
               FileData.timestamp := timestamp_of E path;
               FileData.dest_path := None |}
            file_data)
       file_list []).

(** [CameraSource.get_file_data] *)
Fixpoint camera_file_data (E : Env) (model : string) (file_list : list string)
    (file_data : list (string * FileData.t))
    : option (list (string * FileData.t)) :=
  match file_list with
  | [] => Some file_data
  | path :: file_list' =>
      let '(folder, name) := Path.split path in
      match camera_mtime E folder name with
      | None => None
      | Some timestamp =>
          camera_file_data E model file_list'
            (Dict.set name
               {| FileData.camera := Some model;
                  FileData.path := None;
                  FileData.folder := Some folder;
                  FileData.name := name;
                  FileData.timestamp := timestamp;
                  FileData.dest_path := None |}
               file_data)
      end
  end.

(** [CameraSource.session] up to its [yield]: the camera is initialised
    and its model checked. *)
Definition session (E : Env) (model port_name : string) : result unit :=
  found <- camera_init E port_name ;;
  (* check camera is the right model *)
  if negb (String.eqb found model) then Raise RuntimeError else Ok tt.

(** The body of the [with] statement of [CameraSource.get_file_data]. *)
Definition camera_listing (E : Env) (model : string)
    : option (list (string * FileData.t)) :=
  match camera_files E with
  | None => (* camera is no longer visible *) None
  | Some file_list => camera_file_data E model file_list []
  end.

(** [camera.exit()] is called when the body is left, also by [return
    None]. *)
Definition camera_get_file_data (E : Env) (model port_name : string)
    : result (option (list (string * FileData.t))) :=
  _ <- session E model port_name ;;
  let file_data := camera_listing E model in
  _ <- camera_exit E ;;
  Ok file_data.

Definition get_file_data (E : Env) (source : Source.t) (s : t)
    : result (option (list (string * FileData.t))) :=
  match source with
  | Source.FolderSource root => Ok (folder_get_file_data E root s)
  | Source.CameraSource model port_name =>
      camera_get_file_data E model port_name
  end.

(** [copy_files] is a generator.  [copy_files_begin] is what it does when
    it is started, before the first entry: a camera opens its session.
    [copy_file] is what it does for one entry of [info_list] up to its
    first [yield], and the value yielded.  [copy_files_end] is what it does
    after the last entry: the session of a camera is left and
    [camera.exit()] called.  (The caller leaves its loop when [None] is
    yielded, so the generator is never resumed after that; a generator
    that is given up at a [yield] does not reach [camera.exit()].) *)
Definition copy_files_begin (E : Env) (source : Source.t) : M unit :=
  match source with
  | Source.FolderSource _ => ret tt
  | Source.CameraSource model port_name => lift (session E model port_name)
  end.

Definition copy_files_end (E : Env) (source : Source.t) : M unit :=
  match source with
  | Source.FolderSource _ => ret tt
  | Source.CameraSource _ _ => lift (camera_exit E)
  end.

Definition folder_copy_file (info : FileData.t) : M (option FileData.t) :=
  path <~ lookup (FileData.path info) ;;
  s <~ get ;;
  if negb (isfile s path) then ret None else
  dest_path <~ lookup (FileData.dest_path info) ;;
  let dest_dir := Path.dirname dest_path in
  when (negb (isdir s dest_dir)) (makedirs dest_dir) ;;;
  copy2 path dest_path ;;;
  ret (Some info).

Definition camera_copy_file (E : Env) (info : FileData.t)
    : M (option FileData.t) :=
  dest_path <~ lookup (FileData.dest_path info) ;;
  let dest_dir := Path.dirname dest_path in
  s <~ get ;;
  when (negb (isdir s dest_dir)) (makedirs dest_dir) ;;;
  folder <~ lookup (FileData.folder info) ;;
  match camera_error E folder (FileData.name info) with
  | Some ex => logger_error ex ;;; ret None
  | None => write_file dest_path ;;; ret (Some info)
  end.

Definition copy_file (E : Env) (source : Source.t) (info : FileData.t)
    : M (option FileData.t) :=
  match source with
  | Source.FolderSource _ => folder_copy_file info
  | Source.CameraSource _ _ => camera_copy_file E info
  end.

(** [get_camera_list] *)
Definition get_camera_list (E : Env) : list (string * string) :=
  if negb (gp E) then [] else
  Sort.sort (fun a b => String.ltb (fst a) (fst b)) (autodetect E).

(** *** [NameMangler]: [new_format], [set_example], [refresh_example] *)

Definition refresh_example (E : Env) : M unit :=
  s <~ get ;;
  match format_string s, example s with
  | Some f, Some example =>
      if String.eqb f "" then ret tt else
      new_example <~ lift (NameMangler.transform (rt E) (Some f) example) ;;
      modify (fun s => set_ui (set_path_example new_example (ui s)) s)
  | _, _ => ret tt
  end.

Definition new_format (E : Env) (format_string : string) : M unit :=
  catch_all
    (modify (set_format_string (Some format_string)) ;;;
     refresh_example E).

Definition set_example' (E : Env) (example : FileData.t) : M unit :=
  modify (set_example (Some example)) ;;;
  refresh_example E.

(** [path_format.setText(text)]: [textChanged] is emitted when the text
    changes, and calls [new_format]. *)
Definition path_format_setText (E : Env) (text : string) : M unit :=
  s <~ get ;;
  if String.eqb (path_format (ui s)) text then ret tt else
  modify (fun s => set_ui (set_path_format text (ui s)) s) ;;;
  new_format E text.

(** *** [Importer] *)

(** [show_file_list] *)
Fixpoint show_items (E : Env) (file_list : list string) : M unit :=
  match file_list with
  | [] => ret tt
  | name :: file_list' =>
      s <~ get ;;
      info <~ lookup (Dict.get name (file_data s)) ;;
      dest_path <~ lift (NameMangler.transform (rt E) (format_string s) info) ;;
      modify (fun s =>
                set_file_data
                  (Dict.set name (FileData.set_dest_path info dest_path)
                     (file_data s)) s) ;;;
      s <~ get ;;
      let item :=
        {| text := name ++ " -> " ++ dest_path;
           data := name;
           selectable := negb (exists_ s dest_path);
           selected := false |} in
      modify (fun s =>
                set_ui (set_file_list_widget
                          (file_list_widget (ui s) ++ [item])%list (ui s)) s) ;;;
      show_items E file_list'
  end.

Definition show_file_list (E : Env) : M unit :=
  modify (fun s => set_ui (set_file_list_widget [] (ui s)) s) ;;;
  s <~ get ;;
  show_items E (file_list s).

(** [sort_file_list] *)
Fixpoint timestamps (file_data : list (string * FileData.t))
    (file_list : list string) : result (list (DateTime.t * string)) :=
  match file_list with
  | [] => Ok []
  | x :: file_list' =>
      match Dict.get x file_data with
      | None => Raise KeyError
      | Some d =>
          l <- timestamps file_data file_list' ;;
          Ok ((FileData.timestamp d, x) :: l)
      end
  end.

Definition sort_file_list (E : Env) : M unit :=
  catch_all
    (sort_date <~ config_get "controls" "sort_date" "False" ;;
     sort_date <~ lift (eval_bool E sort_date) ;;
     s <~ get ;;
     (if sort_date then
        keyed <~ lift (timestamps (file_data s) (file_list s)) ;;
        modify (set_file_list
                  (map snd (Sort.sort (fun a b => DateTime.ltb (fst a) (fst b))
                                      keyed)))
      else
        modify (set_file_list (Sort.sort String.ltb (file_list s)))) ;;;
     show_file_list E ;;;
     s <~ get ;;
     example <~
       (match List.last (map Some (file_list s)) None with
        | Some name => lookup (Dict.get name (file_data s))
        | None =>
            ret {| FileData.camera := None;
                   FileData.path := None;
                   FileData.folder := None;
                   FileData.name := "IMG_9999.JPG";
                   FileData.timestamp := now E;
                   FileData.dest_path := None |}
        end) ;;
     set_example' E example).

(** [_new_file_list] *)
Definition _new_file_list (E : Env) (file_data : list (string * FileData.t))
    : M unit :=
  modify (set_file_list (Dict.keys file_data)) ;;;
  modify (set_file_data file_data) ;;;
  sort_file_list E.

(** [source_selector.itemData(idx)] *)
Definition itemData (w : Widgets) (idx : Z) : option ItemData :=
  let n := Z.of_nat (length (entries w)) in
  if idx =? 0 then Some NewFileList
  else if (1 <=? idx) && (idx <=? n) then
    match nth_error (entries w) (Z.to_nat (idx - 1)) with
    | Some (source, section) => Some (SourceItem source section)
    | None => None
    end
  else if idx =? n + 1 then Some AddFolder
  else None.

(** [source_selector.count()] *)
Definition count (w : Widgets) : Z := Z.of_nat (length (entries w)) + 2.

(** [str.replace] of one character in the path format *)
Definition braces (path_format : string) : string :=
  Str.replace ")" "}" (Str.replace "(" "{" path_format).

(** [new_source] *)
Definition new_source (E : Env) (idx : Z) : M unit :=
  catch_all
    (modify (set_source None) ;;;
     s <~ get ;;
     match itemData (ui s) idx with
     | Some NewFileList =>
         (* a special 'source' that's actually a method to call *)
         _new_file_list E []
     | Some AddFolder => add_folder E
     | Some (SourceItem source section) =>
         (* select new source *)
         modify (set_source (Some source)) ;;;
         modify (set_config_section (Some section)) ;;;
         path_format <~ config_get section "path_format" (path_format (ui s)) ;;
         path_format_setText E (braces path_format) ;;;
         modify (fun s => set_ui (set_file_list_widget [] (ui s)) s) ;;;
         (* allow 100ms for display to update before getting file list *)
         modify (fun s => set_world (set_list_files_timer true (world s)) s)
     | None => raise TypeError
     end).

(** [source_selector.setCurrentIndex(idx)]: the signal
    [currentIndexChanged], connected to [new_source], is emitted when the
    index changes and the signals are not blocked. *)
Definition setCurrentIndex (E : Env) (idx : Z) : M unit :=
  s <~ get ;;
  let idx := if (0 <=? idx) && (idx <? count (ui s)) then idx else -1 in
  if idx =? currentIndex (ui s) then ret tt else
  modify (fun s => set_ui (set_currentIndex idx (ui s)) s) ;;;
  when (negb (signalsBlocked (ui s))) (new_source E idx).

(** Whether the data of a new item equals the data saved: the two methods
    equal themselves; a tuple with a source made by this [refresh] never
    equals a tuple with a source object made before. *)
Definition same_item_data (new : ItemData) (old : option ItemData) : bool :=
  match new, old with
  | NewFileList, Some NewFileList => true
  | AddFolder, Some AddFolder => true
  | _, _ => false
  end.

(** [refresh]: the list is rebuilt and the selection restored, given the
    data of the item that was current and whether signals were blocked. *)
Definition rebuild (E : Env) (was_blocked : bool)
    (old_item_data : option ItemData) : M unit :=
  (* rebuild list: the first item added to the empty box becomes the
     current one *)
  modify (fun s => set_ui (set_currentIndex 0 (set_entries [] (ui s))) s) ;;;
  let cameras :=
    map (fun '(model, port_name) =>
           (Source.CameraSource model port_name, "importer " ++ model))
        (get_camera_list E) in
  modify (fun s => set_ui (set_entries cameras (ui s)) s) ;;;
  folders <~ config_get "importer" "folders" "[]" ;;
  folders <~ lift (eval_list E folders) ;;
  s <~ get ;;
  let folders :=
    map (fun root => (Source.FolderSource root, "importer folder " ++ root))
        (List.filter (isdir s) folders) in
  modify (fun s => set_ui (set_entries (cameras ++ folders)%list (ui s)) s) ;;;
  (* restore saved selection *)
  s <~ get ;;
  let new_idx :=
    if same_item_data NewFileList old_item_data then 0
    else if same_item_data AddFolder old_item_data
    then count (ui s) - 1
    else -1 in
  (* the signals are blocked: [setCurrentIndex] sets the index and calls
     nothing *)
  when (new_idx >=? 0)
    (modify (fun s => set_ui (set_currentIndex new_idx (ui s)) s)) ;;;
  modify (fun s => set_ui (set_signalsBlocked was_blocked (ui s)) s) ;;;
  when (new_idx <? 0) (setCurrentIndex E 0).

Definition refresh (E : Env) : M unit :=
  catch_all
    (s <~ get ;;
     let was_blocked := signalsBlocked (ui s) in
     modify (fun s => set_ui (set_signalsBlocked true (ui s)) s) ;;;
     (* save current selection *)
     let idx := currentIndex (ui s) in
     let old_item_data := if idx >=? 0 then itemData (ui s) idx else None in
     rebuild E was_blocked old_item_data).

(** [_fail] *)
Definition _fail (E : Env) : M unit :=
  setCurrentIndex E 0 ;;;
  refresh E.

(** [list_files] *)
Definition list_files (E : Env) : M unit :=
  modify (fun s => set_world (set_list_files_timer false (world s)) s) ;;;
  s <~ get ;;
  match source s with
  | Some source =>
      file_data <~ lift (get_file_data E source s) ;;
      match file_data with
      | None => _fail E
      | Some file_data => _new_file_list E file_data
      end
  | None => _new_file_list E []
  end.

(** [select_files] *)
Definition set_items (items : list Item) : M unit :=
  modify (fun s => set_ui (set_file_list_widget items (ui s)) s).

(** The loop of [select_files]: an item is changed when it is reached, so
    the items before the one that raises stay selected. *)
Fixpoint select_loop (since : DateTime.t) (done todo : list Item) : M unit :=
  match todo with
  | [] => ret tt
  | item :: todo' =>
      if negb (selectable item)
      then select_loop since (done ++ [item])%list todo' else
      s <~ get ;;
      d <~ lookup (Dict.get (data item) (file_data s)) ;;
      let item' :=
        if DateTime.ltb since (FileData.timestamp d)
        then setSelected true item else item in
      set_items (done ++ item' :: todo')%list ;;;
      select_loop since (done ++ [item'])%list todo'
  end.

Definition select_files (since : DateTime.t) : M unit :=
  s <~ get ;;
  match file_list_widget (ui s) with
  | [] => ret tt
  | items =>
      (* clearSelection *)
      let items := map (setSelected false) items in
      set_items items ;;;
      select_loop since [] items
  end.

(** [select_all] *)
Definition select_all : M unit := catch_all (select_files DateTime.min).

(** [select_new] *)
Definition select_new : M unit :=
  catch_all
    (s <~ get ;;
     since <~
       (match source s with
        | Some _ =>
            section <~
              (match config_section s with
               | Some section => ret section
               | None => raise AttributeError
               end) ;;
            since <~ config_get section "last_transfer"
                       (DateTime.isoformat DateTime.min) ;;
            lift (DateTime.strptime since (19 <? Str.len since))
        | None => ret DateTime.min
        end) ;;
     select_files since).

(** [abort_copy]: test if user has stopped copy or quit program *)
Definition abort_copy (E : Env) : M bool :=
  s <~ get ;;
  let '(stop, hide) := user E (polls (world s)) in
  modify (fun s =>
            set_world (set_polls (S (polls (world s))) (world s))
              (set_ui (set_copy_button (copy_button (ui s) && negb stop)
                         (set_isVisible (isVisible (ui s) && negb hide)
                            (ui s))) s)) ;;;
  s <~ get ;;
  let abort := negb (copy_button (ui s) && isVisible (ui s)) in
  emit (Polled abort) ;;;
  ret abort.

(** [copy_selected]: the list [copy_list] and the loop over the generator,
    which is started when the loop asks for its first item.  [last_item]
    is the pair of the code, [None] or a destination path with a time
    stamp. *)
Fixpoint copy_list_of (file_data : list (string * FileData.t))
    (items : list Item) : result (list FileData.t) :=
  match items with
  | [] => Ok []
  | item :: items' =>
      if negb (selected item) then copy_list_of file_data items' else
      match Dict.get (data item) file_data with
      | None => Raise KeyError
      | Some d => l <- copy_list_of file_data items' ;; Ok (d :: l)
      end
  end.

Definition truthy (s : option string) : bool :=
  match s with
  | Some s => negb (String.eqb s "")
  | None => false
  end.

Fixpoint copy_loop (E : Env) (source : Source.t) (copy_list : list FileData.t)
    (last_item : option string * DateTime.t)
    : M (option string * DateTime.t) :=
  match copy_list with
  | [] => copy_files_end E source ;;; ret last_item
  | info :: copy_list' =>
      item <~ copy_file E source info ;;
      match item with
      | None => _fail E ;;; ret last_item
      | Some item =>
          abort <~ abort_copy E ;;
          if abort then ret last_item else
          dest_path <~ lookup (FileData.dest_path item) ;;
          emit (Opened dest_path) ;;;
          abort <~ abort_copy E ;;
          if abort then ret last_item else
          let last_item :=
            if DateTime.ltb (snd last_item) (FileData.timestamp item)
            then (Some dest_path, FileData.timestamp item)
            else last_item in
          copy_loop E source copy_list' last_item
      end
  end.

Definition copy_selected (E : Env) : M unit :=
  catch_all
    (s <~ get ;;
     if import_in_progress s then
       (* user has clicked while import is still cancelling *)
       modify (fun s => set_ui (set_copy_button false (ui s)) s)
     else
       modify (set_import_in_progress true) ;;;
       copy_list <~ lift (copy_list_of (file_data s) (file_list_widget (ui s))) ;;
       let last_item := (None, DateTime.min) in
       source <~
         (match source s with
          | Some source => ret source
          | None => raise AttributeError
          end) ;;
       copy_files_begin E source ;;;
       last_item <~ copy_loop E source copy_list last_item ;;
       when (truthy (fst last_item))
         (s <~ get ;;
          section <~
            (match config_section s with
             | Some section => ret section
             | None => raise AttributeError
             end) ;;
          config_set section "last_transfer"
            (DateTime.isoformat (snd last_item)) ;;;
          emit (DoneOpening (default "" (fst last_item)))) ;;;
       show_file_list E ;;;
       modify (fun s => set_ui (set_copy_button false (ui s)) s) ;;;
       modify (set_import_in_progress false)).

(** [Importer.__init__]: the state before the final initialisation, and
    the final initialisation; [pictures] is the directory of the user's
    pictures. *)
Definition blank : t :=
  {| format_string := None;
     example := None;
     file_data := [];
     file_list := [];
     source := None;
     config_section := None;
     import_in_progress := false;
     ui := {| entries := []; currentIndex := -1; signalsBlocked := false;
              path_format := ""; path_example := ""; file_list_widget := [];
              copy_button := false; isVisible := true |};
     world := {| files := ∅; dirs := ∅; config_store := ∅; log := [];
                 trace := []; polls := O; list_files_timer := false |} |}.

Definition __init__ (E : Env) (pictures : string) : M unit :=
  path_format_setText E
    (Path.join (Path.join (Path.join pictures "%Y") "%Y_%m_%d") "{name}") ;;;
  refresh E ;;;
  list_files E.

(** *** What the user does *)

(** The user chooses an item of the source selector. *)
Definition choose_source (E : Env) (idx : Z) : M unit := setCurrentIndex E idx.

(** The user selects the items of the given names in the file list. *)
Definition click_items (names : list string) : M unit :=
  modify (fun s =>
            set_ui (set_file_list_widget
                      (map (fun i =>
                              if selectable i
                                 && existsb (String.eqb (data i)) names
                              then setSelected true i else i)
                           (file_list_widget (ui s))) (ui s)) s).


End Importer.

(** ** Notions used to state the properties of [Importer] *)

Module ImporterSpec.
Import Py Importer.

(** A method leaves a part [f] of the state as it is. *)
Definition preserves {X A : Type} (f : t -> X) (m : M A) : Prop :=
  forall s, f (snd (m s)) = f s.

(** A method keeps a property of the state. *)
Definition keeps {A : Type} (I : t -> Prop) (m : M A) : Prop :=
  forall s, I s -> I (snd (m s)).

(** A part of the state that does not depend on the exceptions that
    [catch_all] logs. *)
Definition log_free {X} (f : t -> X) : Prop :=
  forall e s, f (set_log' (fun l => (l ++ [Exception e])%list) s) = f s.

(** The records that [logger.error] has written. *)
Definition is_error (r : LogRecord) : bool :=
  match r with
  | Error _ => true
  | Exception _ => false
  end.

Definition errors (s : t) : list LogRecord :=
  List.filter is_error (log (world s)).

(** The calls made, and the index of the source selector. *)
Definition calls (s : t) : list Event := trace (world s).
Definition index (s : t) : Z := currentIndex (ui s).


(** The directories after [os.makedirs(name)]: those there were, and
    directories whose path begins the name, [name] and those above it. *)
Definition made_for (name : string) (s : t) (D : gset string) : Prop :=
  dirs (world s) ⊆ D /\
  forall p, p ∈ D -> p ∈ dirs (world s) \/ String.prefix p name = true.

(** The calls of the loop of [copy_selected]: rounds of a file copied, a
    poll, the file opened, a poll; the loop ends after a round, or within a
    round when a poll says so (or by an exception). *)
Inductive loop_calls : list Event -> Prop :=
| loop_end : loop_calls []
| loop_stop_1 d : loop_calls [Copied d; Polled true]
| loop_raise d : loop_calls [Copied d; Polled false]
| loop_stop_2 d p : loop_calls [Copied d; Polled false; Opened p; Polled true]
| loop_round d p l :
    loop_calls l ->
    loop_calls (Copied d :: Polled false :: Opened p :: Polled false :: l).

(** A file copied is followed by a poll, and a poll that says to stop by
    no copy and no [open_file]. *)
Definition no_copy_no_open (e : Event) : Prop :=
  match e with
  | Copied _ | Opened _ => False
  | _ => True
  end.

Fixpoint polled (l : list Event) : Prop :=
  match l with
  | [] => True
  | Copied _ :: l' =>
      match l' with Polled _ :: _ => True | _ => False end /\ polled l'
  | _ :: l' => polled l'
  end.

Fixpoint stopped (l : list Event) : Prop :=
  match l with
  | [] => True
  | Polled true :: l' => Forall no_copy_no_open l'
  | _ :: l' => stopped l'
  end.





(** The time stamp of the entry an item stands for is later than [since]. *)
Definition newer (s : t) (since : DateTime.t) (item : Item) : bool :=
  match Dict.get (data item) (file_data s) with
  | Some info => DateTime.ltb since (FileData.timestamp info)
  | None => false
  end.

(** What [select_files] does to an item that can be selected. *)
Definition mark (s : t) (since : DateTime.t) (item : Item) : Item :=
  if selectable item && newer s since item
  then setSelected true item else item.

End ImporterSpec.

(** ** An import used as example *)

Module ImporterExample.
Import Py Importer.

Definition march (day hour : Z) : DateTime.t :=
  {| DateTime.year := 2019; DateTime.month := 3; DateTime.day := day;
     DateTime.hour := hour; DateTime.minute := 0; DateTime.second := 0;
     DateTime.microsecond := 0 |}.

(** A memory card mounted at [/sd] with three pictures and a text file; no
    camera library.  [stop n] tells whether the user releases the button
    [Copy photos] before the [n]th call of [abort_copy]. *)
Definition sd_card (stop : nat -> bool) : Env :=
  {| rt := Format.strings_only;
     user := fun n => (stop n, false);
     now := march 1 0;
     eval_bool := fun s =>
       if String.eqb s "True" then Ok true
       else if String.eqb s "False" then Ok false
       else Raise ValueError;
     eval_list := fun s => if String.eqb s "[]" then Ok [] else Ok ["/sd"];
     types_lower := ["jpg"];
     walk := fun root => [(root, ["a.jpg"; "b.JPG"; "c.jpg"; "d.txt"])];
     metadata := fun p =>
       {| date_taken :=
            Some (if String.eqb p "/sd/a.jpg" then march 5 10
                  else if String.eqb p "/sd/b.JPG" then march 6 11
                  else march 7 12);
          date_digitised := None;
          date_modified := None;
          camera_model := Some "My Cam" |};
     getmtime := fun _ => march 1 0;
     gp := false;
     autodetect := [];
     camera_init := fun _ => Raise GPhoto2Error;
     camera_exit := Ok tt;
     camera_files := None;
     camera_mtime := fun _ _ => None;
     camera_error := fun _ _ => None;
     add_folder := ret tt |}.

Definition never : nat -> bool := fun _ => false.

(** The program starts with the folder [/sd] among the folders of the
    configuration. *)
Definition start : t :=
  set_world
    (set_config_store (<[("importer", "folders") := "['/sd']"]> ∅)
       (set_dirs {[ "/"; "/sd" ]}
          (set_files {[ "/sd/a.jpg"; "/sd/b.JPG"; "/sd/c.jpg" ]}
             (world blank))))
    blank.

(** The user chooses the folder. *)
Definition chosen (stop : nat -> bool) : t :=
  snd ((__init__ (sd_card stop) "/home/u/Pictures" ;;;
        choose_source (sd_card stop) 1) start).

(** The files are listed, and the user selects the first two pictures and
    presses the button [Copy photos]. *)
Definition pressed (stop : nat -> bool) : t :=
  let s :=
    snd ((list_files (sd_card stop) ;;;
          click_items ["a.jpg"; "b.JPG"]) (chosen stop)) in
  set_ui (set_copy_button true (ui s)) s.




(** The entry of the first picture in the file list. *)
Definition picture_a : FileData.t :=
  {| FileData.camera := Some "My Cam";
     FileData.path := Some "/sd/a.jpg";
     FileData.folder := None;
     FileData.name := "a.jpg";
     FileData.timestamp := march 5 10;
     FileData.dest_path := Some "/home/u/Pictures/2019/2019_03_05/a.jpg" |}.

(** The card is taken out: after the source was chosen, and after the
    button was pressed. *)
Definition unplug (s : t) : t :=
  set_world (set_dirs ∅ (set_files ∅ (world s))) s.

End ImporterExample.

(** ** [importer.py]: the listings of the sources, and [do_not_close] *)

Module Listing.
Import Py Importer.

(** [FolderSource.get_file_data]: the list [file_list] of the image files
    that [os.walk] finds, and the entry made for a path. *)
Definition found (E : Env) (root : string) : list string :=
  flat_map
    (fun '(root, files) =>
       flat_map
         (fun name =>
            let '(base, ext) := Path.splitext name in
            if existsb (String.eqb (Str.lower ext))
                 (map (fun x => "." ++ x) (types_lower E))
            then [Path.join root name] else [])
         files)
    (walk E root).

Definition folder_entry (E : Env) (path : string) : FileData.t :=
  {| FileData.camera := camera_model (metadata E path);
     FileData.path := Some path;
     FileData.folder := None;
     FileData.name := Path.basename path;
     FileData.timestamp := timestamp_of E path;
     FileData.dest_path := None |}.

(** [CameraSource.get_file_data]: the entry made for a path of the camera
    with the time stamp read for it. *)
Definition camera_entry (model path : string) (timestamp : DateTime.t)
    : FileData.t :=
  {| FileData.camera := Some model;
     FileData.path := None;
     FileData.folder := Some (fst (Path.split path));
     FileData.name := snd (Path.split path);
     FileData.timestamp := timestamp;
     FileData.dest_path := None |}.

(** The buttons of the message box of [do_not_close]. *)
Inductive CloseButton : Type := Close | Cancel.

(** [do_not_close]: whether the dialog is shown, and the value returned;
    [answer] is what the user chooses if it is shown. *)
Definition do_not_close (answer : CloseButton) (s : t) : bool * bool :=
  if negb (import_in_progress s) then (false, false)
  else (true, match answer with Cancel => true | Close => false end).

End Listing.
(** ** Properties of [ThumbsLayout._do_layout] *)

Section ThumbsLayoutProofs.
Import Py ThumbsLayout.

Lemma c_int_fits v : fits_int v = true -> c_int v = Ok v.
Proof. unfold c_int. now intros ->. Qed.


Lemma place_items_spec x0 y0 item_w item_h columns item_size items :
  0 < columns ->
  forall n, 0 <= n ->
  (forall k : nat, (k < length items)%nat ->
     fits_int (x0 + ((n + Z.of_nat k) mod columns) * item_w) = true /\
     fits_int (y0 + ((n + Z.of_nat k) / columns) * item_h) = true) ->
  exists rs,
    place_items x0 y0 item_w item_h columns item_size n items = Ok rs /\
    length rs = length items /\
    forall k : nat, (k < length items)%nat ->
      nth_error rs k =
      Some {| topLeft := {| x := x0 + ((n + Z.of_nat k) mod columns) * item_w;
                            y := y0 + ((n + Z.of_nat k) / columns) * item_h |};
              size := item_size |}.
Proof.
  intros Hc. induction items as [|it items IH]; intros n Hn Hfit.
  - exists []. repeat split; simpl; intros; lia.
  - destruct (IH (n + 1)) as (rs & Hrs & Hlen & Hnth); [lia| |].
    { intros k Hk.
      replace (n + 1 + Z.of_nat k) with (n + Z.of_nat (S k)) by lia.
      apply Hfit. simpl. lia. }
    destruct (Hfit O) as [Hx Hy]; [simpl; lia|].
    rewrite Z.add_0_r in Hx, Hy.
    eexists. cbn [place_items]. unfold pymod, floordiv.
    destruct (Z.eqb_spec columns 0) as [->|_]; [lia|].
    cbn [bind]. rewrite (c_int_fits _ Hx), (c_int_fits _ Hy). cbn [bind].
    rewrite Hrs. cbn [bind]. split; [reflexivity|].
    split; [simpl; congruence|].
    intros [|k] Hk.
    + simpl. rewrite Z.add_0_r. reflexivity.
    + cbn [nth_error]. rewrite Hnth by (simpl in Hk; lia).
      replace (n + 1 + Z.of_nat k) with (n + Z.of_nat (S k)) by lia.
      reflexivity.
Qed.


(** The number of columns and rows of the grid. *)
Lemma grid_shape (N C0 : Z) (multi : bool) :
  1 <= N ->
  let C := if multi then Z.max C0 1 else N in
  let R := if multi then (N + C - 1) / C else 1 in
  1 <= C /\ C * (R - 1) < N <= C * R.
Proof.
  intros HN C R.
  assert (HC : 1 <= C) by (subst C; destruct multi; lia).
  split; [exact HC|].
  subst R. destruct multi eqn:Hm.
  - pose proof (Z.div_mod (N + C - 1) C ltac:(lia)) as Hdm.
    pose proof (Z.mod_pos_bound (N + C - 1) C ltac:(lia)) as Hb.
    nia.
  - subst C. lia.
Qed.

(** [_do_layout] for a list that is not empty, and a cell width that is
    not zero if there are several rows: the size hint is made, then the
    cells are placed. *)
Lemma do_layout_unfold (m : Margins) (cell : QSize) (rest : list QSize)
    (vp : QSize) (origin : QPoint) :
  ((height vp - (top m + bottom m) >? height cell) = true ->
   width cell <> 0) ->
  let N := Z.of_nat (length (cell :: rest)) in
  let multi := height vp - (top m + bottom m) >? height cell in
  let C := if multi
           then Z.max ((width vp - (left m + right m)) / width cell) 1
           else N in
  let R := if multi then (N + C - 1) / C else 1 in
  _do_layout {| item_list := cell :: rest; viewport_size := vp; margins := m |}
    origin
  = (w <- c_int (left m + right m + C * width cell) ;;
     h <- c_int (top m + bottom m + R * height cell) ;;
     rects <- place_items (x origin + left m) (y origin + top m)
                (width cell) (height cell) C cell 0 (cell :: rest) ;;
     Ok {| size_hint := {| width := w; height := h |};
           geometry := rects;
           set_multi_row := Some multi |}).
Proof.
  intros Hw N multi C R.
  unfold _do_layout. cbn [item_list viewport_size margins].
  fold N. fold multi. fold multi in Hw. subst C R. destruct multi.
  - specialize (Hw eq_refl). unfold floordiv at 1.
    destruct (Z.eqb_spec (width cell) 0) as [?|_]; [contradiction|].
    cbn [bind]. unfold floordiv at 1.
    destruct (Z.eqb_spec
                (Z.max ((width vp - (left m + right m)) / width cell) 1) 0)
      as [?|_]; [lia|].
    reflexivity.
  - reflexivity.
Qed.




End ThumbsLayoutProofs.

(** ** Properties of [Image.regenerate_thumbnail] *)

Section ImageProofs.
Import Py Image.

Variable tk : Toolkit.

(** [int(0.5 + float(a) / b)] in integer arithmetic. *)
Lemma round_div_4 a : 0 <= a -> round_div a 4 = (2 * a + 4) / 8.
Proof.
  intros Ha. unfold round_div, py_int.
  assert (Hq : Qplus (1 # 2) (Qdiv (inject_Z a) (inject_Z 4))
               = Qmake (1 * 4 + a * 1 * 2) 8) by reflexivity.
  rewrite Hq.
  assert (Hle : Qle_bool 0 (Qmake (1 * 4 + a * 1 * 2) 8) = true).
  { apply Qle_bool_iff. unfold Qle. simpl. lia. }
  rewrite Hle. unfold Qfloor. f_equal. lia.
Qed.

Lemma round_div_3 a : 0 <= a -> round_div a 3 = (2 * a + 3) / 6.
Proof.
  intros Ha. unfold round_div, py_int.
  assert (Hq : Qplus (1 # 2) (Qdiv (inject_Z a) (inject_Z 3))
               = Qmake (1 * 3 + a * 1 * 2) 6) by reflexivity.
  rewrite Hq.
  assert (Hle : Qle_bool 0 (Qmake (1 * 3 + a * 1 * 2) 6) = true).
  { apply Qle_bool_iff. unfold Qle. simpl. lia. }
  rewrite Hle. unfold Qfloor. f_equal. lia.
Qed.

(** round (3 n / 4) and round (4 n / 3), with round x = floor (x + 1/2). *)
Lemma round_three_quarters n : 0 <= n -> round_div (n * 3) 4 = (3 * n + 2) / 4.
Proof.
  intros Hn. rewrite round_div_4 by lia.
  replace (2 * (n * 3) + 4) with (2 * (3 * n + 2)) by lia.
  replace 8 with (2 * 4) by lia.
  apply Z.div_mul_cancel_l; lia.
Qed.

Lemma round_four_thirds n : 0 <= n -> round_div (n * 4) 3 = (8 * n + 3) / 6.
Proof.
  intros Hn. rewrite round_div_3 by lia. f_equal. lia.
Qed.

Lemma isNull_false im : isNull im = false -> 0 < width im /\ 0 < height im.
Proof. unfold isNull. intros H. apply orb_false_elim in H. lia. Qed.

Lemma read_image_data_not_null decoded video self qt_im :
  read_image_data decoded video self = Some qt_im -> isNull qt_im = false.
Proof.
  unfold read_image_data.
  destruct (startswith (file_type self) "video" && isNull decoded).
  - destruct (get_video_frame video) as [f|]; [|discriminate].
    destruct (isNull f) eqn:Hf; [discriminate|]. now intros [= <-].
  - destruct (isNull decoded) eqn:Hd; [discriminate|]. now intros [= <-].
Qed.

Lemma read_image_data_readable decoded video self :
  readable decoded video self = true <->
  exists qt_im, read_image_data decoded video self = Some qt_im.
Proof.
  unfold readable, read_image_data.
  destruct (isNull decoded) eqn:Hd; cbn [negb orb andb].
  - destruct (startswith (file_type self) "video"); cbn [andb].
    + destruct (get_video_frame video) as [f|].
      * destruct (isNull f); cbn [negb]; split; eauto; try discriminate.
        intros [? [=]].
      * split; [discriminate|]. intros [? [=]].
    + rewrite Hd. split; [discriminate|]. intros [? [=]].
  - rewrite andb_false_r, Hd. split; eauto.
Qed.

(** C8.  When the image data cannot be read, [regenerate_thumbnail] logs
    one error and returns the object as it was, in particular with the
    thumbnail of its metadata unchanged.  When it can be read, the picture
    is padded and encoded: if the encoding returns its data, nothing is
    logged and the data are stored as the thumbnail; if it raises, the
    exception is logged and the object stays as it was.  So the stored
    thumbnail differs from the old one only if the image was decoded. *)
Theorem regenerate_thumbnail_unreadable (decoded : QImage) (video : Video)
    (self : t) (log : list LogRecord) :
  let after := regenerate_thumbnail tk decoded video self log in
  (readable decoded video self = false ->
     after = (self, (log ++ [cannot_read self])%list)) /\
  (readable decoded video self = true ->
     exists qt_im,
       read_image_data decoded video self = Some qt_im /\
       let padded := pad_4_3 (reorient_and_shrink tk self qt_im) in
       let tw := fst (snd padded) in
       let th := snd (snd padded) in
       match scale_and_save tk (fst padded) tw th "JPEG" with
       | Ok data =>
           snd after = log /\
           thumbnail (metadata (fst after))
           = Some {| data := data; fmt := "JPEG"; w := tw; h := th |}
       | Raise e => after = (self, (log ++ [Exception e])%list)
       end) /\
  (thumbnail (metadata (fst after)) <> thumbnail (metadata self) ->
     readable decoded video self = true).
Proof.
  intros after.
  assert (H1 : readable decoded video self = false ->
               after = (self, (log ++ [cannot_read self])%list)).
  { intros Hr. subst after. unfold regenerate_thumbnail.
    destruct (read_image_data decoded video self) as [im|] eqn:Him;
      [|reflexivity].
    assert (readable decoded video self = true)
      by (apply read_image_data_readable; eauto).
    congruence. }
  split; [exact H1|]. split.
  - intros Hr. apply read_image_data_readable in Hr as [im Him].
    exists im. split; [exact Him|].
    subst after. unfold regenerate_thumbnail. rewrite Him.
    destruct (pad_4_3 (reorient_and_shrink tk self im)) as [P [tw th]].
    cbn [fst snd].
    destruct (scale_and_save tk P tw th "JPEG") as [data|e]; [|reflexivity].
    cbn [fst snd]. split; [reflexivity|].
    unfold load_thumbnail.
    match goal with |- context [if ?c then _ else _] => destruct c end;
      reflexivity.
  - intros Hne. destruct (readable decoded video self) eqn:Hr; [reflexivity|].
    rewrite (H1 eq_refl) in Hne. now contradiction Hne.
Qed.

Lemma pad_4_3_landscape src :
  height src <= width src ->
  pad_4_3 src =
  (let w := width src in
   let h := height src in
   let new_h := round_div (w * 3) 4 in
   let new_w := round_div (h * 4) 3 in
   if new_h >? h then copy src 0 (- ((new_h - h) / 2)) w new_h
   else if new_w >? w then copy src (- ((new_w - w) / 2)) 0 new_w h
   else src,
   (160, 120)).
Proof.
  intros H. unfold pad_4_3.
  destruct (Z.geb_spec (width src) (height src)); [reflexivity|lia].
Qed.

Lemma pad_4_3_portrait src :
  width src < height src ->
  pad_4_3 src =
  (let w := width src in
   let h := height src in
   let new_h := round_div (w * 4) 3 in
   let new_w := round_div (h * 3) 4 in
   if new_w >? w then copy src (- ((new_w - w) / 2)) 0 new_w h
   else if new_h >? h then copy src 0 (- ((new_h - h) / 2)) w new_h
   else src,
   (120, 160)).
Proof.
  intros H. unfold pad_4_3.
  destruct (Z.geb_spec (width src) (height src)); [lia|reflexivity].
Qed.

(** X22.  The padding of [regenerate_thumbnail].  Let [src], of width [w]
    and height [h], be the image read, after the orientation correction and
    the pre-shrink, let it not be null, and let round x = floor (x + 1/2).

    - If [w >= h] the thumbnail is 160 by 120: when round (3w/4) > h rows
      are added up to the height round (3w/4); otherwise, when
      round (4h/3) > w, columns are added up to the width round (4h/3);
      otherwise the picture is left as it is.
    - If [h > w] the thumbnail is 120 by 160 and the roles of [w] and [h]
      are exchanged: when round (3h/4) > w columns are added up to the
      width round (3h/4); otherwise, when round (4w/3) > h, rows are added
      up to the height round (4w/3); otherwise the picture is left as it is.
    - The picture is centred: of the [d] rows or columns added, [d div 2]
      come before it.  The padded picture has the aspect ratio 4:3, or
      3:4, up to the rounding.
    - When the encoder returns the data of the padded picture scaled to
      the thumbnail size, they are stored with that size as the
      thumbnail. *)
Theorem regenerate_thumbnail_pads (decoded : QImage) (video : Video)
    (self : t) (log : list LogRecord) (qt_im : QImage) :
  read_image_data decoded video self = Some qt_im ->
  let src := reorient_and_shrink tk self qt_im in
  isNull src = false ->
  let w := width src in
  let h := height src in
  let padded := fst (pad_4_3 src) in
  let tw := fst (snd (pad_4_3 src)) in
  let th := snd (snd (pad_4_3 src)) in
  (forall data, scale_and_save tk padded tw th "JPEG" = Ok data ->
     thumbnail (metadata (fst (regenerate_thumbnail tk decoded video self log)))
     = Some {| data := data; fmt := "JPEG"; w := tw; h := th |}) /\
  (h <= w ->
     let new_h := (3 * w + 2) / 4 in
     let new_w := (8 * h + 3) / 6 in
     (tw, th) = (160, 120) /\
     round_div (w * 3) 4 = new_h /\ round_div (h * 4) 3 = new_w /\
     (h < new_h -> padded = copy src 0 (- ((new_h - h) / 2)) w new_h) /\
     (new_h <= h -> w < new_w ->
        padded = copy src (- ((new_w - w) / 2)) 0 new_w h) /\
     (new_h <= h -> new_w <= w -> padded = src) /\
     -2 <= 4 * height padded - 3 * width padded <= 2) /\
  (w < h ->
     let new_w := (3 * h + 2) / 4 in
     let new_h := (8 * w + 3) / 6 in
     (tw, th) = (120, 160) /\
     round_div (h * 3) 4 = new_w /\ round_div (w * 4) 3 = new_h /\
     (w < new_w -> padded = copy src (- ((new_w - w) / 2)) 0 new_w h) /\
     (new_w <= w -> h < new_h ->
        padded = copy src 0 (- ((new_h - h) / 2)) w new_h) /\
     (new_w <= w -> new_h <= h -> padded = src) /\
     -2 <= 4 * width padded - 3 * height padded <= 2).
Proof.
  intros Hread src Hnull w h padded tw th.
  apply isNull_false in Hnull as [Hw Hh]. fold w in Hw. fold h in Hh.
  split.
  - unfold regenerate_thumbnail. rewrite Hread. fold src.
    subst padded tw th. destruct (pad_4_3 src) as [P [tw th]].
    cbn [fst snd]. intros data ->. unfold load_thumbnail.
    match goal with |- context [if ?c then _ else _] => destruct c end;
      reflexivity.
  - split.
    + intros Hle new_h new_w.
      assert (E1 : round_div (w * 3) 4 = new_h)
        by (apply round_three_quarters; lia).
      assert (E2 : round_div (h * 4) 3 = new_w)
        by (apply round_four_thirds; lia).
      subst padded tw th. rewrite (pad_4_3_landscape src Hle).
      cbv zeta. fold w h. rewrite E1, E2. cbn [fst snd].
      assert (B1 : 4 * new_h <= 3 * w + 2 < 4 * new_h + 4).
      { subst new_h. pose proof (Z.div_mod (3 * w + 2) 4 ltac:(lia)).
        pose proof (Z.mod_pos_bound (3 * w + 2) 4 ltac:(lia)). lia. }
      assert (B2 : 6 * new_w <= 8 * h + 3 < 6 * new_w + 6).
      { subst new_w. pose proof (Z.div_mod (8 * h + 3) 6 ltac:(lia)).
        pose proof (Z.mod_pos_bound (8 * h + 3) 6 ltac:(lia)). lia. }
      repeat split; try reflexivity.
      * intros Hgt. destruct (Z.gtb_spec new_h h); [reflexivity|lia].
      * intros Hn Hgt. destruct (Z.gtb_spec new_h h); [lia|].
        destruct (Z.gtb_spec new_w w); [reflexivity|lia].
      * intros Hn Hn'. destruct (Z.gtb_spec new_h h); [lia|].
        destruct (Z.gtb_spec new_w w); [lia|reflexivity].
      * destruct (Z.gtb_spec new_h h); [cbn; lia|].
        destruct (Z.gtb_spec new_w w); [cbn; lia|fold w h; lia].
      * destruct (Z.gtb_spec new_h h); [cbn; lia|].
        destruct (Z.gtb_spec new_w w); [cbn; lia|fold w h; lia].
    + intros Hlt new_w new_h.
      assert (E1 : round_div (h * 3) 4 = new_w)
        by (apply round_three_quarters; lia).
      assert (E2 : round_div (w * 4) 3 = new_h)
        by (apply round_four_thirds; lia).
      subst padded tw th. rewrite (pad_4_3_portrait src Hlt).
      cbv zeta. fold w h. rewrite E1, E2. cbn [fst snd].
      assert (B1 : 4 * new_w <= 3 * h + 2 < 4 * new_w + 4).
      { subst new_w. pose proof (Z.div_mod (3 * h + 2) 4 ltac:(lia)).
        pose proof (Z.mod_pos_bound (3 * h + 2) 4 ltac:(lia)). lia. }
      assert (B2 : 6 * new_h <= 8 * w + 3 < 6 * new_h + 6).
      { subst new_h. pose proof (Z.div_mod (8 * w + 3) 6 ltac:(lia)).
        pose proof (Z.mod_pos_bound (8 * w + 3) 6 ltac:(lia)). lia. }
      repeat split; try reflexivity.
      * intros Hgt. destruct (Z.gtb_spec new_w w); [reflexivity|lia].
      * intros Hn Hgt. destruct (Z.gtb_spec new_w w); [lia|].
        destruct (Z.gtb_spec new_h h); [reflexivity|lia].
      * intros Hn Hn'. destruct (Z.gtb_spec new_w w); [lia|].
        destruct (Z.gtb_spec new_h h); [lia|reflexivity].
      * destruct (Z.gtb_spec new_w w); [cbn; lia|].
        destruct (Z.gtb_spec new_h h); [cbn; lia|fold w h; lia].
      * destruct (Z.gtb_spec new_w w); [cbn; lia|].
        destruct (Z.gtb_spec new_h h); [cbn; lia|fold w h; lia].
Qed.

End ImageProofs.

Section ImageExamples.
Import Py Image.

(** A JPEG file that Qt cannot read: the error is logged and the object,
    with its thumbnail, stays as it was. *)
Lemma regenerate_thumbnail_unreadable_witness :
  regenerate_thumbnail reference_toolkit null_pixmap no_video
    (jpeg_file 0 "/p/a.jpg") []
  = (jpeg_file 0 "/p/a.jpg", [cannot_read (jpeg_file 0 "/p/a.jpg")]).
Proof.
  exact (proj1 (regenerate_thumbnail_unreadable reference_toolkit null_pixmap
                  no_video (jpeg_file 0 "/p/a.jpg") [])
               eq_refl).
Defined.

(** A 400 by 200 picture is padded to 400 by 300, 50 rows above it. *)
Lemma regenerate_thumbnail_pads_witness :
  thumbnail (metadata (fst (regenerate_thumbnail reference_toolkit
                              (grey 400 200) no_video
                              (jpeg_file 0 "/p/a.jpg") [])))
  = Some {| data := "JPEG"; fmt := "JPEG"; w := 160; h := 120 |} /\
  fst (pad_4_3 (grey 400 200)) = copy (grey 400 200) 0 (-50) 400 300.
Proof.
  pose proof (regenerate_thumbnail_pads reference_toolkit (grey 400 200)
                no_video (jpeg_file 0 "/p/a.jpg") [] (grey 400 200)
                eq_refl eq_refl) as (Hth & Hland & _).
  split; [exact (Hth "JPEG" eq_refl)|].
  destruct (Hland ltac:(vm_compute; discriminate)) as (_ & _ & _ & Hrows & _).
  apply Hrows. vm_compute. reflexivity.
Defined.

(** C5 fails on a raw file that the camera held upright.  For a Canon raw
    file of 400 by 300 pixels with orientation 6, [transform] is called
    with [inverse] set and transposes the matrix, translation included:
    the matrix passed to Qt is not affine and is not the inverse of the
    one used for display.  Qt returns a null image for it, the picture is
    not padded, [PIL.open] raises, and no thumbnail is stored.  The same
    picture with orientation 3, or in a JPEG file, gets its thumbnail of
    160 by 120. *)
Lemma regenerate_thumbnail_raw_rotated :
  let picture := grey 400 300 in
  let self := raw_file 0 "/p/a.cr2" (Some 6) in
  (forall tk,
     transform tk picture (Some 6) false = transformed tk picture display_6 /\
     transform tk picture (Some 6) true = transformed tk picture inverse_6) /\
  is_affine inverse_6 = false /\
  mul inverse_6 display_6 <> identity /\
  read_image_data picture no_video self = Some picture /\
  isNull (reorient_and_shrink reference_toolkit self picture) = true /\
  regenerate_thumbnail reference_toolkit picture no_video self []
  = (self, [Exception OSError]) /\
  thumbnail (metadata self) = None /\
  thumbnail (metadata (fst (regenerate_thumbnail reference_toolkit picture
                              no_video (raw_file 0 "/p/a.cr2" (Some 3)) [])))
  = Some {| data := "JPEG"; fmt := "JPEG"; w := 160; h := 120 |} /\
  thumbnail (metadata (fst (regenerate_thumbnail reference_toolkit picture
                              no_video (jpeg_file 0 "/p/a.jpg") [])))
  = Some {| data := "JPEG"; fmt := "JPEG"; w := 160; h := 120 |}.
Proof.
  split; [intros tk; split; reflexivity|].
  split; [reflexivity|].
  split; [discriminate|].
  repeat split; vm_compute; reflexivity.
Qed.

End ImageExamples.

(** ** Properties of [ImageList] *)

Section ImageListProofs.
Import Py ImageList.

Variable tk : Image.Toolkit.

(** *** Opening files *)

Lemma find_path_None path l :
  find_path path l = None <-> ~ In path (paths l).
Proof.
  induction l as [|image l IH]; cbn [find_path paths map In].
  - tauto.
  - destruct (String.eqb_spec (Image.path image) path) as [E|E].
    + split; [discriminate|]. intros H. exfalso. apply H. now left.
    + rewrite IH. unfold paths. tauto.
Qed.

Lemma find_path_Some path l image :
  find_path path l = Some image -> In image l /\ Image.path image = path.
Proof.
  induction l as [|image' l IH]; cbn [find_path]; [discriminate|].
  destruct (String.eqb_spec (Image.path image') path) as [E|E].
  - intros [= <-]. split; [now left|assumption].
  - intros H. destruct (IH H). split; [now right|assumption].
Qed.

Lemma load_thumbnail_path image :
  Image.path (Image.load_thumbnail tk image) = Image.path image.
Proof.
  unfold Image.load_thumbnail.
  match goal with |- context [if ?c then _ else _] => destruct c end;
    reflexivity.
Qed.

Lemma open_file_cases os path self :
  let p := abspath os path in
  (isfile os p = true /\ ~ In p (paths (images self)) /\
   exists image, Image.path image = p /\
                 images (open_file tk os path self) = (images self ++ [image])%list)
  \/
  ((isfile os p = false \/ In p (paths (images self))) /\
   open_file tk os path self = self).
Proof.
  intros p. unfold open_file. fold p.
  destruct (isfile os p) eqn:Hf; cbn [negb]; [|right; auto].
  unfold get_image.
  destruct (find_path p (images self)) as [image|] eqn:Hg.
  - right. split; [|reflexivity]. right.
    apply find_path_Some in Hg as [Hin <-]. now apply in_map.
  - left. split; [reflexivity|]. split; [now apply find_path_None|].
    eexists. split; [|cbn [images]; reflexivity].
    unfold show_thumbnail. now rewrite load_thumbnail_path.
Qed.

Lemma open_file_NoDup os path self :
  NoDup (paths (images self)) ->
  NoDup (paths (images (open_file tk os path self))).
Proof.
  intros Hnd.
  destruct (open_file_cases os path self)
    as [(_ & Hnin & image & Hp & ->)|(_ & ->)]; [|assumption].
  unfold paths. rewrite map_app. cbn [map]. rewrite Hp.
  apply NoDup_app; repeat split; try assumption.
  - intros x Hx Hx'. apply list_elem_of_In in Hx, Hx'.
    destruct Hx' as [<-|[]]. contradiction.
  - apply NoDup_singleton.
Qed.

(** C3.  Whatever the sequence of [open_file] calls, made on a list without
    two images of the same path (the empty list of a new [ImageList] is
    one), no two images of the list have the same absolute path; a call for
    a path that is not an existing file, or that is the path of an image of
    the list, leaves the [ImageList] as it is. *)
Theorem open_file_unique_paths :
  (forall (calls : list (Os * string)) (self : t),
     NoDup (paths (images self)) ->
     NoDup (paths (images (open_files tk calls self)))) /\
  (forall (calls : list (Os * string)) (thumb_size : Z),
     NoDup (paths (images (open_files tk calls (init thumb_size))))) /\
  (forall (os : Os) (path : string) (self : t),
     isfile os (abspath os path) = false ->
     open_file tk os path self = self) /\
  (forall (os : Os) (path : string) (self : t),
     In (abspath os path) (paths (images self)) ->
     open_file tk os path self = self).
Proof.
  assert (H : forall (calls : list (Os * string)) (self : t),
             NoDup (paths (images self)) ->
             NoDup (paths (images (open_files tk calls self)))).
  { induction calls as [|[os path] calls IH]; intros self Hnd; cbn.
    - assumption.
    - apply IH, open_file_NoDup, Hnd. }
  split; [exact H|]. split; [|split].
  - intros calls thumb_size. apply H. cbn. apply NoDup_nil_2.
  - intros os path self Hf.
    destruct (open_file_cases os path self)
      as [(Hf' & _)|(_ & ->)]; [congruence|reflexivity].
  - intros os path self Hin.
    destruct (open_file_cases os path self)
      as [(_ & Hnin & _)|(_ & ->)]; [contradiction|reflexivity].
Qed.

(** *** Selection *)

Lemma set_selected_idents ident value l :
  idents (set_selected ident value l) = idents l.
Proof.
  unfold idents, set_selected. rewrite map_map. apply map_ext.
  intros image. now destruct (Nat.eqb (Image.ident image) ident).
Qed.

Lemma set_selected_length ident value l :
  length (set_selected ident value l) = length l.
Proof. unfold set_selected. now rewrite length_map. Qed.

Lemma NoDup_idents_nth l i j a b :
  NoDup (idents l) ->
  nth_error l i = Some a -> nth_error l j = Some b ->
  Image.ident a = Image.ident b -> i = j.
Proof.
  intros Hnd Ha Hb E.
  apply (proj1 (List.NoDup_nth_error (idents l)) (proj1 (NoDup_ListNoDup _) Hnd)).
  - unfold idents. rewrite length_map. apply nth_error_Some. congruence.
  - unfold idents. rewrite !nth_error_map, Ha, Hb. cbn. congruence.
Qed.

(** With distinct identities, [images[k].set_selected(value)] changes the
    entry [k] and no other. *)
Lemma set_selected_nth l k image_k value :
  NoDup (idents l) ->
  nth_error l k = Some image_k ->
  forall i image, nth_error l i = Some image ->
    nth_error (set_selected (Image.ident image_k) value l) i =
    Some (if Nat.eqb i k then Image.set_selected image value else image).
Proof.
  intros Hnd Hk i image Hi. unfold set_selected.
  rewrite nth_error_map, Hi. cbn [option_map]. f_equal.
  destruct (Nat.eqb_spec (Image.ident image) (Image.ident image_k)) as [E|E].
  - rewrite (NoDup_idents_nth l i k image image_k Hnd Hi Hk E).
    now rewrite Nat.eqb_refl.
  - destruct (Nat.eqb_spec i k) as [->|_]; [congruence|reflexivity].
Qed.

(** The effect of a loop [for i in range(lo, lo + n)] of [set_selected]
    calls: the entries of the range get the value, the others stay. *)

Ltac case_leb :=
  repeat match goal with
         | |- context [Z.leb ?a ?b] => destruct (Z.leb_spec a b)
         end;
  cbn [andb]; try reflexivity; try lia.

Lemma set_range_spec value n :
  forall lo l,
    NoDup (idents l) -> 0 <= lo -> lo + Z.of_nat n <= Z.of_nat (length l) ->
    exists l',
      set_range value lo n l = Ok l' /\
      idents l' = idents l /\
      forall (i : nat) image, nth_error l i = Some image ->
        nth_error l' i =
        Some (if in_range lo (lo + Z.of_nat n - 1) (Z.of_nat i)
              then Image.set_selected image value else image).
Proof.
  induction n as [|n IH]; intros lo l Hnd Hlo Hhi.
  - exists l. split; [reflexivity|]. split; [reflexivity|].
    intros i image Hi. rewrite Hi. f_equal. unfold in_range. case_leb.
  - cbn [set_range]. unfold item.
    destruct (nth_error l (Z.to_nat lo)) as [image_lo|] eqn:Hlo'.
    2:{ apply nth_error_None in Hlo'. lia. }
    cbn [bind].
    destruct (IH (lo + 1) (set_selected (Image.ident image_lo) value l))
      as (l' & Hl' & Hid & Hnth).
    + now rewrite set_selected_idents.
    + lia.
    + rewrite set_selected_length. lia.
    + exists l'. split; [exact Hl'|]. split.
      * now rewrite Hid, set_selected_idents.
      * intros i image Hi.
        rewrite (Hnth i _ (set_selected_nth l (Z.to_nat lo) image_lo value
                             Hnd Hlo' i image Hi)).
        f_equal. unfold in_range.
        destruct (Nat.eqb_spec i (Z.to_nat lo)) as [->|Hne].
        -- rewrite Z2Nat.id by lia. case_leb.
        -- case_leb.
Qed.

Lemma set_selected_range_spec value idx1 idx2 l :
  NoDup (idents l) ->
  0 <= idx1 < Z.of_nat (length l) -> 0 <= idx2 < Z.of_nat (length l) ->
  exists l',
    set_selected_range value idx1 idx2 l = Ok l' /\
    idents l' = idents l /\
    forall (i : nat) image, nth_error l i = Some image ->
      nth_error l' i =
      Some (if in_range (Z.min idx1 idx2) (Z.max idx1 idx2) (Z.of_nat i)
            then Image.set_selected image value else image).
Proof.
  intros Hnd H1 H2. unfold set_selected_range.
  destruct (set_range_spec value
              (Z.to_nat (Z.max idx1 idx2 + 1 - Z.min idx1 idx2))
              (Z.min idx1 idx2) l Hnd)
    as (l' & Hl' & Hid & Hnth); [lia|lia|].
  exists l'. split; [exact Hl'|]. split; [exact Hid|].
  intros i image Hi. rewrite (Hnth i image Hi).
  replace (Z.min idx1 idx2
           + Z.of_nat (Z.to_nat (Z.max idx1 idx2 + 1 - Z.min idx1 idx2)) - 1)
    with (Z.max idx1 idx2) by lia.
  reflexivity.
Qed.

Lemma index_from_spec ident l :
  forall k j, index_from ident l k = Ok j ->
    k <= j < k + Z.of_nat (length l) /\
    exists image, nth_error l (Z.to_nat (j - k)) = Some image /\
                  Image.ident image = ident.
Proof.
  induction l as [|image l IH]; intros k j; cbn [index_from]; [discriminate|].
  destruct (Nat.eqb_spec (Image.ident image) ident) as [E|E].
  - intros [= <-]. split; [cbn [length]; lia|].
    exists image. rewrite Z.sub_diag. split; [reflexivity|assumption].
  - intros H. destruct (IH _ _ H) as (Hb & image' & Hn & Hi).
    split; [cbn [length]; lia|]. exists image'. split; [|assumption].
    replace (Z.to_nat (j - k)) with (S (Z.to_nat (j - (k + 1)))) by lia.
    exact Hn.
Qed.

Lemma index_spec l ident j :
  index l (Some ident) = Ok j ->
  0 <= j < Z.of_nat (length l) /\
  exists image, nth_error l (Z.to_nat j) = Some image /\
                Image.ident image = ident.
Proof.
  intros H. apply index_from_spec in H as (Hb & image & Hn & Hi).
  rewrite Z.sub_0_r in Hn. split; [lia|eauto].
Qed.

Lemma index_from_idents ident l l' :
  idents l' = idents l ->
  forall k, index_from ident l' k = index_from ident l k.
Proof.
  revert l'. induction l as [|image l IH]; intros [|image' l'] Hid k;
    try discriminate; [reflexivity|].
  injection Hid as Hh Ht. cbn [index_from]. rewrite Hh.
  destruct (Nat.eqb (Image.ident image) ident); [reflexivity|].
  now apply IH.
Qed.

Lemma set_selected_eta image :
  Image.set_selected image (Image.selected image) = image.
Proof. now destruct image. Qed.

Lemma set_selected_twice image a b :
  Image.set_selected (Image.set_selected image a) b = Image.set_selected image b.
Proof. reflexivity. Qed.

Lemma nth_error_ext_length {A} (l l' : list A) :
  (forall i x, nth_error l i = Some x -> exists y, nth_error l' i = Some y) ->
  (forall i y, nth_error l' i = Some y -> exists x, nth_error l i = Some x) ->
  length l = length l'.
Proof.
  intros H1 H2.
  destruct (Nat.lt_trichotomy (length l) (length l')) as [Hlt|[E|Hlt]];
    [|exact E|].
  - destruct (nth_error l' (length l)) as [y|] eqn:Hy.
    + destruct (H2 _ _ Hy) as [x Hx].
      assert (nth_error l (length l) = None) by (apply nth_error_None; lia).
      congruence.
    + apply nth_error_None in Hy. lia.
  - destruct (nth_error l (length l')) as [x|] eqn:Hx.
    + destruct (H1 _ _ Hx) as [y Hy].
      assert (nth_error l' (length l') = None) by (apply nth_error_None; lia).
      congruence.
    + apply nth_error_None in Hx. lia.
Qed.

Lemma idents_length l l' : idents l' = idents l -> length l' = length l.
Proof.
  intros H. apply (f_equal (@length nat)) in H. unfold idents in H.
  now rewrite !length_map in H.
Qed.

(** C10.  Let the selection of an [ImageList] be the range of indices
    between [selection_anchor] and [last_selected], both inclusive, and let
    [image] be one of its images.  Then [select_image(image,
    extend_selection=True)] returns; it clears the selection of the old
    range, after which no image is selected, and selects the range between
    the anchor and [image]: afterwards an image is selected if and only if
    its index is in that range, and nothing else of the images has changed;
    the anchor is the same and [last_selected] is [image]. *)
Theorem select_image_extend (self : t) (image anchor last : nat)
    (idx1 idx2 idx3 : Z) :
  NoDup (idents (images self)) ->
  selection_anchor self = Some anchor ->
  last_selected self = Some last ->
  index (images self) (Some anchor) = Ok idx1 ->
  index (images self) (Some last) = Ok idx2 ->
  index (images self) (Some image) = Ok idx3 ->
  (forall (i : nat) im, nth_error (images self) i = Some im ->
     Image.selected im
     = in_range (Z.min idx1 idx2) (Z.max idx1 idx2) (Z.of_nat i)) ->
  exists cleared self',
    set_selected_range false idx1 idx2 (images self) = Ok cleared /\
    (forall im, In im cleared -> Image.selected im = false) /\
    set_selected_range true idx1 idx3 cleared = Ok (images self') /\
    select_image self image true false = Ok self' /\
    selection_anchor self' = Some anchor /\
    last_selected self' = Some image /\
    length (images self') = length (images self) /\
    forall (i : nat) im, nth_error (images self) i = Some im ->
      nth_error (images self') i
      = Some (Image.set_selected im
                (in_range (Z.min idx1 idx3) (Z.max idx1 idx3) (Z.of_nat i))).
Proof.
  intros Hnd Ha Hl H1 H2 H3 Hsel.
  pose proof (index_spec _ _ _ H1) as (B1 & _).
  pose proof (index_spec _ _ _ H2) as (B2 & _).
  pose proof (index_spec _ _ _ H3) as (B3 & _).
  destruct (set_selected_range_spec false idx1 idx2 (images self) Hnd B1 B2)
    as (cleared & Hc & Hcid & Hcnth).
  assert (Hclen : length cleared = length (images self))
    by now apply idents_length.
  assert (Hcnth' : forall (i : nat) im, nth_error (images self) i = Some im ->
            nth_error cleared i = Some (Image.set_selected im false)).
  { intros i im Hi. rewrite (Hcnth i im Hi). f_equal.
    pose proof (Hsel i im Hi) as Hs.
    destruct (in_range (Z.min idx1 idx2) (Z.max idx1 idx2) (Z.of_nat i));
      [reflexivity|].
    now rewrite <- Hs, set_selected_eta. }
  destruct (set_selected_range_spec true idx1 idx3 cleared)
    as (final & Hf & Hfid & Hfnth).
  { now rewrite Hcid. }
  { lia. }
  { lia. }
  exists cleared.
  exists (emit_selection
            (set_last_selected (set_images self final) (Some image))).
  split; [exact Hc|]. split.
  { intros im Him. apply In_nth_error in Him as [i Hi].
    destruct (nth_error (images self) i) as [im0|] eqn:Hi0.
    - rewrite (Hcnth' i im0 Hi0) in Hi. now injection Hi as <-.
    - apply nth_error_None in Hi0.
      assert (nth_error cleared i = None) by (apply nth_error_None; lia).
      congruence. }
  split; [exact Hf|]. split.
  { unfold select_image. rewrite Ha, Hl. cbn [andb].
    rewrite bool_decide_eq_true_2 by eauto.
    rewrite H1. cbn [bind]. rewrite H2. cbn [bind].
    rewrite Hc. cbn [bind].
    unfold index in *. rewrite (index_from_idents image _ _ Hcid), H3.
    cbn [bind]. rewrite Hf. reflexivity. }
  split; [exact Ha|]. split; [reflexivity|]. split.
  { cbn [images emit_selection emit set_last_selected set_images].
    rewrite (idents_length _ _ Hfid). exact Hclen. }
  intros i im Hi.
  cbn [images emit_selection emit set_last_selected set_images].
  rewrite (Hfnth i _ (Hcnth' i im Hi)). f_equal.
  destruct (in_range (Z.min idx1 idx3) (Z.max idx1 idx3) (Z.of_nat i));
    reflexivity.
Qed.

(** *** Closing files *)

Lemma remove_app ident pre x l :
  ~ In ident (idents pre) -> Image.ident x = ident ->
  remove ident (pre ++ x :: l)%list = Ok (pre ++ l)%list.
Proof.
  intros Hnin Hx. induction pre as [|p pre IH]; cbn [remove app].
  - rewrite Hx, Nat.eqb_refl. reflexivity.
  - destruct (Nat.eqb_spec (Image.ident p) ident) as [E|E].
    + exfalso. apply Hnin. now left.
    + rewrite IH; [reflexivity|]. intros H. apply Hnin. now right.
Qed.

Lemma remove_all_filter (f : Image.t -> bool) l :
  forall pre,
    NoDup (idents (pre ++ l)%list) ->
    remove_all (filter f l) (pre ++ l)%list
    = Ok (pre ++ filter (fun x => negb (f x)) l)%list.
Proof.
  induction l as [|x l IH]; intros pre Hnd.
  - reflexivity.
  - assert (Hpre : ~ In (Image.ident x) (idents pre)).
    { unfold idents in *. rewrite map_app in Hnd. cbn [map] in Hnd.
      apply NoDup_app in Hnd as (_ & Hdis & _).
      intros Hin. apply (Hdis (Image.ident x)).
      - now apply list_elem_of_In.
      - now left. }
    assert (Hnd' : NoDup (idents ((pre ++ [x]) ++ l)%list))
      by now rewrite <- app_assoc.
    cbn [filter]. unfold filter. cbn [list_filter].
    destruct (decide (f x)) as [Hfx|Hfx].
    + cbn [remove_all]. rewrite (remove_app _ pre x l Hpre eq_refl).
      cbn [bind]. 
      destruct (decide (negb (f x))) as [Hn|_];
        [destruct (f x); contradiction|].
      apply IH.
      unfold idents in *. rewrite map_app in *. cbn [map] in Hnd.
      apply NoDup_app in Hnd as (Hp & Hdis & Hxl).
      apply NoDup_app. repeat split; try assumption.
      * intros y Hy Hy'. apply (Hdis y Hy). now right.
      * now apply NoDup_cons in Hxl as [_ Hxl].
    + destruct (decide (negb (f x))) as [_|Hn];
        [|destruct (f x); cbn in *; contradiction].
      specialize (IH (pre ++ [x])%list Hnd').
      rewrite <- !app_assoc in IH. exact IH.
Qed.

Lemma close_list_filter (all_files : bool) (self : t) :
  (if all_files then images self else get_selected_images self)
  = filter (closing all_files) (images self).
Proof.
  destruct all_files; [|reflexivity].
  induction (images self) as [|x l IH]; [reflexivity|].
  rewrite filter_cons_True by exact I. now rewrite <- IH.
Qed.

Lemma filter_nil_negb (f : Image.t -> bool) l :
  filter f l = [] -> filter (fun x => negb (f x)) l = l.
Proof.
  induction l as [|x l IH]; [reflexivity|].
  destruct (f x) eqn:Hf.
  - rewrite filter_cons_True by now rewrite Hf. discriminate.
  - rewrite filter_cons_False by now rewrite Hf.
    intros H. rewrite filter_cons_True by now rewrite Hf.
    now rewrite IH.
Qed.

Lemma index_from_In x l :
  In x l -> forall k, exists j, index_from (Image.ident x) l k = Ok j.
Proof.
  induction l as [|y l IH]; intros Hin k; [contradiction|].
  cbn [index_from].
  destruct (Nat.eqb (Image.ident y) (Image.ident x)) eqn:E; [eauto|].
  destruct Hin as [->|Hin]; [now rewrite Nat.eqb_refl in E|].
  now apply IH.
Qed.

Lemma clear_selection_idents l : idents (_clear_selection l) = idents l.
Proof.
  unfold idents, _clear_selection. rewrite map_map. apply map_ext.
  intros image. now destruct (Image.get_selected image).
Qed.

Lemma select_image_plain self image :
  select_image self image false false
  = Ok (emit_selection
          (set_last_selected
             (set_selection_anchor
                (set_images self
                   (set_selected image true (_clear_selection (images self))))
                (Some image))
             (Some image))).
Proof. reflexivity. Qed.

Lemma close_confirmed_spec (all_files : bool) (self : t) :
  NoDup (idents (images self)) ->
  exists self' evs,
    close_confirmed all_files self = Ok self' /\
    idents (images self')
    = idents (filter (fun im => negb (closing all_files im)) (images self)) /\
    events self' = (events self ++ evs)%list /\
    ~ In unsaved_data_dialog evs.
Proof.
  intros Hnd. unfold close_confirmed. rewrite close_list_filter.
  destruct (filter (closing all_files) (images self)) as [|first rest] eqn:Hcl.
  - exists self, []. split; [reflexivity|]. split.
    + now rewrite filter_nil_negb.
    + split; [now rewrite app_nil_r|tauto].
  - assert (Hin : In first (images self)).
    { apply list_elem_of_In.
      assert (H : first ∈ filter (closing all_files) (images self))
        by (rewrite Hcl; now left).
      now apply list_elem_of_filter in H as [_ H]. }
    destruct (index_from_In first _ Hin 0) as [idx Hidx].
    unfold index. rewrite Hidx. cbn [bind].
    rewrite <- Hcl.
    pose proof (remove_all_filter (closing all_files) (images self) [] Hnd)
      as Hrm.
    cbn [app] in Hrm. rewrite Hrm. clear Hrm.
    cbn [bind app images set_images].
    set (l' := filter (fun x => negb (closing all_files x)) (images self)).
    destruct ((0 <=? idx) && (idx <? Z.of_nat (length l'))) eqn:Hb.
    + unfold item. destruct (nth_error l' (Z.to_nat idx)) as [image|] eqn:Hn.
      2:{ apply nth_error_None in Hn. lia. }
      cbn [bind]. rewrite select_image_plain. cbn [bind].
      eexists _, [_; _]. split; [reflexivity|].
      cbn [images emit emit_selection set_last_selected set_selection_anchor
             set_images events].
      split; [now rewrite set_selected_idents, clear_selection_idents|].
      split; [now rewrite <- app_assoc|].
      intros [H|[H|[]]]; discriminate.
    + cbn [bind]. eexists _, [_; _]. split; [reflexivity|].
      cbn [images emit emit_selection set_last_selected set_selection_anchor
             set_images events].
      split; [reflexivity|]. split; [now rewrite <- app_assoc|].
      intros [H|[H|[]]]; discriminate.
Qed.

Lemma save_files_idents os self :
  idents (images (_save_files os self)) = idents (images self).
Proof.
  cbn. unfold idents. rewrite map_map. reflexivity.
Qed.

Lemma save_files_not_closing os (all_files : bool) (self : t) :
  idents (filter (fun im => negb (closing all_files im))
            (images (_save_files os self)))
  = idents (filter (fun im => negb (closing all_files im)) (images self)).
Proof.
  cbn [_save_files images emit set_images].
  induction (images self) as [|x l IH]; [reflexivity|].
  cbn [map].
  destruct (closing all_files x) eqn:Hx.
  - rewrite !filter_cons_False; [exact IH|now rewrite Hx|].
    change (closing all_files
              (Image.set_metadata x (save os (Image.metadata x))))
      with (closing all_files x).
    now rewrite Hx.
  - rewrite !filter_cons_True; [|now rewrite Hx|].
    + unfold idents in *. cbn [map]. now rewrite IH.
    + change (closing all_files
                (Image.set_metadata x (save os (Image.metadata x))))
        with (closing all_files x).
      now rewrite Hx.
Qed.

(** C7.  [close_files] returns, and a dialog is shown exactly when an image
    that the call is to close (every image, or every selected image) has
    unsaved metadata, before anything else is done.  If the user cancels
    the dialog nothing but the dialog has happened: the image list is
    unchanged.  Otherwise (nothing unsaved, or the answer is Save or
    Discard) the images to close are removed and the others stay, in their
    order.  So no image is removed unless nothing was unsaved or the answer
    was Save or Discard. *)
Theorem close_files_guarded (os : Os) (answer : StandardButton)
    (all_files : bool) (self : t) :
  NoDup (idents (images self)) ->
  exists self' evs,
    close_files os answer all_files self = Ok self' /\
    events self'
    = (events self
       ++ (if unsaved all_files self then [unsaved_data_dialog] else [])
       ++ evs)%list /\
    ~ In unsaved_data_dialog evs /\
    (unsaved all_files self = true -> answer = Cancel ->
       self' = emit self unsaved_data_dialog) /\
    (unsaved all_files self = false \/ answer <> Cancel ->
       idents (images self')
       = idents (filter (fun im => negb (closing all_files im))
                   (images self))) /\
    (idents (images self') <> idents (images self) ->
       unsaved all_files self = false \/ answer = Save \/ answer = Discard).
Proof.
  intros Hnd. unfold close_files, unsaved_files_dialog.
  fold (unsaved all_files self).
  destruct (unsaved all_files self) eqn:Hu; cbn [negb].
  - destruct answer.
    + (* Save *)
      destruct (close_confirmed_spec all_files
                  (_save_files os (emit self unsaved_data_dialog)))
        as (self' & evs & Hc & Hid & Hev & Hnin).
      { now rewrite save_files_idents. }
      cbn [negb]. exists self', (new_metadata
                      (existsb (fun image => Image.changed (Image.metadata image))
                         (images (_save_files os (emit self unsaved_data_dialog))))
                    :: evs).
      split; [exact Hc|]. split.
      { rewrite Hev. cbn [events _save_files emit set_images].
        now rewrite <- !app_assoc. }
      split; [intros [H|H]; [discriminate|contradiction]|].
      split; [discriminate|].
      split; [|auto].
      intros _. rewrite Hid.
      exact (save_files_not_closing os all_files
               (emit self unsaved_data_dialog)).
    + (* Cancel *)
      exists (emit self unsaved_data_dialog), []. cbn [negb].
      split; [reflexivity|]. split; [reflexivity|]. split; [tauto|].
      split; [reflexivity|]. split.
      * intros [H|H]; [discriminate|contradiction].
      * intros H. now contradiction H.
    + (* Discard *)
      destruct (close_confirmed_spec all_files (emit self unsaved_data_dialog))
        as (self' & evs & Hc & Hid & Hev & Hnin).
      { exact Hnd. }
      cbn [negb]. exists self', evs.
      split; [exact Hc|]. split.
      { rewrite Hev. cbn [events emit]. now rewrite <- !app_assoc. }
      split; [exact Hnin|]. split; [discriminate|]. split; [|auto].
      intros _. exact Hid.
  - destruct (close_confirmed_spec all_files self Hnd)
      as (self' & evs & Hc & Hid & Hev & Hnin).
    exists self', evs. split; [exact Hc|].
    split; [exact Hev|]. split; [exact Hnin|].
    split; [discriminate|]. split; [|auto].
    intros _. exact Hid.
Qed.

End ImageListProofs.

(** *** Examples *)

Section ImageListExamples.
Import Py ImageList ImageListExample.

(** The same file opened twice, and a second file: two images. *)
Lemma open_file_unique_paths_witness :
  NoDup (paths (images (open_files Image.reference_toolkit
                          [(jpeg_os, "/p/a.jpg"); (jpeg_os, "/p/a.jpg");
                           (jpeg_os, "/p/b.jpg")]
                          (init 80)))) /\
  open_file Image.reference_toolkit jpeg_os "/p/a.jpg" four_images
  = four_images.
Proof.
  destruct (open_file_unique_paths Image.reference_toolkit)
    as (_ & Hinit & _ & Hopen).
  split; [apply Hinit|].
  apply Hopen. cbn. auto.
Defined.

(** The selection from the second to the third image is extended to the
    fourth: the second, third and fourth image are selected. *)
Lemma select_image_extend_witness :
  exists self',
    select_image four_images 3 true false = Ok self' /\
    map Image.selected (images self') = [false; true; true; true] /\
    selection_anchor self' = Some 1%nat /\
    last_selected self' = Some 3%nat.
Proof.
  destruct (select_image_extend four_images 3 1 2 1 2 3)
    as (cleared & self' & _ & _ & _ & Hrun & Ha & Hl & Hlen & Hnth).
  - cbn. compute_done.
  - reflexivity.
  - reflexivity.
  - reflexivity.
  - reflexivity.
  - reflexivity.
  - intros i im H.
    destruct i as [|[|[|[|i]]]]; cbn in H;
      try (injection H as <-; reflexivity).
    destruct i; discriminate.
  - exists self'. split; [exact Hrun|]. split; [|split; assumption].
    destruct (images self') as [|a [|b [|c [|d [|e l]]]]]; try discriminate.
    pose proof (Hnth 0%nat _ eq_refl) as H0.
    pose proof (Hnth 1%nat _ eq_refl) as H1.
    pose proof (Hnth 2%nat _ eq_refl) as H2.
    pose proof (Hnth 3%nat _ eq_refl) as H3.
    cbn in H0, H1, H2, H3.
    injection H0 as ->. injection H1 as ->.
    injection H2 as ->. injection H3 as ->.
    reflexivity.
Defined.

(** The user cancels the dialog: nothing is closed. *)
Lemma close_files_guarded_witness :
  close_files jpeg_os Cancel true one_edited
  = Ok (emit one_edited unsaved_data_dialog).
Proof.
  destruct (close_files_guarded jpeg_os Cancel true one_edited)
    as (self' & evs & Hrun & _ & _ & Hcancel & _).
  - cbn. compute_done.
  - rewrite Hrun. f_equal. apply Hcancel; reflexivity.
Defined.

End ImageListExamples.

(** ** Properties of the [datetime] model *)

Section DateTimeProofs.
Import Py.

Lemma digit_spec n :
  0 <= n < 10 ->
  Str.is_digit (Str.digit n) = true /\ Str.digit_value (Str.digit n) = n.
Proof.
  intros Hn. rewrite <- (Z2Nat.id n) by lia.
  assert (Hk : (Z.to_nat n < 10)%nat) by lia.
  destruct (Z.to_nat n) as [|[|[|[|[|[|[|[|[|[|k]]]]]]]]]];
    try (split; reflexivity).
  lia.
Qed.

Lemma append_cons c s1 s2 : String c s1 ++ s2 = String c (s1 ++ s2).
Proof. reflexivity. Qed.

Lemma append_nil s : "" ++ s = s.
Proof. reflexivity. Qed.

Lemma length_append s1 s2 :
  String.length (s1 ++ s2) = (String.length s1 + String.length s2)%nat.
Proof.
  induction s1 as [|c s1 IH]; [reflexivity|].
  rewrite append_cons. cbn [String.length]. now rewrite IH.
Qed.

Lemma zero_padded_S w n :
  Str.zero_padded (S w) n
  = Str.zero_padded w (n / 10) ++ String (Str.digit (n mod 10)) EmptyString.
Proof. reflexivity. Qed.

Lemma zero_padded_2 n :
  Str.zero_padded 2 n
  = String (Str.digit (n / 10 mod 10)) (String (Str.digit (n mod 10)) "").
Proof. reflexivity. Qed.

Lemma zero_padded_4 n :
  Str.zero_padded 4 n
  = String (Str.digit (n / 10 / 10 / 10 mod 10))
      (String (Str.digit (n / 10 / 10 mod 10))
         (String (Str.digit (n / 10 mod 10))
            (String (Str.digit (n mod 10)) ""))).
Proof. reflexivity. Qed.

Lemma all_digits_app s1 s2 :
  Str.all_digits (s1 ++ s2) = Str.all_digits s1 && Str.all_digits s2.
Proof.
  induction s1 as [|c s1 IH]; [reflexivity|].
  rewrite append_cons. cbn [Str.all_digits]. now rewrite IH, andb_assoc.
Qed.

Lemma number_from_app s1 s2 acc :
  Str.number_from acc (s1 ++ s2) = Str.number_from (Str.number_from acc s1) s2.
Proof.
  revert acc. induction s1 as [|c s1 IH]; intros acc; [reflexivity|].
  rewrite append_cons. cbn [Str.number_from]. apply IH.
Qed.

Lemma zero_padded_digits width :
  forall n, 0 <= n -> Str.all_digits (Str.zero_padded width n) = true.
Proof.
  induction width as [|w IH]; intros n Hn; [reflexivity|].
  rewrite zero_padded_S, all_digits_app, IH by (apply Z.div_pos; lia).
  cbn [Str.all_digits andb].
  rewrite (proj1 (digit_spec (n mod 10) ltac:(apply Z.mod_pos_bound; lia))).
  reflexivity.
Qed.

Lemma zero_padded_number width :
  forall n acc, 0 <= n < 10 ^ Z.of_nat width ->
    Str.number_from acc (Str.zero_padded width n)
    = acc * 10 ^ Z.of_nat width + n.
Proof.
  induction width as [|w IH]; intros n acc Hn.
  - cbn [Str.zero_padded Str.number_from]. change (10 ^ Z.of_nat 0) with 1 in *.
    lia.
  - rewrite zero_padded_S, number_from_app.
    assert (Hp : 10 ^ Z.of_nat (S w) = 10 * 10 ^ Z.of_nat w).
    { rewrite Nat2Z.inj_succ, Z.pow_succ_r by lia. reflexivity. }
    rewrite Hp in *.
    assert (Hw : 0 < 10 ^ Z.of_nat w) by (apply Z.pow_pos_nonneg; lia).
    rewrite IH.
    2:{ split; [apply Z.div_pos; lia|].
        apply Z.div_lt_upper_bound; lia. }
    cbn [Str.number_from].
    rewrite (proj2 (digit_spec (n mod 10) ltac:(apply Z.mod_pos_bound; lia))).
    pose proof (Z.div_mod n 10 ltac:(lia)). lia.
Qed.

Lemma zero_padded_length width n :
  String.length (Str.zero_padded width n) = width.
Proof.
  revert n. induction width as [|w IH]; intros n; [reflexivity|].
  rewrite zero_padded_S, length_append, IH. cbn. lia.
Qed.

Lemma number_zero_padded width n :
  (0 < width)%nat -> 0 <= n < 10 ^ Z.of_nat width ->
  Str.number (Str.zero_padded width n) = Some n.
Proof.
  intros Hw Hn. unfold Str.number.
  destruct (Str.zero_padded width n) eqn:E.
  - apply (f_equal String.length) in E. rewrite zero_padded_length in E.
    cbn in E. lia.
  - rewrite <- E, zero_padded_digits by lia.
    rewrite zero_padded_number by assumption. reflexivity.
Qed.

Lemma two_zero_padded n :
  0 <= n < 100 ->
  forall a b, Str.zero_padded 2 n = String a (String b EmptyString) ->
  DateTime.two a b = Some n.
Proof.
  intros Hn a b E. unfold DateTime.two. rewrite <- E.
  apply number_zero_padded; [lia|]. change (10 ^ Z.of_nat 2) with 100. lia.
Qed.

Lemma valid_bounds d :
  DateTime.valid d = true ->
  (1 <= DateTime.year d <= 9999) /\ (1 <= DateTime.month d <= 12) /\
  (1 <= DateTime.day d <= 31) /\ (0 <= DateTime.hour d <= 23) /\
  (0 <= DateTime.minute d <= 59) /\ (0 <= DateTime.second d <= 59) /\
  (0 <= DateTime.microsecond d <= 999999).
Proof.
  unfold DateTime.valid. intros H.
  repeat (apply andb_prop in H as [H ?]).
  assert (DateTime.days_in_month (DateTime.year d) (DateTime.month d) <= 31).
  { unfold DateTime.days_in_month.
    repeat match goal with |- context [if ?c then _ else _] => destruct c end;
      lia. }
  lia.
Qed.

(** What [isoformat] writes, [strptime] reads back, with the format that
    the length of the text selects in [Importer.select_new]. *)
Lemma strptime_isoformat d :
  DateTime.valid d = true ->
  DateTime.strptime (DateTime.isoformat d)
    (19 <? Str.len (DateTime.isoformat d))
  = Ok d.
Proof.
  intros Hv. pose proof (valid_bounds d Hv) as (Hy & Hm & Hd & HH & HM & HS & Hu).
  destruct d as [y m dd hh mi ss us]. cbn [DateTime.year DateTime.month
    DateTime.day DateTime.hour DateTime.minute DateTime.second
    DateTime.microsecond] in *.
  assert (Ey : Str.number (Str.zero_padded 4 y) = Some y).
  { apply number_zero_padded; [lia|]. change (10 ^ Z.of_nat 4) with 10000. lia. }
  assert (Em := two_zero_padded m ltac:(lia) _ _ eq_refl).
  assert (Ed := two_zero_padded dd ltac:(lia) _ _ eq_refl).
  assert (Eh := two_zero_padded hh ltac:(lia) _ _ eq_refl).
  assert (Ei := two_zero_padded mi ltac:(lia) _ _ eq_refl).
  assert (Es := two_zero_padded ss ltac:(lia) _ _ eq_refl).
  unfold DateTime.isoformat.
  cbn [DateTime.year DateTime.month DateTime.day DateTime.hour DateTime.minute
       DateTime.second DateTime.microsecond].
  rewrite zero_padded_4 in Ey.
  rewrite zero_padded_4, !zero_padded_2.
  repeat (rewrite append_cons || rewrite append_nil).
  unfold Str.len. cbn [String.length].
  destruct (Z.eqb_spec us 0) as [->|Hne].
  - cbn [String.length]. change (19 <? Z.of_nat 19) with false.
    cbv beta iota delta [DateTime.strptime].
    change (negb _) with false at 1. cbv iota.
    rewrite Ey, Em, Ed, Eh, Ei, Es. cbv beta iota zeta.
    rewrite Hv. reflexivity.
  - assert (Eu : Str.number (Str.zero_padded 6 us) = Some us).
    { apply number_zero_padded; [lia|].
      change (10 ^ Z.of_nat 6) with 1000000. lia. }
    cbn [String.length]. rewrite zero_padded_length.
    change (19 <? Z.of_nat 26) with true.
    cbv beta iota delta [DateTime.strptime].
    change (negb _) with false at 1. cbv iota.
    rewrite Ey, Em, Ed, Eh, Ei, Es. cbv beta iota zeta.
    unfold Str.len. rewrite zero_padded_length, Eu.
    change ((1 <=? Z.of_nat 6) && (Z.of_nat 6 <=? 6)) with true. cbv iota.
    change (10 ^ (6 - Z.of_nat 6)) with 1. rewrite Z.mul_1_r.
    rewrite Hv. reflexivity.
Qed.

(** The order of [datetime] values. *)
Lemma lex_ltb_irrefl a : DateTime.lex_ltb a a = false.
Proof.
  induction a as [|x a IH]; cbn [DateTime.lex_ltb]; [reflexivity|].
  rewrite Z.ltb_irrefl, Z.eqb_refl, IH. reflexivity.
Qed.


Lemma ltb_irrefl a : DateTime.ltb a a = false.
Proof. apply lex_ltb_irrefl. Qed.


(** A time stamp between two others is later than the first or earlier
    than the second. *)
Lemma lex_ltb_cotrans a :
  forall b c, DateTime.lex_ltb a c = true ->
    DateTime.lex_ltb a b = true \/ DateTime.lex_ltb b c = true.
Proof.
  induction a as [|x a IH]; intros [|z b] [|y c]; cbn [DateTime.lex_ltb];
    auto; try discriminate.
  rewrite !orb_true_iff, !andb_true_iff, !Z.ltb_lt, !Z.eqb_eq.
  intros [Hlt|[-> Hlex]].
  - destruct (Z.lt_ge_cases x z); [auto|right; left; lia].
  - destruct (Z.lt_trichotomy y z) as [H|[->|H]]; [auto| |auto].
    destruct (IH b c Hlex); auto.
Qed.

Lemma ltb_cotrans a b c :
  DateTime.ltb a c = true ->
  DateTime.ltb a b = true \/ DateTime.ltb b c = true.
Proof. apply lex_ltb_cotrans. Qed.

End DateTimeProofs.

(** ** Properties of [NameMangler.transform] *)

Section NameManglerProofs.
Import Py NameMangler.

Variable rt : Format.Runtime.

(** The [try] statement of [transform]: a [KeyError] or a [ValueError] of
    [format] is caught and the format string is used as it is; any other
    exception leaves the function. *)
Lemma transform_cases (format_string : string) (file_data : FileData.t) :
  match Format.format rt format_string (substitutions file_data) with
  | Ok result =>
      transform rt (Some format_string) file_data
      = Ok (Format.strftime rt (FileData.timestamp file_data) result)
  | Raise KeyError | Raise ValueError =>
      transform rt (Some format_string) file_data
      = Ok (Format.strftime rt (FileData.timestamp file_data) format_string)
  | Raise e => transform rt (Some format_string) file_data = Raise e
  end.
Proof.
  unfold transform.
  destruct (Format.format rt format_string (substitutions file_data))
    as [result|[]]; reflexivity.
Qed.

(** The substitutions for [{number}] and [{camera}]. *)
Lemma substitutions_number (file_data : FileData.t) :
  substitutions file_data !! "number"
  = Some match last_of (findall "" (FileData.name file_data)) with
         | Some number => number
         | None => ""
         end.
Proof.
  unfold substitutions.
  destruct (Path.splitext (FileData.name file_data)) as [root ext].
  rewrite !lookup_insert_ne by discriminate.
  destruct (last_of (findall "" (FileData.name file_data)));
    now rewrite lookup_insert_eq.
Qed.

Lemma substitutions_camera (file_data : FileData.t) :
  substitutions file_data !! "camera"
  = Some (Str.replace " " "_"
            match FileData.camera file_data with
            | Some c => if String.eqb c "" then "unknown_camera" else c
            | None => "unknown_camera"
            end).
Proof.
  unfold substitutions.
  destruct (Path.splitext (FileData.name file_data)) as [root ext].
  now rewrite lookup_insert_eq.
Qed.

Lemma substitutions_keys (file_data : FileData.t) (k : string) :
  is_Some (substitutions file_data !! k) <->
  k = "name" \/ k = "number" \/ k = "root" \/ k = "ext" \/ k = "camera".
Proof.
  unfold substitutions.
  destruct (Path.splitext (FileData.name file_data)) as [root ext].
  rewrite !lookup_insert_is_Some.
  destruct (last_of (findall "" (FileData.name file_data)));
    rewrite lookup_insert_is_Some, lookup_singleton_is_Some;
    (split;
     [ intuition auto
     | intros [->|[->|[->|[->| ->]]]];
       repeat (first [ reflexivity | now left
                     | right; split; [discriminate|] ]) ]).
Qed.

(** A file without camera model: [{camera}] is [unknown_camera]. *)
Lemma substitutions_no_camera (file_data : FileData.t) :
  FileData.camera file_data = None ->
  substitutions file_data !! "camera" = Some "unknown_camera".
Proof. intros H. now rewrite substitutions_camera, H. Qed.

(** A field of an unknown name raises [KeyError], which is caught. *)
Lemma format_unknown_key (kwargs : gmap string string) :
  kwargs !! "nam" = None ->
  Format.format rt "{nam}" kwargs = Raise KeyError.
Proof.
  intros H. unfold Format.format, Format.build_string.
  change (Format.tokens Format.InLiteral "{nam}")
    with [Format.Field "nam" None "" false].
  cbn [Format.do_markup]. unfold Format.output_markup, Format.get_field_object.
  change (Format.field_name_split "nam") with ("nam", "").
  cbv beta iota.
  change (Format.get_integer rt "nam") with (Ok (@None Z)).
  cbn [bind]. rewrite bool_decide_eq_false_2 by (intros [? [=]]).
  change (String.eqb "nam" "" || false) with false. cbv iota.
  now rewrite H.
Qed.

Lemma transform_unknown_key (file_data : FileData.t) :
  transform rt (Some "{nam}") file_data
  = Ok (Format.strftime rt (FileData.timestamp file_data) "{nam}").
Proof.
  pose proof (transform_cases "{nam}" file_data) as H.
  rewrite format_unknown_key in H; [exact H|].
  destruct (substitutions file_data !! "nam") eqn:E; [|reflexivity].
  assert (Hs : is_Some (substitutions file_data !! "nam")) by eauto.
  apply substitutions_keys in Hs.
  destruct Hs as [Hs|[Hs|[Hs|[Hs|Hs]]]]; discriminate Hs.
Qed.

(** A replacement field without name, or with a number for name, asks for
    a positional argument; [format] is called without any and raises
    [IndexError]. *)
Lemma format_positional_field (kwargs : gmap string string) :
  Format.format rt "{}" kwargs = Raise IndexError.
Proof. reflexivity. Qed.

(** C9, on the code.  For the format string [{}], which the user can type
    into the target format field, [transform] does not return a string: the
    [IndexError] of [format] is not among the exceptions caught
    ([KeyError], [ValueError]) and leaves [transform], whatever the file
    entry. *)
Theorem transform_positional_field_raises (file_data : FileData.t) :
  transform rt (Some "{}") file_data = Raise IndexError.
Proof.
  pose proof (transform_cases "{}" file_data) as H.
  now rewrite format_positional_field in H.
Qed.

End NameManglerProofs.

(** ** [os.path.split]: the head is a shorter prefix *)

Section PathProofs.

Lemma substring_0_length n s :
  (String.length (String.substring 0 n s) <= n)%nat.
Proof.
  revert s. induction n as [|n IH]; intros [|c s]; cbn; try lia.
  specialize (IH s). lia.
Qed.

Lemma substring_0_prefix n s : String.prefix (String.substring 0 n s) s = true.
Proof.
  revert s. induction n as [|n IH]; intros [|c s]; cbn; try reflexivity.
  rewrite IH. now destruct (ascii_dec c c).
Qed.

Lemma substring_nonempty n m s :
  String.substring n m s <> "" -> (n < String.length s)%nat.
Proof.
  revert m s. induction n as [|n IH]; intros m [|c s]; cbn.
  - destruct m; intros H; now contradiction H.
  - lia.
  - intros H; now contradiction H.
  - intros H. apply IH in H. lia.
Qed.

Lemma substring_0_shorter n s :
  (String.length (String.substring 0 n s) <= String.length s)%nat.
Proof.
  revert s. induction n as [|n IH]; intros [|c s]; cbn; try lia.
  specialize (IH s). lia.
Qed.

Lemma rstrip_length c s :
  (String.length (Str.rstrip c s) <= String.length s)%nat.
Proof.
  induction s as [|c' s IH]; cbn [Str.rstrip]; [lia|].
  destruct (Str.has_other_than c (String c' s)); cbn [String.length]; lia.
Qed.

Lemma rstrip_prefix c s : String.prefix (Str.rstrip c s) s = true.
Proof.
  induction s as [|c' s IH]; cbn [Str.rstrip]; [reflexivity|].
  destruct (Str.has_other_than c (String c' s)); cbn [String.prefix];
    [|reflexivity].
  rewrite IH. now destruct (ascii_dec c' c').
Qed.

Lemma prefix_trans a b c :
  String.prefix a b = true -> String.prefix b c = true ->
  String.prefix a c = true.
Proof.
  revert b c. induction a as [|x a IH]; intros [|y b] [|z c]; cbn;
    try reflexivity; try discriminate.
  destruct (ascii_dec x y) as [->|]; [|discriminate].
  destruct (ascii_dec y z) as [->|]; [|discriminate].
  intros H1 H2. destruct (ascii_dec z z); [|contradiction].
  now apply (IH b).
Qed.

Lemma prefix_refl a : String.prefix a a = true.
Proof.
  induction a as [|x a IH]; cbn; [reflexivity|].
  now destruct (ascii_dec x x).
Qed.

(** The head of a path is a prefix of the path, and is shorter when there
    is a tail. *)
Lemma split_head p :
  String.prefix (fst (Path.split p)) p = true /\
  (String.length (fst (Path.split p)) <= String.length p)%nat /\
  (snd (Path.split p) <> "" ->
   (String.length (fst (Path.split p)) < String.length p)%nat).
Proof.
  unfold Path.split, Str.take, Str.drop. cbn [fst snd].
  set (i := Z.to_nat (Str.rfind "/" p + 1)).
  pose proof (substring_0_length i p) as Hlen.
  pose proof (substring_0_prefix i p) as Hpre.
  pose proof (rstrip_length "/" (String.substring 0 i p)) as Hrl.
  pose proof (rstrip_prefix "/" (String.substring 0 i p)) as Hrp.
  pose proof (substring_0_shorter i p) as Hle.
  destruct (negb (String.eqb (String.substring 0 i p) "")
            && Str.has_other_than "/" (String.substring 0 i p)).
  - split; [now apply (prefix_trans _ (String.substring 0 i p))|].
    split; [lia|]. intros H. apply substring_nonempty in H. lia.
  - split; [exact Hpre|]. split; [exact Hle|].
    intros H. apply substring_nonempty in H. lia.
Qed.

End PathProofs.

(** ** Properties of [Importer] *)

Section ImporterProofs.
Import Py Importer ImporterSpec.

Variable E : Env.

(** *** Evaluation of the monad *)

Lemma bind_get {A} (k : t -> M A) s : mbind get k s = k s s.
Proof. reflexivity. Qed.

Lemma bind_ret {A B} (a : A) (k : A -> M B) s : mbind (ret a) k s = k a s.
Proof. reflexivity. Qed.

Lemma bind_raise {A B} e (k : A -> M B) s :
  mbind (raise e) k s = (Raise e, s).
Proof. reflexivity. Qed.

Lemma bind_modify {B} f (k : unit -> M B) s :
  mbind (modify f) k s = k tt (f s).
Proof. reflexivity. Qed.

Lemma bind_lift_ok {A B} (a : A) (k : A -> M B) s :
  mbind (lift (Ok a)) k s = k a s.
Proof. reflexivity. Qed.

Lemma bind_eq {A B} (m : M A) (k : A -> M B) s a s1 :
  m s = (Ok a, s1) -> mbind m k s = k a s1.
Proof. intros H. unfold mbind. now rewrite H. Qed.

Lemma bind_eq_raise {A B} (m : M A) (k : A -> M B) s e s1 :
  m s = (Raise e, s1) -> mbind m k s = (Raise e, s1).
Proof. intros H. unfold mbind. now rewrite H. Qed.

Lemma bind_assoc {A B C} (m : M A) (k : A -> M B) (h : B -> M C) s :
  mbind (mbind m k) h s = mbind m (fun a => mbind (k a) h) s.
Proof.
  unfold mbind. destruct (m s) as [[a|e] s1]; reflexivity.
Qed.

(** *** Methods that leave a part of the state as it is *)

Lemma preserves_ret {X A} (f : t -> X) (a : A) : preserves f (ret a).
Proof. intros s. reflexivity. Qed.

Lemma preserves_raise {X A} (f : t -> X) e : preserves f (@raise A e).
Proof. intros s. reflexivity. Qed.

Lemma preserves_lift {X A} (f : t -> X) (r : result A) : preserves f (lift r).
Proof. intros s. reflexivity. Qed.

Lemma preserves_get {X} (f : t -> X) : preserves f get.
Proof. intros s. reflexivity. Qed.

Lemma preserves_modify {X} (f : t -> X) g :
  (forall s, f (g s) = f s) -> preserves f (modify g).
Proof. intros H s. apply H. Qed.

Lemma preserves_bind {X A B} (f : t -> X) (m : M A) (k : A -> M B) :
  preserves f m -> (forall a, preserves f (k a)) -> preserves f (mbind m k).
Proof.
  intros Hm Hk s. unfold mbind. specialize (Hm s).
  destruct (m s) as [[a|e] s1]; cbn [snd] in *.
  - now rewrite Hk.
  - exact Hm.
Qed.

Lemma preserves_catch_all {X} (f : t -> X) m :
  log_free f ->
  preserves f m -> preserves f (catch_all m).
Proof.
  intros Hl Hm s. unfold catch_all. specialize (Hm s).
  destruct (m s) as [[[]|e] s1]; cbn [snd] in *.
  - exact Hm.
  - now rewrite Hl.
Qed.

Lemma preserves_when {X} (f : t -> X) b m :
  preserves f m -> preserves f (when b m).
Proof. intros H. destruct b; [exact H|apply preserves_ret]. Qed.

Lemma preserves_lookup {X A} (f : t -> X) (v : option A) :
  preserves f (lookup v).
Proof. destruct v; [apply preserves_ret|apply preserves_raise]. Qed.

Lemma log_free_calls : log_free calls.
Proof. intros g s. reflexivity. Qed.

Lemma log_free_index : log_free index.
Proof. intros g s. reflexivity. Qed.

Lemma log_free_errors : log_free errors.
Proof.
  intros e s. unfold errors. cbn [set_log' world set_world log set_log].
  rewrite List.filter_app. cbn [List.filter is_error]. apply app_nil_r.
Qed.

Ltac preserves_step :=
  lazymatch goal with
  | |- preserves _ (ret _) => apply preserves_ret
  | |- preserves _ (raise _) => apply preserves_raise
  | |- preserves _ (lift _) => apply preserves_lift
  | |- preserves _ get => apply preserves_get
  | |- preserves _ (lookup _) => apply preserves_lookup
  | |- preserves _ (modify _) =>
      apply preserves_modify; intros; first [reflexivity | auto]
  | |- preserves _ (mbind _ _) => apply preserves_bind; [|intros]
  | |- preserves _ (when _ _) => apply preserves_when
  | |- preserves _ (catch_all _) =>
      apply preserves_catch_all;
      [first [ assumption | apply log_free_calls | apply log_free_index
             | apply log_free_errors ]|]
  | |- preserves _ (match ?x with _ => _ end) => destruct x
  | |- preserves _ (if ?b then _ else _) => destruct b
  end.

Ltac preserves_auto := repeat preserves_step.

Section Frame.
Context {X : Type} (f : t -> X).
Hypothesis f_log : log_free f.
(** [f] reads nothing of what the file list, the name mangler and the
    configuration store hold. *)
Hypothesis f_file_data : forall v s, f (set_file_data v s) = f s.
Hypothesis f_file_list : forall v s, f (set_file_list v s) = f s.
Hypothesis f_widget :
  forall v s, f (set_ui (set_file_list_widget v (ui s)) s) = f s.
Hypothesis f_path_example :
  forall v s, f (set_ui (set_path_example v (ui s)) s) = f s.
Hypothesis f_path_format :
  forall v s, f (set_ui (set_path_format v (ui s)) s) = f s.
Hypothesis f_example : forall v s, f (set_example v s) = f s.
Hypothesis f_format_string : forall v s, f (set_format_string v s) = f s.
Hypothesis f_source : forall v s, f (set_source v s) = f s.
Hypothesis f_config_section : forall v s, f (set_config_section v s) = f s.
Hypothesis f_timer :
  forall v s, f (set_world (set_list_files_timer v (world s)) s) = f s.

Lemma preserves_refresh_example : preserves f (refresh_example E).
Proof.
  unfold refresh_example. preserves_auto.
Qed.

Lemma preserves_show_items file_list : preserves f (show_items E file_list).
Proof.
  induction file_list as [|name l IH]; cbn [show_items].
  - apply preserves_ret.
  - preserves_auto. exact IH.
Qed.

Lemma preserves_show_file_list : preserves f (show_file_list E).
Proof.
  unfold show_file_list. preserves_auto. apply preserves_show_items.
Qed.

Lemma preserves_sort_file_list : preserves f (sort_file_list E).
Proof.
  unfold sort_file_list, config_get, set_example'.
  preserves_auto;
    first [apply preserves_show_file_list | apply preserves_refresh_example].
Qed.

Lemma preserves_new_file_list file_data :
  preserves f (_new_file_list E file_data).
Proof.
  unfold _new_file_list. preserves_auto. apply preserves_sort_file_list.
Qed.

(** [new_source(0)]: the item is ['<select source>']. *)
Lemma new_source_0 s :
  new_source E 0 s
  = catch_all (modify (set_source None) ;;; _new_file_list E []) s.
Proof. reflexivity. Qed.

Lemma preserves_new_source_0 : preserves f (new_source E 0).
Proof.
  intros s. rewrite new_source_0. revert s.
  change (preserves f (catch_all (modify (set_source None) ;;;
                                  _new_file_list E []))).
  preserves_auto. apply preserves_new_file_list.
Qed.

End Frame.

Ltac frame_side :=
  first [ apply log_free_calls | apply log_free_index
        | intros; reflexivity ].

Lemma calls_new_source_0 : preserves calls (new_source E 0).
Proof. apply preserves_new_source_0; frame_side. Qed.

Lemma index_new_source_0 : preserves index (new_source E 0).
Proof. apply preserves_new_source_0; frame_side. Qed.

Lemma calls_show_file_list : preserves calls (show_file_list E).
Proof. apply preserves_show_file_list; frame_side. Qed.


Lemma count_positive w : (0 <? count w) = true.
Proof. unfold count. apply Z.ltb_lt. lia. Qed.

(** [setCurrentIndex(0)] *)
Lemma setCurrentIndex_0 s :
  setCurrentIndex E 0 s
  = if 0 =? currentIndex (ui s) then (Ok tt, s)
    else (modify (fun s => set_ui (set_currentIndex 0 (ui s)) s) ;;;
          when (negb (signalsBlocked (ui s))) (new_source E 0)) s.
Proof.
  unfold setCurrentIndex at 1. unfold mbind at 1. cbn [get].
  rewrite count_positive. cbn [Z.leb Z.compare andb].
  destruct (0 =? currentIndex (ui s)); reflexivity.
Qed.

Lemma calls_setCurrentIndex_0 : preserves calls (setCurrentIndex E 0).
Proof.
  intros s. rewrite setCurrentIndex_0.
  destruct (0 =? currentIndex (ui s)); [reflexivity|].
  assert (H : preserves calls
                (modify (fun s => set_ui (set_currentIndex 0 (ui s)) s) ;;;
                 when (negb (signalsBlocked (ui s))) (new_source E 0))).
  { preserves_auto. apply calls_new_source_0. }
  apply H.
Qed.

Lemma index_setCurrentIndex_0 s : index (snd (setCurrentIndex E 0 s)) = 0.
Proof.
  rewrite setCurrentIndex_0.
  destruct (Z.eqb_spec 0 (currentIndex (ui s))) as [H|H]; [now symmetry|].
  unfold mbind at 1. cbn [modify].
  assert (Hp : preserves index
                 (when (negb (signalsBlocked (ui s))) (new_source E 0))).
  { preserves_auto. apply index_new_source_0. }
  rewrite Hp. reflexivity.
Qed.

(** [setCurrentIndex] and so [_fail] return: the slot [new_source] is
    decorated with [catch_all]. *)
Lemma catch_all_ok m s : fst (catch_all m s) = Ok tt.
Proof. unfold catch_all. destruct (m s) as [[[]|e] s1]; reflexivity. Qed.

Lemma setCurrentIndex_ok idx s : fst (setCurrentIndex E idx s) = Ok tt.
Proof.
  unfold setCurrentIndex, mbind. cbn [get].
  match goal with |- context [if ?c then ret tt else _] => destruct c end;
    [reflexivity|].
  cbn [modify]. unfold when.
  destruct (negb (signalsBlocked (ui s))); [|reflexivity].
  apply catch_all_ok.
Qed.

(** [refresh] makes no call, and leaves the selector on its first item if
    it was there. *)
Lemma calls_refresh : preserves calls (refresh E).
Proof.
  unfold refresh, rebuild, config_get. preserves_auto.
  apply calls_setCurrentIndex_0.
Qed.

Lemma keeps_bind {A B} (I : t -> Prop) (m : M A) (k : A -> M B) :
  keeps I m -> (forall a, keeps I (k a)) -> keeps I (mbind m k).
Proof.
  intros Hm Hk s Hs. unfold mbind. specialize (Hm s Hs).
  destruct (m s) as [[a|e] s1]; cbn [snd] in *; [now apply Hk|exact Hm].
Qed.

Lemma keeps_catch_all (I : t -> Prop) m :
  (forall g s, I s -> I (set_log' g s)) -> keeps I m -> keeps I (catch_all m).
Proof.
  intros Hl Hm s Hs. unfold catch_all. specialize (Hm s Hs).
  destruct (m s) as [[[]|e] s1]; cbn [snd] in *; [exact Hm|now apply Hl].
Qed.

Lemma keeps_index_rebuild b :
  keeps (fun s => index s = 0) (rebuild E b (Some NewFileList)).
Proof.
  unfold rebuild, config_get. cbn [same_item_data].
  change (0 >=? 0) with true. change (0 <? 0) with false. cbn [when].
  repeat (apply keeps_bind; [|intros]);
    first [ intros s Hs; exact Hs | intros s Hs; reflexivity ].
Qed.

Lemma index_refresh s : index s = 0 -> index (snd (refresh E s)) = 0.
Proof.
  intros H0.
  assert (Hr : refresh E s
               = catch_all
                   (modify (fun s => set_ui (set_signalsBlocked true (ui s)) s) ;;;
                    rebuild E (signalsBlocked (ui s)) (Some NewFileList)) s).
  { unfold refresh, catch_all, mbind at 1. cbn [get].
    unfold index in H0. rewrite H0. reflexivity. }
  rewrite Hr.
  apply (keeps_catch_all (fun s => index s = 0)); [intros; assumption| |exact H0].
  apply keeps_bind; [intros s1 Hs1; exact Hs1|intros _].
  apply keeps_index_rebuild.
Qed.

Lemma refresh_ok s : fst (refresh E s) = Ok tt.
Proof. apply catch_all_ok. Qed.

(** What is neither a widget nor a part of the file list stays when the
    source selector is reset and refreshed: so the calls made, and the
    records of [logger.error]. *)
Section Quiet.
Context {X : Type} (f : t -> X).
Hypothesis q_log : log_free f.
Hypothesis q_ui : forall v s, f (set_ui v s) = f s.
Hypothesis q_file_data : forall v s, f (set_file_data v s) = f s.
Hypothesis q_file_list : forall v s, f (set_file_list v s) = f s.
Hypothesis q_example : forall v s, f (set_example v s) = f s.
Hypothesis q_format_string : forall v s, f (set_format_string v s) = f s.
Hypothesis q_source : forall v s, f (set_source v s) = f s.
Hypothesis q_config_section : forall v s, f (set_config_section v s) = f s.
Hypothesis q_timer :
  forall v s, f (set_world (set_list_files_timer v (world s)) s) = f s.

Lemma quiet_new_source_0 : preserves f (new_source E 0).
Proof. apply preserves_new_source_0; auto. Qed.

Lemma quiet_setCurrentIndex_0 : preserves f (setCurrentIndex E 0).
Proof.
  intros s. rewrite setCurrentIndex_0.
  destruct (0 =? currentIndex (ui s)); [reflexivity|].
  assert (H : preserves f
                (modify (fun s => set_ui (set_currentIndex 0 (ui s)) s) ;;;
                 when (negb (signalsBlocked (ui s))) (new_source E 0))).
  { preserves_auto. apply quiet_new_source_0. }
  apply H.
Qed.

Lemma quiet_refresh : preserves f (refresh E).
Proof.
  unfold refresh, rebuild, config_get. preserves_auto.
  apply quiet_setCurrentIndex_0.
Qed.

Lemma quiet_fail : preserves f (_fail E).
Proof.
  unfold _fail. preserves_auto;
    [apply quiet_setCurrentIndex_0|apply quiet_refresh].
Qed.

End Quiet.

Lemma errors_fail : preserves errors (_fail E).
Proof.
  apply quiet_fail; first [apply log_free_errors|intros; reflexivity].
Qed.

(** [_fail] returns, makes no call, and resets the source selector. *)
Lemma fail_spec s :
  fst (_fail E s) = Ok tt /\
  calls (snd (_fail E s)) = calls s /\
  index (snd (_fail E s)) = 0.
Proof.
  unfold _fail, mbind.
  pose proof (setCurrentIndex_ok 0 s) as Hok.
  pose proof (calls_setCurrentIndex_0 s) as Hc.
  pose proof (index_setCurrentIndex_0 s) as Hi.
  destruct (setCurrentIndex E 0 s) as [[[]|e] s1]; cbn [fst snd] in *;
    [|discriminate].
  split; [apply refresh_ok|]. split.
  - now rewrite calls_refresh.
  - now apply index_refresh.
Qed.

(** *** [os.makedirs] *)

Lemma set_dirs_same s : set_world (set_dirs (dirs (world s)) (world s)) s = s.
Proof. destruct s as [? ? ? ? ? ? ? ? []]. reflexivity. Qed.

(** [mkdir] changes the directories only, and adds at most [name]. *)
Lemma mkdir_spec name s :
  (fst (mkdir name s) = Ok tt /\
   snd (mkdir name s)
   = set_world (set_dirs ({[name]} ∪ dirs (world s)) (world s)) s) \/
  ((fst (mkdir name s) = Raise FileExistsError \/
    fst (mkdir name s) = Raise FileNotFoundError \/
    fst (mkdir name s) = Raise NotADirectoryError) /\
   snd (mkdir name s) = s).
Proof.
  unfold mkdir. rewrite bind_get.
  destruct (String.eqb name ""); [right; split; auto|].
  destruct (exists_ s name); [right; split; auto|].
  destruct (String.eqb (Path.dirname name) "" || isdir s (Path.dirname name));
    [left; split; reflexivity|].
  destruct (isfile s (Path.dirname name)); right; split; auto.
Qed.

Lemma made_for_same name s : made_for name s (dirs (world s)).
Proof. split; [reflexivity|auto]. Qed.

Lemma made_for_add name s D :
  made_for name s D -> made_for name s ({[name]} ∪ D).
Proof.
  intros [Hsub Hall]. split.
  - etransitivity; [exact Hsub|apply union_subseteq_r].
  - intros p Hp. apply elem_of_union in Hp as [Hp|Hp]; [|now apply Hall].
    apply elem_of_singleton in Hp as ->. right. apply prefix_refl.
Qed.

(** [os.makedirs] changes the directories only: it deletes none, and a
    directory that it makes is [name] or a directory above it.  It does
    not run out of depth when it starts with more than the length of the
    name. *)
Lemma makedirs_from_spec depth :
  forall name s,
  exists D,
    snd (makedirs_from depth name s) = set_world (set_dirs D (world s)) s /\
    made_for name s D /\
    ((String.length name < depth)%nat ->
     fst (makedirs_from depth name s) <> Raise RuntimeError) /\
    (fst (makedirs_from depth name s) = Ok tt ->
     name ∈ D \/ Path.basename name = "." \/ Path.basename name = "").
Proof.
  assert (Hmk : forall name s0 s D0,
            s = set_world (set_dirs D0 (world s0)) s0 ->
            made_for name s0 D0 ->
            exists D,
              snd (mkdir name s) = set_world (set_dirs D (world s0)) s0 /\
              made_for name s0 D /\
              fst (mkdir name s) <> Raise RuntimeError /\
              (fst (mkdir name s) = Ok tt -> name ∈ D)).
  { intros name s0 s D0 -> HD0.
    destruct (mkdir_spec name (set_world (set_dirs D0 (world s0)) s0))
      as [[Hok Hs]|[He Hs]].
    - exists ({[name]} ∪ D0). rewrite Hs, Hok.
      split; [reflexivity|]. split; [now apply made_for_add|].
      split; [discriminate|]. intros _. apply elem_of_union. left.
      now apply elem_of_singleton.
    - exists D0. rewrite Hs. split; [reflexivity|]. split; [exact HD0|].
      split; destruct He as [->|[->| ->]]; discriminate. }
  induction depth as [|depth IH]; intros name s.
  { exists (dirs (world s)). cbn [makedirs_from raise fst snd].
    split; [now rewrite set_dirs_same|]. split; [apply made_for_same|].
    split; [lia|discriminate]. }
  cbn [makedirs_from].
  pose proof (split_head name) as (Hp1 & Hl1 & Hs1).
  destruct (Path.split name) as [head1 tail1] eqn:Hsplit1.
  cbn [fst snd] in Hp1, Hl1, Hs1.
  assert (Hbase : Path.basename name = tail1)
    by (unfold Path.basename; now rewrite Hsplit1).
  pose proof (split_head head1) as (Hp2 & Hl2 & Hs2).
  set (pair := if String.eqb tail1 "" then Path.split head1
               else (head1, tail1)).
  assert (Hpair : String.prefix (fst pair) name = true /\
                  (snd pair <> "" ->
                   (String.length (fst pair) < String.length name)%nat) /\
                  (snd pair = "." -> tail1 = "." \/ tail1 = "")).
  { subst pair. destruct (String.eqb_spec tail1 "") as [->|Hne].
    - split; [now apply (prefix_trans _ head1)|].
      split; [intros H; apply Hs2 in H; lia|auto].
    - cbn [fst snd]. split; [exact Hp1|]. split; [exact Hs1|auto]. }
  destruct pair as [head tail]. cbn [fst snd] in Hpair.
  destruct Hpair as (Hpre & Hshort & Hdot).
  rewrite bind_get.
  destruct (negb (String.eqb head "") && negb (String.eqb tail "")
            && negb (exists_ s head)) eqn:Hcond.
  2:{ destruct (Hmk name s s (dirs (world s)))
        as (D & HsD & HD & Hrt & Hok);
        [now rewrite set_dirs_same|apply made_for_same|].
      exists D. split; [exact HsD|]. split; [exact HD|].
      split; [intros _; exact Hrt|]. intros H. left. now apply Hok. }
  apply andb_true_iff in Hcond as [Hcond _].
  apply andb_true_iff in Hcond as [_ Htail].
  apply negb_true_iff, String.eqb_neq in Htail.
  destruct (IH head s) as (D1 & Hs1' & HD1 & Hrt1 & _).
  unfold mbind. cbv beta.
  destruct (makedirs_from depth head s) as [[[]|e] s1] eqn:Hrec;
    cbn [fst snd] in Hs1', Hrt1.
  - (* the directories above are made *)
    destruct (String.eqb_spec tail ".") as [Hd|Hd].
    + exists D1. cbn [ret fst snd]. split; [exact Hs1'|].
      split.
      { destruct HD1 as [Hsub Hall]. split; [exact Hsub|].
        intros p Hp. destruct (Hall p Hp); [now left|right].
        now apply (prefix_trans _ head). }
      split; [intros _; discriminate|]. intros _. right. rewrite Hbase.
      destruct (Hdot Hd); auto.
    + destruct (Hmk name s s1 D1 Hs1') as (D & HsD & HD & Hrt & Hok).
      { destruct HD1 as [Hsub Hall]. split; [exact Hsub|].
        intros p Hp. destruct (Hall p Hp); [now left|right].
        now apply (prefix_trans _ head). }
      exists D. split; [exact HsD|]. split; [exact HD|].
      split; [intros _; exact Hrt|]. intros H. left. now apply Hok.
  - assert (Hfar : made_for name s D1).
    { destruct HD1 as [Hsub Hall]. split; [exact Hsub|].
      intros p Hp. destruct (Hall p Hp); [now left|right].
      now apply (prefix_trans _ head). }
    assert (Hdepth : (String.length name < S depth)%nat -> e <> RuntimeError).
    { intros Hlt Heq. apply Hrt1; [|now rewrite Heq].
      specialize (Hshort Htail). lia. }
    destruct e;
      try (exists D1; cbn [fst snd]; split; [exact Hs1'|];
           split; [exact Hfar|];
           split; [first [intros _; discriminate
                         |intros Hlt Heq; now apply (Hdepth Hlt)]
                  |discriminate]).
    (* someone already created the path *)
    destruct (String.eqb_spec tail ".") as [Hd|Hd].
    + exists D1. cbn [ret fst snd]. split; [exact Hs1'|].
      split; [exact Hfar|]. split; [intros _; discriminate|].
      intros _. right. rewrite Hbase. destruct (Hdot Hd); auto.
    + destruct (Hmk name s s1 D1 Hs1' Hfar) as (D & HsD & HD & Hrt & Hok).
      exists D. split; [exact HsD|]. split; [exact HD|].
      split; [intros _; exact Hrt|]. intros H. left. now apply Hok.
Qed.

(** The depth that [makedirs] gives is enough. *)
Lemma makedirs_depth name s : fst (makedirs name s) <> Raise RuntimeError.
Proof.
  destruct (makedirs_from_spec (S (String.length name)) name s)
    as (D & _ & _ & H & _).
  apply H. lia.
Qed.

Lemma makedirs_spec name s :
  exists D,
    snd (makedirs name s) = set_world (set_dirs D (world s)) s /\
    made_for name s D /\
    (fst (makedirs name s) = Ok tt ->
     name ∈ D \/ Path.basename name = "." \/ Path.basename name = "").
Proof.
  destruct (makedirs_from_spec (S (String.length name)) name s)
    as (D & H1 & H2 & _ & H3).
  now exists D.
Qed.

(** *** The calls made by [copy_selected] *)

Lemma abort_copy_spec s :
  exists s1,
    abort_copy E s = (Ok (negb (copy_button (ui s1) && isVisible (ui s1))), s1)
    /\ calls s1
       = (calls s ++ [Polled (negb (copy_button (ui s1) && isVisible (ui s1)))])%list.
Proof.
  exists (snd (abort_copy E s)).
  unfold abort_copy, mbind. cbn [get].
  destruct (user E (polls (world s))) as [stop hide].
  cbn [modify emit ret snd]. split; reflexivity.
Qed.

(** [shutil.copy2] writes one file, the destination or a file in it, or
    raises and changes nothing. *)
Lemma copy2_cases src dst s :
  (exists target,
     (target = dst \/
      isdir s dst = true /\ target = Path.join dst (Path.basename src)) /\
     copy2 src dst s = (Ok tt, snd (write_file target s))) \/
  exists e, copy2 src dst s = (Raise e, s).
Proof.
  unfold copy2. rewrite bind_get.
  destruct (isdir s dst) eqn:Hdir.
  - destruct (String.eqb src (Path.join dst (Path.basename src)));
      [right; now exists SameFileError|].
    destruct (isdir s (Path.join dst (Path.basename src)));
      [right; now exists IsADirectoryError|].
    left. eexists. split; [right; split; reflexivity|reflexivity].
  - destruct (String.eqb src dst); [right; now exists SameFileError|].
    rewrite Hdir. left. exists dst. split; [now left|reflexivity].
Qed.

(** One step of the generator [copy_files].  The directories [D] are
    those after [os.makedirs], if it is called.  The step yields the
    entry, after it has written a file, at the destination or, for a
    folder and a destination that is a directory, in it; or it yields
    [None], a folder without any change, a camera after it has logged the
    error of the library; or it raises. *)
Lemma copy_file_cases source info s :
  exists D,
    (forall d, FileData.dest_path info = Some d ->
       made_for (Path.dirname d) s D) /\
    (FileData.dest_path info = None -> D = dirs (world s)) /\
    ((exists d target,
        FileData.dest_path info = Some d /\
        (target = d \/
         exists root path,
           source = Source.FolderSource root /\
           FileData.path info = Some path /\ d ∈ D /\
           target = Path.join d (Path.basename path)) /\
        copy_file E source info s
        = (Ok (Some info),
           snd (write_file target (set_world (set_dirs D (world s)) s))) /\
        (Path.dirname d ∈ D \/ Path.basename (Path.dirname d) = "."
         \/ Path.basename (Path.dirname d) = "")) \/
     match source with
     | Source.FolderSource _ => copy_file E source info s = (Ok None, s)
     | Source.CameraSource _ _ =>
         exists folder ex,
           FileData.folder info = Some folder /\
           camera_error E folder (FileData.name info) = Some ex /\
           copy_file E source info s
           = (Ok None,
              snd (logger_error ex (set_world (set_dirs D (world s)) s)))
     end \/
     exists e,
       copy_file E source info s
       = (Raise e, set_world (set_dirs D (world s)) s)).
Proof.
  assert (Hsame : forall e,
            exists D,
              (forall d, FileData.dest_path info = Some d ->
                 made_for (Path.dirname d) s D) /\
              (FileData.dest_path info = None -> D = dirs (world s)) /\
              (Raise e, s)
              = (@Raise (option FileData.t) e,
                 set_world (set_dirs D (world s)) s)).
  { intros e. exists (dirs (world s)).
    split; [intros; apply made_for_same|].
    split; [reflexivity|now rewrite set_dirs_same]. }
  destruct source as [root|model port_name]; cbn [copy_file].
  - unfold folder_copy_file, lookup.
    destruct (FileData.path info) as [path|].
    2:{ destruct (Hsame KeyError) as (D & H1 & H2 & H3).
        exists D. split; [exact H1|]. split; [exact H2|].
        right. right. exists KeyError. exact H3. }
    rewrite bind_ret, bind_get.
    destruct (isfile s path); cbn [negb].
    2:{ exists (dirs (world s)). split; [intros; apply made_for_same|].
        split; [reflexivity|]. right. left. reflexivity. }
    destruct (FileData.dest_path info) as [d|].
    2:{ destruct (Hsame KeyError) as (D & H1 & H2 & H3).
        exists D. split; [exact H1|]. split; [exact H2|].
        right. right. exists KeyError. exact H3. }
    rewrite bind_ret. unfold when.
    assert (Hrest : forall D,
              (Path.dirname d ∈ D \/ Path.basename (Path.dirname d) = "."
               \/ Path.basename (Path.dirname d) = "") ->
              let s0 := set_world (set_dirs D (world s)) s in
              (exists d0 target,
                 Some d = Some d0 /\
                 (target = d0 \/
                  exists root0 path0,
                    Source.FolderSource root = Source.FolderSource root0 /\
                    Some path = Some path0 /\ d0 ∈ D /\
                    target = Path.join d0 (Path.basename path0)) /\
                 (copy2 path d ;;; ret (Some info)) s0
                 = (Ok (Some info), snd (write_file target s0)) /\
                 (Path.dirname d0 ∈ D \/ Path.basename (Path.dirname d0) = "."
                  \/ Path.basename (Path.dirname d0) = "")) \/
              exists e, (copy2 path d ;;; ret (Some info)) s0 = (Raise e, s0)).
    { intros D HD s0.
      destruct (copy2_cases path d s0) as [(target & Ht & Hrun)|(e & Hrun)].
      - left. exists d, target. split; [reflexivity|]. split.
        + destruct Ht as [->|[Hdir ->]]; [now left|right].
          exists root, path. split; [reflexivity|]. split; [reflexivity|].
          split; [|reflexivity]. now apply bool_decide_eq_true in Hdir.
        + split; [|exact HD]. now rewrite (bind_eq _ _ _ _ _ Hrun).
      - right. exists e. now rewrite (bind_eq_raise _ _ _ _ _ Hrun). }
    destruct (isdir s (Path.dirname d)) eqn:Hdir; cbn [negb].
    + exists (dirs (world s)). split; [intros; apply made_for_same|].
      split; [discriminate|].
      rewrite bind_ret.
      specialize (Hrest (dirs (world s))). cbv zeta in Hrest.
      rewrite set_dirs_same in *.
      destruct Hrest as [H|H]; [|now left|now right; right].
      left. now apply bool_decide_eq_true in Hdir.
    + destruct (makedirs_spec (Path.dirname d) s) as (D & Hs & HD & Hok).
      exists D. split; [now intros d' [= <-]|]. split; [discriminate|].
      destruct (makedirs (Path.dirname d) s) as [[[]|e] s_made] eqn:Hmade;
        cbn [fst snd] in Hs, Hok; subst s_made.
      * rewrite (bind_eq _ _ _ _ _ Hmade).
        destruct (Hrest D (Hok eq_refl)) as [H|H]; [now left|now right; right].
      * right. right. exists e. unfold mbind at 1. now rewrite Hmade.
  - unfold camera_copy_file, lookup.
    destruct (FileData.dest_path info) as [d|].
    2:{ destruct (Hsame KeyError) as (D & H1 & H2 & H3).
        exists D. split; [exact H1|]. split; [exact H2|].
        right. right. exists KeyError. exact H3. }
    rewrite bind_ret, bind_get. unfold when.
    assert (Hrest : forall D,
              (Path.dirname d ∈ D \/ Path.basename (Path.dirname d) = "."
               \/ Path.basename (Path.dirname d) = "") ->
              let s0 := set_world (set_dirs D (world s)) s in
              let rest :=
                folder <~ match FileData.folder info with
                          | Some a => ret a
                          | None => raise KeyError
                          end ;;
                match camera_error E folder (FileData.name info) with
                | Some ex => logger_error ex ;;; ret None
                | None => write_file d ;;; ret (Some info)
                end in
              (exists d0 target,
                 Some d = Some d0 /\
                 (target = d0 \/
                  exists root path,
                    Source.CameraSource model port_name
                    = Source.FolderSource root /\
                    FileData.path info = Some path /\ d0 ∈ D /\
                    target = Path.join d0 (Path.basename path)) /\
                 rest s0 = (Ok (Some info), snd (write_file target s0)) /\
                 (Path.dirname d0 ∈ D \/ Path.basename (Path.dirname d0) = "."
                  \/ Path.basename (Path.dirname d0) = "")) \/
              (exists folder ex,
                 FileData.folder info = Some folder /\
                 camera_error E folder (FileData.name info) = Some ex /\
                 rest s0 = (Ok None, snd (logger_error ex s0))) \/
              exists e, rest s0 = (Raise e, s0)).
    { intros D HD s0 rest. subst rest.
      destruct (FileData.folder info) as [folder|];
        [|right; right; now exists KeyError].
      rewrite bind_ret.
      destruct (camera_error E folder (FileData.name info)) as [ex|] eqn:Hex.
      - right. left. now exists folder, ex.
      - left. exists d, d. split; [reflexivity|]. split; [now left|].
        split; [reflexivity|exact HD]. }
    destruct (isdir s (Path.dirname d)) eqn:Hdir; cbn [negb].
    + exists (dirs (world s)). split; [intros; apply made_for_same|].
      split; [discriminate|].
      rewrite bind_ret.
      specialize (Hrest (dirs (world s))). cbv zeta in Hrest.
      rewrite set_dirs_same in *. apply Hrest. left.
      now apply bool_decide_eq_true in Hdir.
    + destruct (makedirs_spec (Path.dirname d) s) as (D & Hs & HD & Hok).
      exists D. split; [now intros d' [= <-]|]. split; [discriminate|].
      destruct (makedirs (Path.dirname d) s) as [[[]|e] s_made] eqn:Hmade;
        cbn [fst snd] in Hs, Hok; subst s_made.
      * rewrite (bind_eq _ _ _ _ _ Hmade). apply Hrest. now apply Hok.
      * right. right. exists e. unfold mbind at 1. now rewrite Hmade.
Qed.

Lemma copy_file_calls source info s :
  (exists d, fst (copy_file E source info s) = Ok (Some info) /\
             calls (snd (copy_file E source info s))
             = (calls s ++ [Copied d])%list) \/
  ((forall x, fst (copy_file E source info s) <> Ok (Some x)) /\
   calls (snd (copy_file E source info s)) = calls s).
Proof.
  destruct (copy_file_cases source info s)
    as (D & _ & _ & [(d & target & _ & _ & -> & _)|[Hnone|(e & ->)]]).
  - left. exists target. split; reflexivity.
  - right. destruct source as [root|model port_name].
    + rewrite Hnone. split; [intros x; discriminate|reflexivity].
    + destruct Hnone as (folder & ex & _ & _ & ->).
      split; [intros x; discriminate|reflexivity].
  - right. split; [intros x; discriminate|reflexivity].
Qed.

Lemma copy_loop_calls source copy_list :
  forall last_item s,
  exists new,
    calls (snd (copy_loop E source copy_list last_item s))
    = (calls s ++ new)%list /\
    loop_calls new.
Proof.
  induction copy_list as [|info copy_list IH]; intros last_item s.
  - exists []. split; [|constructor]. rewrite app_nil_r.
    cbn [copy_loop]. destruct source; cbn [copy_files_end];
      [reflexivity|].
    unfold mbind, lift. now destruct (camera_exit E).
  - cbn [copy_loop]. unfold mbind at 1.
    destruct (copy_file_calls source info s) as [(d & Hr & Hc)|(Hr & Hc)];
      destruct (copy_file E source info s) as [[[item|]|e] s1];
      cbn [fst snd] in *; try discriminate.
    + injection Hr as ->.
      unfold mbind at 1.
      destruct (abort_copy_spec s1) as (s2 & -> & Hc2).
      destruct (negb (copy_button (ui s2) && isVisible (ui s2))).
      * exists [Copied d; Polled true]. cbn [ret snd].
        split; [|constructor]. rewrite Hc2, Hc, <- app_assoc. reflexivity.
      * unfold mbind at 1, lookup.
        destruct (FileData.dest_path info) as [p|].
        2:{ exists [Copied d; Polled false]. cbn [raise snd].
            split; [|constructor]. rewrite Hc2, Hc, <- app_assoc. reflexivity. }
        cbn [ret]. unfold mbind at 1. cbn [emit modify].
        unfold mbind at 1.
        match goal with
        | |- context [abort_copy E ?s3] =>
            destruct (abort_copy_spec s3) as (s4 & -> & Hc4)
        end.
        destruct (negb (copy_button (ui s4) && isVisible (ui s4))).
        -- exists [Copied d; Polled false; Opened p; Polled true].
           cbn [ret snd]. split; [|constructor].
           rewrite Hc4. unfold calls at 1. cbn.
           fold (calls s2). rewrite Hc2, Hc, <- !app_assoc. reflexivity.
        -- match goal with
           | |- context [copy_loop E source copy_list ?l s4] =>
               destruct (IH l s4) as (new & Hn & Hl)
           end.
           exists (Copied d :: Polled false :: Opened p :: Polled false :: new).
           split; [|now constructor].
           rewrite Hn, Hc4. unfold calls at 1. cbn.
           fold (calls s2). rewrite Hc2, Hc, <- !app_assoc. reflexivity.
    + exfalso. now apply (Hr item).
    + exists []. split; [|constructor].
      unfold mbind. pose proof (fail_spec s1) as (Hok & Hcf & _).
      destruct (_fail E s1) as [[[]|e] s2]; cbn [fst snd] in *;
        [|discriminate].
      cbn [ret snd]. now rewrite Hcf, Hc, app_nil_r.
    + exists []. split; [|constructor]. cbn [snd]. now rewrite Hc, app_nil_r.
Qed.

Lemma calls_catch_all m s : calls (snd (catch_all m s)) = calls (snd (m s)).
Proof. unfold catch_all. destruct (m s) as [[[]|e] s1]; reflexivity. Qed.

Lemma preserves_after {X A B} (f : t -> X) (m : M A) (k : A -> M B) s :
  (forall a, preserves f (k a)) ->
  f (snd (mbind m k s)) = f (snd (m s)).
Proof.
  intros Hk. unfold mbind. destruct (m s) as [[a|e] s1]; cbn [snd];
    [apply Hk|reflexivity].
Qed.

(** After its loop, [copy_selected] at most calls [done_opening]. *)
Lemma after_loop_calls (last_item : option string * DateTime.t) s :
  let rest :=
    when (truthy (fst last_item))
      (s <~ get ;;
       section <~
         (match config_section s with
          | Some section => ret section
          | None => raise AttributeError
          end) ;;
       config_set section "last_transfer"
         (DateTime.isoformat (snd last_item)) ;;;
       emit (DoneOpening (default "" (fst last_item)))) ;;;
    show_file_list E ;;;
    modify (fun s => set_ui (set_copy_button false (ui s)) s) ;;;
    modify (set_import_in_progress false) in
  calls (snd (rest s)) = calls s \/
  exists p, calls (snd (rest s)) = (calls s ++ [DoneOpening p])%list.
Proof.
  intros rest. subst rest.
  rewrite preserves_after.
  2:{ intros _. preserves_auto. apply calls_show_file_list. }
  unfold when. destruct (truthy (fst last_item)); [|left; reflexivity].
  rewrite bind_get.
  destruct (config_section s) as [section|]; [|left; reflexivity].
  right. exists (default "" (fst last_item)). reflexivity.
Qed.

Lemma copy_selected_calls s :
  exists l tail,
    calls (snd (copy_selected E s)) = (calls s ++ l ++ tail)%list /\
    loop_calls l /\
    (tail = [] \/ exists p, tail = [DoneOpening p]).
Proof.
  unfold copy_selected. rewrite calls_catch_all.
  unfold mbind at 1. cbn [get].
  destruct (import_in_progress s).
  { exists [], []. split; [now rewrite !app_nil_r|]. split; [constructor|auto]. }
  unfold mbind at 1. cbn [modify]. unfold mbind at 1.
  set (s0 := set_import_in_progress true s).
  destruct (copy_list_of (file_data s) (file_list_widget (ui s)))
    as [copy_list|e]; cbn [lift].
  2:{ exists [], []. split; [now rewrite !app_nil_r|].
      split; [constructor|auto]. }
  unfold mbind at 1.
  destruct (source s) as [source|]; cbn [ret raise].
  2:{ exists [], []. split; [now rewrite !app_nil_r|].
      split; [constructor|auto]. }
  unfold mbind at 1.
  assert (Hbegin : copy_files_begin E source s0 = (Ok tt, s0) \/
                   exists e, copy_files_begin E source s0 = (Raise e, s0)).
  { destruct source as [root|model port_name]; cbn [copy_files_begin];
      [now left|].
    unfold lift. destruct (session E model port_name) as [[]|e]; eauto. }
  destruct Hbegin as [->|[e ->]].
  2:{ exists [], []. split; [now rewrite !app_nil_r|].
      split; [constructor|auto]. }
  unfold mbind at 1.
  destruct (copy_loop_calls source copy_list (None, DateTime.min) s0)
    as (l & Hl & Hloop).
  destruct (copy_loop E source copy_list (None, DateTime.min) s0)
    as [[last_item|e] s1]; cbn [snd] in Hl.
  - destruct (after_loop_calls last_item s1) as [H|[p H]].
    + exists l, []. split; [|split; [assumption|auto]].
      cbv zeta in H. rewrite H, Hl, app_nil_r. reflexivity.
    + exists l, [DoneOpening p]. split; [|split; [assumption|eauto]].
      cbv zeta in H. rewrite H, Hl, <- app_assoc. reflexivity.
  - exists l, []. split; [|split; [assumption|auto]].
    cbn [snd]. rewrite Hl, app_nil_r. reflexivity.
Qed.

Lemma polled_app_tail l tail :
  polled l -> (tail = [] \/ exists p, tail = [DoneOpening p]) ->
  (forall d, List.last l (Polled true) <> Copied d) ->
  polled (l ++ tail).
Proof.
  intros Hp Ht. induction l as [|e l IH]; intros Hlast.
  - destruct Ht as [->|[p ->]]; cbn; auto.
  - cbn [app]. destruct e; cbn [polled] in *.
    + destruct Hp as [Hn Hp]. destruct l as [|e' l]; [contradiction|].
      split; [exact Hn|]. apply IH; [exact Hp|].
      intros d'. exact (Hlast d').
    + apply IH; [exact Hp|]. destruct l; [intros; discriminate|exact Hlast].
    + apply IH; [exact Hp|]. destruct l; [intros; discriminate|exact Hlast].
    + apply IH; [exact Hp|]. destruct l; [intros; discriminate|exact Hlast].
Qed.

Lemma loop_calls_polled l :
  loop_calls l -> polled l /\ forall d, List.last l (Polled true) <> Copied d.
Proof.
  induction 1 as [|d|d|d p|d p l Hl [IH1 IH2]]; cbn; repeat split; auto;
    try (intros; discriminate).
  destruct l as [|e l]; [intros; discriminate|exact IH2].
Qed.

Lemma loop_calls_stopped l tail :
  loop_calls l -> (tail = [] \/ exists p, tail = [DoneOpening p]) ->
  stopped (l ++ tail).
Proof.
  intros Hl Ht.
  assert (Hq : Forall no_copy_no_open tail)
    by (destruct Ht as [->|[p ->]]; repeat constructor).
  assert (Hs : stopped tail)
    by (destruct Ht as [->|[p ->]]; exact I).
  induction Hl; cbn [app stopped]; auto.
Qed.

Lemma polled_split pre d post :
  polled (pre ++ Copied d :: post) -> exists b post', post = Polled b :: post'.
Proof.
  induction pre as [|e pre IH]; cbn [app polled].
  - intros [H _]. destruct post as [|[ | b | | ] post']; try contradiction.
    eauto.
  - destruct e; [intros [_ H]|intros H..]; now apply IH.
Qed.

Lemma stopped_split pre post :
  stopped (pre ++ Polled true :: post) -> Forall no_copy_no_open post.
Proof.
  induction pre as [|e pre IH]; cbn [app stopped]; [auto|].
  destruct e as [ |[|]| | ]; try exact IH.
  intros H. apply Forall_app in H as [_ H]. now apply Forall_cons_iff in H as [_ H].
Qed.

(** C6.  Whatever the state and whatever the user does, the calls made by
    [copy_selected] are such that every file copied is at once followed by
    a call of [abort_copy], and that after a call of [abort_copy] that
    returned true no file is copied and none is passed to
    [image_list.open_file]; [abort_copy] returns true exactly when, events
    processed, the copy button is not checked or the pane is not
    visible. *)
Theorem copy_selected_polls_stop_flag (s : t) :
  (forall s0 : t,
     exists s1,
       abort_copy E s0
       = (Ok (negb (copy_button (ui s1) && isVisible (ui s1))), s1)) /\
  exists new,
    calls (snd (copy_selected E s)) = (calls s ++ new)%list /\
    (forall pre d post,
       new = (pre ++ Copied d :: post)%list ->
       exists b post', post = Polled b :: post') /\
    (forall pre post,
       new = (pre ++ Polled true :: post)%list ->
       forall e, In e post ->
         (forall d, e <> Copied d) /\ (forall p, e <> Opened p)).
Proof.
  split.
  { intros s0. destruct (abort_copy_spec s0) as (s1 & H & _). eauto. }
  destruct (copy_selected_calls s) as (l & tail & Hc & Hl & Ht).
  exists (l ++ tail)%list. split; [exact Hc|]. split.
  - intros pre d post Hnew.
    apply (polled_split pre d post). rewrite <- Hnew.
    destruct (loop_calls_polled l Hl) as [Hp Hlast].
    now apply polled_app_tail.
  - intros pre post Hnew e He.
    pose proof (loop_calls_stopped l tail Hl Ht) as Hs.
    rewrite Hnew in Hs. apply stopped_split in Hs.
    rewrite Forall_forall in Hs. specialize (Hs e).
    assert (He' : no_copy_no_open e) by (apply Hs; now apply list_elem_of_In).
    split; intros x ->; exact He'.
Qed.

(** *** A source that cannot be read *)

(** When the generator yields [None] it has written no file; a camera has
    logged the error of the library, a folder has logged nothing. *)
Lemma copy_file_none source info s :
  fst (copy_file E source info s) = Ok None ->
  calls (snd (copy_file E source info s)) = calls s /\
  match source with
  | Source.FolderSource _ =>
      log (world (snd (copy_file E source info s))) = log (world s)
  | Source.CameraSource _ _ =>
      exists folder ex,
        FileData.folder info = Some folder /\
        camera_error E folder (FileData.name info) = Some ex /\
        log (world (snd (copy_file E source info s)))
        = (log (world s) ++ [Error ex])%list
  end.
Proof.
  intros Hnone.
  destruct (copy_file_cases source info s)
    as (D & _ & _ & [(d & target & _ & _ & Hrun & _)|[Hrun|(e & Hrun)]]);
    try (rewrite Hrun in Hnone; discriminate).
  destruct source as [root|model port_name].
  - rewrite Hrun. split; reflexivity.
  - destruct Hrun as (folder & ex & Hf & Hex & ->).
    split; [reflexivity|]. now exists folder, ex.
Qed.

(** C2, amended.  When [get_file_data] of the current source returns
    [None], [list_files] returns with the source selector on its first
    item, without a call to the image list and without a record of
    [logger.error].  When the generator [copy_files] yields [None] for an
    entry, the loop of [copy_selected] ends there, whatever entries remain:
    no further file is copied or opened, and the source selector is on its
    first item.  The failure is logged by [CameraSource.copy_files] only,
    which logs the error of the camera library: a folder that yields
    [None] logs nothing. *)
Theorem unreadable_source_aborts (src : Source.t) (s : t) :
  (source s = Some src -> get_file_data E src s = Ok None ->
   fst (list_files E s) = Ok tt /\
   calls (snd (list_files E s)) = calls s /\
   index (snd (list_files E s)) = 0 /\
   errors (snd (list_files E s)) = errors s) /\
  (forall info rest last_item,
     fst (copy_file E src info s) = Ok None ->
     fst (copy_loop E src (info :: rest) last_item s) = Ok last_item /\
     calls (snd (copy_loop E src (info :: rest) last_item s)) = calls s /\
     index (snd (copy_loop E src (info :: rest) last_item s)) = 0 /\
     match src with
     | Source.FolderSource _ =>
         errors (snd (copy_loop E src (info :: rest) last_item s)) = errors s
     | Source.CameraSource _ _ =>
         exists folder ex,
           FileData.folder info = Some folder /\
           camera_error E folder (FileData.name info) = Some ex /\
           errors (snd (copy_loop E src (info :: rest) last_item s))
           = (errors s ++ [Error ex])%list
     end).
Proof.
  split.
  - intros Hsrc Hnone.
    unfold list_files, mbind. cbn [modify get source set_world].
    rewrite Hsrc.
    assert (Hg : get_file_data E src
                   (set_world (set_list_files_timer false (world s)) s)
                 = get_file_data E src s).
    { destruct src; reflexivity. }
    rewrite Hg, Hnone. cbn [lift].
    pose proof (fail_spec (set_world (set_list_files_timer false (world s)) s))
      as (Hok & Hc & Hi).
    repeat split; [exact Hok|exact Hc|exact Hi|].
    now rewrite errors_fail.
  - intros info rest last_item Hnone.
    destruct (copy_file_none src info s Hnone) as [Hc Hl].
    destruct (copy_file E src info s) as [r s1] eqn:Hcf.
    cbn [fst snd] in *. subst r.
    cbn [copy_loop]. rewrite (bind_eq _ _ _ _ _ Hcf).
    destruct (fail_spec s1) as (Hok & Hc1 & Hi).
    pose proof (errors_fail s1) as He.
    unfold mbind.
    destruct (_fail E s1) as [[[]|e] s2]; cbn [fst snd ret] in *;
      [|discriminate].
    split; [reflexivity|]. split; [congruence|]. split; [exact Hi|].
    rewrite He. unfold errors.
    destruct src as [root|model port_name].
    + now rewrite Hl.
    + destruct Hl as (folder & ex & Hf & Hex & Hl).
      exists folder, ex. split; [exact Hf|]. split; [exact Hex|].
      rewrite Hl, List.filter_app. reflexivity.
Qed.

(** *** The file list after [show_file_list] *)

Lemma Dict_get_set_eq {V} k (v : V) d : Dict.get k (Dict.set k v d) = Some v.
Proof.
  induction d as [|[k0 v0] d IH]; cbn [Dict.set Dict.get].
  - now rewrite String.eqb_refl.
  - destruct (String.eqb k0 k) eqn:Hk; cbn [Dict.get]; rewrite Hk;
      [reflexivity|exact IH].
Qed.

Lemma Dict_get_set_ne {V} k k' (v : V) d :
  k <> k' -> Dict.get k' (Dict.set k v d) = Dict.get k' d.
Proof.
  intros Hne. induction d as [|[k0 v0] d IH]; cbn [Dict.set Dict.get].
  - apply String.eqb_neq in Hne. now rewrite Hne.
  - destruct (String.eqb k0 k) eqn:Hk; cbn [Dict.get].
    + apply String.eqb_eq in Hk. subst k0.
      apply String.eqb_neq in Hne. now rewrite Hne.
    + now rewrite IH.
Qed.







(** *** [select_files] and [select_new] *)

Lemma select_loop_spec since todo :
  forall done s,
    Forall (fun item => is_Some (Dict.get (data item) (file_data s))) todo ->
    file_list_widget (ui s) = (done ++ todo)%list ->
    exists s',
      select_loop since done todo s = (Ok tt, s') /\
      file_list_widget (ui s') = (done ++ map (mark s since) todo)%list /\
      file_data s' = file_data s.
Proof.
  induction todo as [|item todo IH]; intros done s Hall Hw;
    cbn [select_loop].
  - exists s. split; [reflexivity|]. split; [exact Hw|reflexivity].
  - apply Forall_cons_iff in Hall as [[info Hget] Hall].
    destruct (selectable item) eqn:Hsel; cbn [negb].
    + rewrite bind_get. unfold lookup. rewrite Hget, bind_ret.
      unfold set_items. rewrite bind_modify.
      match goal with
      | |- context [select_loop since (done ++ [?i])%list todo ?s1] =>
          destruct (IH (done ++ [i])%list s1) as (s' & Hrun & Hw' & Hd');
          [exact Hall
          |cbn [ui set_ui file_list_widget set_file_list_widget];
           now rewrite <- app_assoc|]
      end.
      exists s'. split; [exact Hrun|]. split; [|exact Hd'].
      rewrite Hw', <- app_assoc. cbn [app map]. do 2 f_equal.
      unfold mark, newer. rewrite Hsel, Hget. reflexivity.
    + destruct (IH (done ++ [item])%list s) as (s' & Hrun & Hw' & Hd');
        [exact Hall|now rewrite <- app_assoc|].
      exists s'. split; [exact Hrun|]. split; [|exact Hd'].
      rewrite Hw', <- app_assoc. cbn [app map]. do 2 f_equal.
      unfold mark. now rewrite Hsel.
Qed.

Lemma select_files_spec since s :
  Forall (fun item => is_Some (Dict.get (data item) (file_data s)))
    (file_list_widget (ui s)) ->
  exists s',
    select_files since s = (Ok tt, s') /\
    file_list_widget (ui s')
    = map (fun item =>
             setSelected (selectable item && newer s since item) item)
          (file_list_widget (ui s)) /\
    file_data s' = file_data s.
Proof.
  intros Hall. unfold select_files. rewrite bind_get.
  destruct (file_list_widget (ui s)) as [|item items] eqn:Hw.
  - exists s. repeat split. exact Hw.
  - unfold set_items. rewrite bind_modify.
    match goal with
    | |- context [select_loop since [] ?l ?s1] =>
        destruct (select_loop_spec since l [] s1) as (s' & Hrun & Hw' & Hd')
    end.
    + apply Forall_map. eapply Forall_impl; [exact Hall|].
      intros it Hit. exact Hit.
    + reflexivity.
    + exists s'. split; [exact Hrun|]. split; [|exact Hd'].
      rewrite Hw'. cbn [app]. rewrite map_map. apply map_ext.
      intros it. unfold mark. cbn [selectable setSelected].
      change (newer _ since (setSelected false it)) with (newer s since it).
      destruct (selectable it && newer s since it); reflexivity.
Qed.


(** *** The latest time stamp of a transfer *)





(** *** A run of [copy_selected] *)




(** When the source selector is reset the source stays, or none is
    selected any more. *)
Section SourceKept.
Variable P : option Source.t -> Prop.
Hypothesis P_None : P None.




End SourceKept.











End ImporterProofs.

(** *** Examples *)

Section ImporterExamples.
Import Py Importer ImporterSpec ImporterExample.

Ltac by_computation :=
  repeat (match goal with |- _ /\ _ => split end); vm_compute; reflexivity.



(** C2 as stated fails for a folder: the card is taken out, [list_files]
    and [copy_selected] give up and reset the source selector, and nothing
    is logged. *)
Lemma unreadable_folder_not_logged :
  source (unplug (chosen never)) = Some (Source.FolderSource "/sd") /\
  get_file_data (sd_card never) (Source.FolderSource "/sd")
    (unplug (chosen never)) = Ok None /\
  log (world (unplug (chosen never))) = [] /\
  log (world (snd (list_files (sd_card never) (unplug (chosen never))))) = [] /\
  index (snd (list_files (sd_card never) (unplug (chosen never)))) = 0 /\
  (exists info rest,
     copy_list_of (file_data (unplug (pressed never)))
       (file_list_widget (ui (unplug (pressed never))))
     = Ok (info :: rest) /\
     fst (copy_file (sd_card never) (Source.FolderSource "/sd") info
            (set_import_in_progress true (unplug (pressed never))))
     = Ok None) /\
  log (world (unplug (pressed never))) = [] /\
  calls (snd (copy_selected (sd_card never) (unplug (pressed never)))) = [] /\
  index (snd (copy_selected (sd_card never) (unplug (pressed never)))) = 0 /\
  log (world (snd (copy_selected (sd_card never) (unplug (pressed never)))))
  = [].
Proof.
  do 5 (split; [vm_compute; reflexivity|]).
  split; [do 2 eexists; split; vm_compute; reflexivity|].
  by_computation.
Qed.

(** The card is taken out before the files are listed, and before the
    first picture is copied. *)
Lemma unreadable_source_aborts_witness :
  (fst (list_files (sd_card never) (unplug (chosen never))) = Ok tt /\
   calls (snd (list_files (sd_card never) (unplug (chosen never))))
   = calls (unplug (chosen never)) /\
   index (snd (list_files (sd_card never) (unplug (chosen never)))) = 0 /\
   errors (snd (list_files (sd_card never) (unplug (chosen never))))
   = errors (unplug (chosen never))) /\
  (calls (snd (copy_loop (sd_card never) (Source.FolderSource "/sd")
                 [picture_a] (None, DateTime.min) (unplug (pressed never))))
   = calls (unplug (pressed never)) /\
   errors (snd (copy_loop (sd_card never) (Source.FolderSource "/sd")
                  [picture_a] (None, DateTime.min) (unplug (pressed never))))
   = errors (unplug (pressed never))).
Proof.
  split.
  - apply (proj1 (unreadable_source_aborts (sd_card never)
                    (Source.FolderSource "/sd") (unplug (chosen never))));
      vm_compute; reflexivity.
  - destruct (proj2 (unreadable_source_aborts (sd_card never)
                       (Source.FolderSource "/sd") (unplug (pressed never)))
                picture_a [] (None, DateTime.min))
      as (_ & Hc & _ & He).
    + vm_compute. reflexivity.
    + split; [exact Hc|exact He].
Defined.

End ImporterExamples.

(** ** More on [ThumbsLayout._do_layout]: the cells on the page *)

Section ThumbsLayoutCells.
Import Py ThumbsLayout.

(** Two positions of a grid of [C] columns are the same only for the same
    cell. *)
Lemma grid_position_injective C i j :
  0 < C -> 0 <= i -> 0 <= j ->
  i mod C = j mod C -> i / C = j / C -> i = j.
Proof.
  intros HC Hi Hj Hm Hd.
  rewrite (Z.div_mod i C), (Z.div_mod j C) by lia. now rewrite Hm, Hd.
Qed.

(** X1.  For cells of positive width and height, when the size hint and
    the positions of the grid fit a C [int], [_do_layout] returns and
    gives every cell of the list a rectangle: there are as many rectangles
    as cells, each has the full size of a cell and lies inside the
    rectangle that the size hint spans from the origin, margins excluded,
    and no two of them overlap. *)
Theorem do_layout_cells_disjoint (m : Margins) (cell : QSize)
    (rest : list QSize) (vp : QSize) (origin : QPoint) :
  0 < width cell -> 0 < height cell ->
  let N := Z.of_nat (length (cell :: rest)) in
  let multi := height vp - (top m + bottom m) >? height cell in
  let C := if multi
           then Z.max ((width vp - (left m + right m)) / width cell) 1
           else N in
  let R := if multi then (N + C - 1) / C else 1 in
  fits_int (left m + right m + C * width cell) = true ->
  fits_int (top m + bottom m + R * height cell) = true ->
  (forall n : nat, (n < length (cell :: rest))%nat ->
     fits_int (x origin + left m + (Z.of_nat n mod C) * width cell) = true /\
     fits_int (y origin + top m + (Z.of_nat n / C) * height cell) = true) ->
  exists out,
    _do_layout {| item_list := cell :: rest; viewport_size := vp;
                  margins := m |} origin = Ok out /\
    length (geometry out) = length (cell :: rest) /\
    (forall (i : nat) r, nth_error (geometry out) i = Some r ->
       size r = cell /\
       x origin + left m <= x (topLeft r) /\
       x (topLeft r) + width cell
       <= x origin + width (size_hint out) - right m /\
       y origin + top m <= y (topLeft r) /\
       y (topLeft r) + height cell
       <= y origin + height (size_hint out) - bottom m) /\
    (forall (i j : nat) r1 r2,
       i <> j ->
       nth_error (geometry out) i = Some r1 ->
       nth_error (geometry out) j = Some r2 ->
       x (topLeft r1) + width cell <= x (topLeft r2) \/
       x (topLeft r2) + width cell <= x (topLeft r1) \/
       y (topLeft r1) + height cell <= y (topLeft r2) \/
       y (topLeft r2) + height cell <= y (topLeft r1)).
Proof.
  intros Hw Hh N multi C R HW HH Hfit.
  assert (HN : 1 <= N) by (subst N; cbn [length]; lia).
  destruct (grid_shape N ((width vp - (left m + right m)) / width cell)
              multi HN) as [HC HR].
  fold C in HC, HR. fold R in HR.
  pose proof (do_layout_unfold m cell rest vp origin ltac:(intros _; lia))
    as Hrun.
  cbv zeta in Hrun. fold N multi C R in Hrun.
  destruct (place_items_spec (x origin + left m) (y origin + top m)
              (width cell) (height cell) C cell (cell :: rest)
              ltac:(lia) 0 ltac:(lia)) as (rs & Hrs & Hlen & Hnth).
  { intros k Hk. rewrite Z.add_0_l. now apply Hfit. }
  rewrite (c_int_fits _ HW), (c_int_fits _ HH) in Hrun. cbn [bind] in Hrun.
  rewrite Hrs in Hrun. cbn [bind] in Hrun.
  eexists. split; [exact Hrun|]. cbn [geometry size_hint].
  split; [exact Hlen|].
  assert (Hat : forall (i : nat) r, nth_error rs i = Some r ->
            (i < length (cell :: rest))%nat /\
            r = {| topLeft :=
                     {| x := x origin + left m + (Z.of_nat i mod C) * width cell;
                        y := y origin + top m + (Z.of_nat i / C) * height cell |};
                   size := cell |}).
  { intros i r Hr.
    assert (Hi : (i < length (cell :: rest))%nat).
    { rewrite <- Hlen. apply nth_error_Some. congruence. }
    split; [exact Hi|]. rewrite (Hnth i Hi), Z.add_0_l in Hr. congruence. }
  split.
  - intros i r Hr. destruct (Hat i r Hr) as [Hi ->].
    cbn [size topLeft x y width height].
    pose proof (Z.mod_pos_bound (Z.of_nat i) C ltac:(lia)) as Hm.
    pose proof (Z.div_pos (Z.of_nat i) C ltac:(lia) ltac:(lia)) as Hd0.
    assert (Hd : Z.of_nat i / C < R).
    { apply Z.div_lt_upper_bound; [lia|]. fold N in Hi.
      assert (Z.of_nat i < N) by (subst N; lia). lia. }
    split; [reflexivity|]. repeat split; nia.
  - intros i j r1 r2 Hij H1 H2.
    destruct (Hat i r1 H1) as [Hi ->]. destruct (Hat j r2 H2) as [Hj ->].
    cbn [topLeft x y].
    destruct (Z.eq_dec (Z.of_nat i mod C) (Z.of_nat j mod C)) as [Hm|Hm].
    + destruct (Z.eq_dec (Z.of_nat i / C) (Z.of_nat j / C)) as [Hd|Hd].
      * exfalso. apply Hij. apply Nat2Z.inj.
        apply (grid_position_injective C); lia.
      * right. right. nia.
    + nia.
Qed.

(** Five cells of 80 by 100 in a viewport three cells wide. *)
Lemma do_layout_cells_disjoint_witness :
  exists out,
    _do_layout
      {| item_list := repeat {| width := 80; height := 100 |} 5;
         viewport_size := {| width := 250; height := 400 |};
         margins := {| left := 2; top := 3; right := 2; bottom := 3 |} |}
      {| x := 0; y := 0 |} = Ok out /\
    map topLeft (geometry out)
    = [ {| x := 2; y := 3 |}; {| x := 82; y := 3 |}; {| x := 162; y := 3 |};
        {| x := 2; y := 103 |}; {| x := 82; y := 103 |} ].
Proof.
  destruct (do_layout_cells_disjoint
              {| left := 2; top := 3; right := 2; bottom := 3 |}
              {| width := 80; height := 100 |}
              (repeat {| width := 80; height := 100 |} 4)
              {| width := 250; height := 400 |} {| x := 0; y := 0 |})
    as (out & Hrun & _).
  - cbn. lia.
  - cbn. lia.
  - reflexivity.
  - reflexivity.
  - intros [|[|[|[|[|n]]]]] Hn; [split; reflexivity..|simpl in Hn; lia].
  - exists out. split; [exact Hrun|].
    vm_compute in Hrun. injection Hrun as <-. reflexivity.
Defined.

End ThumbsLayoutCells.

(** ** More on [Image]: padding, video frames, orientation *)

Section ImageMore.
Import Py Image.

Variable tk : Toolkit.

Lemma copy_pixel im x0 y0 w0 h0 px py :
  pixel (copy im x0 y0 w0 h0) px py
  = if inside im (px + x0) (py + y0) then pixel im (px + x0) (py + y0) else [].
Proof. reflexivity. Qed.

(** The picture in a copy that only adds [pad] rows or columns before
    it. *)
Lemma copy_keeps src padx pady w0 h0 :
  (forall px py, inside src px py = true ->
     pixel (copy src (- padx) (- pady) w0 h0) (px + padx) (py + pady)
     = pixel src px py) /\
  (forall px py, inside src (px - padx) (py - pady) = false ->
     pixel (copy src (- padx) (- pady) w0 h0) px py = []).
Proof.
  split; intros px py H; rewrite copy_pixel.
  - replace (px + padx + - padx) with px by lia.
    replace (py + pady + - pady) with py by lia. now rewrite H.
  - replace (px + - padx) with (px - padx) by lia.
    replace (py + - pady) with (py - pady) by lia. now rewrite H.
Qed.

(** X2.  The padding of [regenerate_thumbnail] crops nothing: rows or
    columns are added on one axis only, every pixel of the picture is kept,
    moved by the rows or columns added before it, what is added is blank,
    and the picture is centred, with at most one row or column more after
    it than before it. *)
Theorem pad_4_3_keeps_pixels (src : QImage) :
  isNull src = false ->
  exists padx pady,
    0 <= padx /\ 0 <= pady /\ (padx = 0 \/ pady = 0) /\
    padx <= width (fst (pad_4_3 src)) - width src - padx <= padx + 1 /\
    pady <= height (fst (pad_4_3 src)) - height src - pady <= pady + 1 /\
    (forall px py, inside src px py = true ->
       pixel (fst (pad_4_3 src)) (px + padx) (py + pady) = pixel src px py) /\
    (forall px py,
       inside (fst (pad_4_3 src)) px py = true ->
       inside src (px - padx) (py - pady) = false ->
       pixel (fst (pad_4_3 src)) px py = []).
Proof.
  intros Hnull. apply isNull_false in Hnull as [Hw Hh].
  assert (Hsame :
    0 <= 0 /\ 0 <= 0 /\ (0 = 0 \/ 0 = 0) /\
    0 <= width src - width src - 0 <= 0 + 1 /\
    0 <= height src - height src - 0 <= 0 + 1 /\
    (forall px py, inside src px py = true ->
       pixel src (px + 0) (py + 0) = pixel src px py) /\
    (forall px py, inside src px py = true ->
       inside src (px - 0) (py - 0) = false -> pixel src px py = [])).
  { repeat split; try lia.
    - intros px py _. now rewrite !Z.add_0_r.
    - intros px py H1 H2. rewrite !Z.sub_0_r in H2. congruence. }
  assert (Hrows : forall new_h, (new_h >? height src) = true ->
    let pad := (new_h - height src) / 2 in
    let padded := copy src 0 (- pad) (width src) new_h in
    0 <= 0 /\ 0 <= pad /\ (0 = 0 \/ pad = 0) /\
    0 <= width padded - width src - 0 <= 0 + 1 /\
    pad <= height padded - height src - pad <= pad + 1 /\
    (forall px py, inside src px py = true ->
       pixel padded (px + 0) (py + pad) = pixel src px py) /\
    (forall px py, inside padded px py = true ->
       inside src (px - 0) (py - pad) = false -> pixel padded px py = [])).
  { intros new_h Hgt pad padded. apply Z.gtb_lt in Hgt.
    destruct (copy_keeps src 0 pad (width src) new_h) as [Hk Hb].
    pose proof (Z.div_mod (new_h - height src) 2 ltac:(lia)) as Hdm.
    pose proof (Z.mod_pos_bound (new_h - height src) 2 ltac:(lia)) as Hmb.
    subst padded. cbn [width height copy]. subst pad.
    repeat split; try lia.
    - exact Hk.
    - intros px py _. apply Hb. }
  assert (Hcols : forall new_w, (new_w >? width src) = true ->
    let pad := (new_w - width src) / 2 in
    let padded := copy src (- pad) 0 new_w (height src) in
    0 <= pad /\ 0 <= 0 /\ (pad = 0 \/ 0 = 0) /\
    pad <= width padded - width src - pad <= pad + 1 /\
    0 <= height padded - height src - 0 <= 0 + 1 /\
    (forall px py, inside src px py = true ->
       pixel padded (px + pad) (py + 0) = pixel src px py) /\
    (forall px py, inside padded px py = true ->
       inside src (px - pad) (py - 0) = false -> pixel padded px py = [])).
  { intros new_w Hgt pad padded. apply Z.gtb_lt in Hgt.
    destruct (copy_keeps src pad 0 new_w (height src)) as [Hk Hb].
    pose proof (Z.div_mod (new_w - width src) 2 ltac:(lia)) as Hdm.
    pose proof (Z.mod_pos_bound (new_w - width src) 2 ltac:(lia)) as Hmb.
    subst padded. cbn [width height copy]. subst pad.
    repeat split; try lia.
    - exact Hk.
    - intros px py _. apply Hb. }
  destruct (Z_le_gt_dec (height src) (width src)) as [Hl|Hp].
  - rewrite (pad_4_3_landscape src Hl). cbv zeta. cbn [fst].
    destruct (round_div (width src * 3) 4 >? height src) eqn:H1.
    + eexists 0, _. exact (Hrows _ H1).
    + destruct (round_div (height src * 4) 3 >? width src) eqn:H2.
      * eexists _, 0. exact (Hcols _ H2).
      * exists 0, 0. exact Hsame.
  - rewrite (pad_4_3_portrait src ltac:(lia)). cbv zeta. cbn [fst].
    destruct (round_div (height src * 3) 4 >? width src) eqn:H1.
    + eexists _, 0. exact (Hcols _ H1).
    + destruct (round_div (width src * 4) 3 >? height src) eqn:H2.
      * eexists 0, _. exact (Hrows _ H2).
      * exists 0, 0. exact Hsame.
Qed.

(** X3.  [transform] returns the pixmap itself for no orientation and for
    the orientations 0 and 1.  For every other value it asks the toolkit
    for the pixmap transformed by a matrix [m], or by the transposed of
    [m] when [inverse] is set.  [m] is affine and its linear part has
    integer entries and is orthogonal: the picture is reflected or turned
    by a multiple of 90 degrees, never scaled or sheared.  When bit 2 of
    the orientation minus one is clear, [m] has no translation and its
    transposed is its inverse.  When the bit is set (the orientations 5 to
    8), [m] has the translation of [QTransform(0, 1, 1, 0, 1, 1)], up to
    the signs, and its transposed is neither affine nor the inverse of
    [m]. *)
Theorem transform_is_rigid (pixmap : QImage) (orientation : option Z) :
  (orientation = None \/ orientation = Some 0 \/ orientation = Some 1 ->
   forall inverse, transform tk pixmap orientation inverse = pixmap) /\
  (forall o, orientation = Some o -> o <> 0 -> o <> 1 ->
   exists m,
     transform tk pixmap orientation false = transformed tk pixmap m /\
     transform tk pixmap orientation true
     = transformed tk pixmap (transposed m) /\
     is_affine m = true /\
     m11 m * m11 m + m12 m * m12 m = 1 /\
     m21 m * m21 m + m22 m * m22 m = 1 /\
     m11 m * m21 m + m12 m * m22 m = 0 /\
     (Z.land (o - 1) 4 = 0 ->
        m31 m = 0 /\ m32 m = 0 /\ mul (transposed m) m = identity) /\
     (Z.land (o - 1) 4 <> 0 ->
        Z.abs (m31 m) = 1 /\ Z.abs (m32 m) = 1 /\
        is_affine (transposed m) = false /\
        mul (transposed m) m <> identity)).
Proof.
  split.
  - intros [->|[->| ->]] inverse; reflexivity.
  - intros o -> H0 H1. unfold transform.
    destruct (Z.eqb_spec o 0) as [|_]; [contradiction|].
    destruct (Z.eqb_spec (o - 1) 0) as [|_]; [lia|].
    destruct (Z.eqb_spec (Z.land (o - 1) 4) 0) as [H4|H4];
      destruct (Z.land (o - 1) 1 =? 0), (Z.land (o - 1) 2 =? 0);
      eexists; (split; [reflexivity|]); (split; [reflexivity|]);
      (split; [reflexivity|]); (split; [reflexivity|]);
      (split; [reflexivity|]); (split; [reflexivity|]);
      (split; intros H; [try contradiction|try contradiction]);
      repeat (split; try reflexivity); discriminate.
Qed.

(** X4.  [get_video_frame] gives no image when OpenCV is missing, the
    file does not open, no frame is read, or the frame has a number of
    channels other than 4, 3 and 1.  Otherwise the image has the width and
    the height of the frame.  A pixel of a frame of three channels holds
    its values in reverse order (BGR to RGB), a pixel of a frame of one
    channel three times its value.  For a frame of four channels the
    image is made in the format ARGB32 from the bytes A, R, G, B: on a
    big-endian machine the pixel has the alpha, red, green and blue of the
    frame; on a little-endian machine, where the format reads the bytes as
    B, G, R, A, the values are exchanged: its alpha is the blue of the
    frame, its red the green, its green the red and its blue the alpha. *)
Theorem get_video_frame_channels (video : Video) :
  let frame := snd (read video) in
  let channel := shape_channel frame in
  (get_video_frame video = None <->
   cv2 video = false \/ isOpened video = false \/ fst (read video) = false \/
   (channel <> 4 /\ channel <> 3 /\ channel <> 1)) /\
  (forall im, get_video_frame video = Some im ->
     width im = shape_width frame /\ height im = shape_height frame /\
     forall px py, inside im px py = true ->
       let v := value frame py px in
       pixel im px py
       = if channel =? 4 then
           if little_endian video then [v 0; v 1; v 2; v 3]
           else [v 3; v 2; v 1; v 0]
         else if channel =? 3 then [v 2; v 1; v 0]
         else [v 0; v 0; v 0]).
Proof.
  unfold get_video_frame.
  destruct (read video) as [ok frame] eqn:Hread. cbn [fst snd].
  destruct (cv2 video); cbn [negb];
    [|split; [split; auto|discriminate]].
  destruct (isOpened video); cbn [negb];
    [|split; [split; auto|discriminate]].
  destruct ok; cbn [negb]; [|split; [split; auto|discriminate]].
  destruct (Z.eqb_spec (shape_channel frame) 4) as [H4|H4].
  { split.
    - split; [discriminate|].
      intros [?|[?|[?|(? & _)]]]; congruence.
    - intros im [= <-]. cbn [width height from_array].
      split; [reflexivity|]. split; [reflexivity|].
      intros px py Hin. unfold inside, from_array in *.
      cbn [pixel width height] in *. rewrite Hin.
      destruct (little_endian video); reflexivity. }
  destruct (Z.eqb_spec (shape_channel frame) 3) as [H3|H3].
  { split.
    - split; [discriminate|].
      intros [?|[?|[?|(_ & ? & _)]]]; congruence.
    - intros im [= <-]. cbn [width height from_array].
      split; [reflexivity|]. split; [reflexivity|].
      intros px py Hin. unfold inside, from_array in *.
      cbn [pixel width height] in *. rewrite Hin. reflexivity. }
  destruct (Z.eqb_spec (shape_channel frame) 1) as [H1|H1].
  { split.
    - split; [discriminate|].
      intros [?|[?|[?|(_ & _ & ?)]]]; congruence.
    - intros im [= <-]. cbn [width height from_array].
      split; [reflexivity|]. split; [reflexivity|].
      intros px py Hin. unfold inside, from_array in *.
      cbn [pixel width height] in *. rewrite Hin. reflexivity. }
  split; [split; auto 10|discriminate].
Qed.

End ImageMore.

Section ImageMoreExamples.
Import Py Image.

(** A picture of 400 by 200 gets 50 blank rows above and below. *)
Lemma pad_4_3_keeps_pixels_witness :
  exists padx pady,
    padx = 0 /\ pady = 50 /\
    pixel (fst (pad_4_3 (grey 400 200))) (10 + padx) (20 + pady)
    = pixel (grey 400 200) 10 20.
Proof.
  destruct (pad_4_3_keeps_pixels (grey 400 200) eq_refl)
    as (padx & pady & Hx & Hy & _ & Hcx & Hcy & Hkeep & _).
  exists padx, pady.
  change (width (fst (pad_4_3 (grey 400 200)))) with 400 in Hcx.
  change (height (fst (pad_4_3 (grey 400 200)))) with 300 in Hcy.
  cbn [width height grey] in Hcx, Hcy.
  split; [lia|]. split; [lia|].
  apply Hkeep. reflexivity.
Defined.

End ImageMoreExamples.

(** ** The handlers of the selection *)

Section SelectionProofs.
Import Py ImageList Selection.

Lemma clear_selection_selected l im :
  In im (_clear_selection l) -> Image.selected im = false.
Proof.
  unfold _clear_selection. rewrite in_map_iff. intros (x & <- & _).
  unfold Image.get_selected. now destruct (Image.selected x) eqn:E.
Qed.

Lemma set_selected_In image value l im :
  In im (set_selected image value l) ->
  exists x, In x l /\ Image.ident im = Image.ident x /\
    Image.selected im
    = if Nat.eqb (Image.ident x) image then value else Image.selected x.
Proof.
  unfold set_selected. rewrite in_map_iff. intros (x & <- & Hx).
  exists x. split; [exact Hx|].
  destruct (Nat.eqb (Image.ident x) image); split; reflexivity.
Qed.

(** What [select_image(image)] leaves, called with neither flag. *)
Lemma select_image_only self image :
  exists self',
    select_image self image false false = Ok self' /\
    idents (images self') = idents (images self) /\
    (forall im, In im (images self') ->
       Image.selected im = Nat.eqb (Image.ident im) image) /\
    selection_anchor self' = Some image /\
    last_selected self' = Some image.
Proof.
  rewrite select_image_plain. eexists. split; [reflexivity|].
  cbn [images emit_selection emit set_last_selected set_selection_anchor
       set_images selection_anchor last_selected].
  split; [now rewrite set_selected_idents, clear_selection_idents|].
  split; [|split; reflexivity].
  intros im Him. apply set_selected_In in Him as (x & Hx & Hid & Hsel).
  rewrite Hsel, Hid. apply clear_selection_selected in Hx.
  now destruct (Nat.eqb (Image.ident x) image).
Qed.

(** X5.  A click on a thumbnail, the button pressed and released with a
    modifier that is neither Ctrl nor Shift: afterwards exactly the image
    clicked is selected, and it is the anchor and the image selected last,
    whatever was selected before.  Pressing the button on a selected image
    changes nothing, so that a drag can begin; releasing it clears the
    rest. *)
Theorem click_selects_one (modifiers : Modifiers) (self : t) (image : nat) :
  modifiers <> ControlModifier -> modifiers <> ShiftModifier ->
  exists pressed released,
    mousePressEvent modifiers self image = Ok pressed /\
    mouseReleaseEvent modifiers pressed image = Ok released /\
    (selected_of self image = true -> pressed = self) /\
    idents (images released) = idents (images self) /\
    (forall im, In im (images released) ->
       Image.selected im = Nat.eqb (Image.ident im) image) /\
    selection_anchor released = Some image /\
    last_selected released = Some image.
Proof.
  intros Hc Hs.
  assert (Hp : exists pressed,
             mousePressEvent modifiers self image = Ok pressed /\
             (selected_of self image = true -> pressed = self) /\
             idents (images pressed) = idents (images self)).
  { destruct modifiers; try contradiction; cbn [mousePressEvent];
      (destruct (selected_of self image); cbn [negb];
       [exists self; repeat split
       |destruct (select_image_only self image) as (s' & -> & Hid & _);
        exists s'; split; [reflexivity|split; [discriminate|exact Hid]]]). }
  destruct Hp as (pressed & Hpress & Hsame & Hid1).
  destruct (select_image_only pressed image)
    as (released & Hrel & Hid2 & Hsel & Ha & Hl).
  exists pressed, released. split; [exact Hpress|]. split.
  { destruct modifiers; try contradiction; exact Hrel. }
  split; [exact Hsame|]. split; [congruence|auto].
Qed.

(** X6.  A click with Ctrl toggles the image under the mouse and leaves
    the other images as they are; the image becomes the anchor and the
    image selected last, and releasing the button changes nothing.  A
    second click with Ctrl gives every image the state it had. *)
Theorem ctrl_click_toggles (self : t) (image : nat) :
  exists once twice,
    mousePressEvent ControlModifier self image = Ok once /\
    mouseReleaseEvent ControlModifier once image = Ok once /\
    images once
    = map (fun im =>
             if Nat.eqb (Image.ident im) image
             then Image.set_selected im (negb (Image.selected im)) else im)
          (images self) /\
    selection_anchor once = Some image /\
    last_selected once = Some image /\
    mousePressEvent ControlModifier once image = Ok twice /\
    images twice = images self.
Proof.
  assert (Hrun : forall s, exists s',
             mousePressEvent ControlModifier s image = Ok s' /\
             images s'
             = map (fun im =>
                      if Nat.eqb (Image.ident im) image
                      then Image.set_selected im (negb (Image.selected im))
                      else im) (images s) /\
             selection_anchor s' = Some image /\
             last_selected s' = Some image).
  { intros s. eexists. cbn [mousePressEvent]. unfold select_image.
    cbn [andb bind]. split; [reflexivity|].
    cbn [images emit_selection emit set_last_selected set_selection_anchor
         set_images selection_anchor last_selected].
    repeat split. }
  destruct (Hrun self) as (once & H1 & Hi1 & Ha & Hl).
  destruct (Hrun once) as (twice & H2 & Hi2 & _).
  exists once, twice.
  split; [exact H1|]. split; [reflexivity|]. split; [exact Hi1|].
  split; [exact Ha|]. split; [exact Hl|]. split; [exact H2|].
  rewrite Hi2, Hi1, map_map. rewrite <- (map_id (images self)) at 2.
  apply map_ext. intros im.
  destruct (Nat.eqb (Image.ident im) image) eqn:E.
  - cbn [Image.ident Image.set_selected Image.selected]. rewrite E.
    rewrite negb_involutive. destruct im; reflexivity.
  - now rewrite E.
Qed.

(** X7.  The arrow keys move the selection cyclically: with the image
    selected last at index [i] of [n] images, [_inc_selection(inc)] selects
    the image at index [(i + inc) mod n], so the image after the last is
    the first and the image before the first is the last.  With no image
    in the list the four shortcuts that move the selection raise
    IndexError. *)
Theorem inc_selection_wraps (self : t) :
  (forall last i inc extend_selection,
     last_selected self = Some last ->
     index (images self) (Some last) = Ok i ->
     exists image,
       nth_error (images self)
         (Z.to_nat ((i + inc) mod Z.of_nat (length (images self))))
       = Some image /\
       _inc_selection self inc extend_selection
       = select_image self (Image.ident image) extend_selection false) /\
  (images self = [] -> last_selected self = None ->
   move_to_prev_thumb self = Raise IndexError /\
   move_to_next_thumb self = Raise IndexError /\
   move_to_first_thumb self = Raise IndexError /\
   move_to_last_thumb self = Raise IndexError).
Proof.
  split.
  - intros last i inc ext Hlast Hidx.
    destruct (index_spec _ _ _ Hidx) as [Hi _].
    set (n := Z.of_nat (length (images self))) in *.
    pose proof (Z.mod_pos_bound (i + inc) n ltac:(lia)) as Hm.
    destruct (nth_error (images self) (Z.to_nat ((i + inc) mod n)))
      as [image|] eqn:Hn.
    2:{ apply nth_error_None in Hn. lia. }
    exists image. split; [reflexivity|].
    unfold _inc_selection. rewrite Hlast, Hidx. cbn [bind].
    fold n. unfold pymod. destruct (Z.eqb_spec n 0) as [?|_]; [lia|].
    cbn [bind]. unfold item. rewrite Hn. reflexivity.
  - intros Hnil Hnone.
    unfold move_to_prev_thumb, move_to_next_thumb, move_to_first_thumb,
      move_to_last_thumb, _inc_selection.
    rewrite Hnil, Hnone. repeat split.
Qed.

Lemma fold_set_selected selection :
  forall l,
    fold_left (fun l image => set_selected image true l) selection l
    = map (fun im =>
             if existsb (Nat.eqb (Image.ident im)) selection
             then Image.set_selected im true else im) l.
Proof.
  induction selection as [|x selection IH]; intros l; cbn [fold_left existsb].
  - now rewrite map_id.
  - rewrite IH. unfold set_selected. rewrite map_map. apply map_ext.
    intros im. destruct (Nat.eqb (Image.ident im) x) eqn:E.
    + cbn [Image.ident Image.set_selected orb].
      destruct (existsb _ selection); reflexivity.
    + cbn [orb]. reflexivity.
Qed.

(** X8.  [select_images] selects the images given and no other image of
    the list; the first image given becomes the anchor and the last one the
    image selected last, and for no image both are cleared. *)
Theorem select_images_exactly (self : t) (selection : list nat) :
  idents (images (select_images self selection)) = idents (images self) /\
  (forall im, In im (images (select_images self selection)) ->
     Image.selected im = existsb (Nat.eqb (Image.ident im)) selection) /\
  selection_anchor (select_images self selection)
  = List.hd_error selection /\
  last_selected (select_images self selection)
  = List.last (map Some selection) None.
Proof.
  unfold select_images. destruct selection as [|first selection].
  - cbn [images emit_selection emit set_last_selected set_selection_anchor
         set_images selection_anchor last_selected hd_error map List.last
         existsb].
    split; [apply clear_selection_idents|]. split; [|split; reflexivity].
    intros im. apply clear_selection_selected.
  - cbn [images emit_selection emit set_last_selected set_selection_anchor
         set_images selection_anchor last_selected hd_error].
    rewrite fold_set_selected.
    split.
    { rewrite <- (clear_selection_idents (images self)).
      unfold idents. rewrite map_map. apply map_ext. intros im.
      now destruct (existsb _ (first :: selection)). }
    split; [|split; reflexivity].
    intros im. rewrite in_map_iff. intros (x & <- & Hx).
    apply clear_selection_selected in Hx.
    destruct (existsb (Nat.eqb (Image.ident x)) (first :: selection)) eqn:E;
      cbn [Image.selected Image.ident Image.set_selected]; congruence.
Qed.

(** X9.  When [close_files] closes images, the selection moves to the
    image that takes the place of the first image closed: that image alone
    is selected, and it is the anchor and the image selected last.  When
    no image is left at that index, the images kept stay as they are and
    the anchor and the image selected last are cleared. *)
Theorem close_files_moves_selection (all_files : bool) (self : t) :
  NoDup (idents (images self)) ->
  filter (closing all_files) (images self) <> [] ->
  let kept := filter (fun im => negb (closing all_files im)) (images self) in
  exists first idx self',
    List.hd_error (filter (closing all_files) (images self)) = Some first /\
    index (images self) (Some (Image.ident first)) = Ok idx /\
    close_confirmed all_files self = Ok self' /\
    idents (images self') = idents kept /\
    match nth_error kept (Z.to_nat idx) with
    | Some next =>
        (forall im, In im (images self') ->
           Image.selected im = Nat.eqb (Image.ident im) (Image.ident next)) /\
        selection_anchor self' = Some (Image.ident next) /\
        last_selected self' = Some (Image.ident next)
    | None =>
        images self' = kept /\
        selection_anchor self' = None /\ last_selected self' = None
    end.
Proof.
  intros Hnd Hne kept. unfold close_confirmed. rewrite close_list_filter.
  destruct (filter (closing all_files) (images self)) as [|first rest] eqn:Hcl;
    [contradiction|].
  assert (Hin : In first (images self)).
  { apply list_elem_of_In.
    assert (H : first ∈ filter (closing all_files) (images self))
      by (rewrite Hcl; now left).
    now apply list_elem_of_filter in H as [_ H]. }
  destruct (index_from_In first _ Hin 0) as [idx Hidx].
  assert (Hidx' : index (images self) (Some (Image.ident first)) = Ok idx)
    by exact Hidx.
  destruct (index_spec _ _ _ Hidx') as [Hi _].
  exists first, idx. rewrite Hidx'. cbn [bind hd_error].
  rewrite <- Hcl.
  pose proof (remove_all_filter (closing all_files) (images self) [] Hnd)
    as Hrm.
  cbn [app] in Hrm. rewrite Hrm. clear Hrm.
  cbn [bind app images set_images]. fold kept.
  destruct ((0 <=? idx) && (idx <? Z.of_nat (length kept))) eqn:Hb.
  - unfold item. destruct (nth_error kept (Z.to_nat idx)) as [next|] eqn:Hn.
    2:{ apply nth_error_None in Hn. lia. }
    cbn [bind].
    destruct (select_image_only (set_images self kept) (Image.ident next))
      as (s' & -> & Hid & Hsel & Ha & Hl).
    cbn [bind]. eexists. split; [reflexivity|].
    split; [reflexivity|]. split; [reflexivity|].
    cbn [images emit selection_anchor last_selected].
    split; [exact Hid|]. split; [exact Hsel|]. split; assumption.
  - cbn [bind]. eexists. split; [reflexivity|].
    split; [reflexivity|]. split; [reflexivity|].
    cbn [images emit emit_selection set_last_selected set_selection_anchor
         set_images selection_anchor last_selected].
    split; [reflexivity|].
    destruct (nth_error kept (Z.to_nat idx)) as [next|] eqn:Hn.
    + assert (Z.to_nat idx < length kept)%nat
        by (apply nth_error_Some; congruence).
      lia.
    + repeat split.
Qed.

End SelectionProofs.

Section SelectionExamples.
Import Py ImageList Selection ImageListExample.

(** A click on the first of four images, two of which are selected. *)
Lemma click_selects_one_witness :
  exists pressed released,
    mousePressEvent NoModifier four_images 0 = Ok pressed /\
    mouseReleaseEvent NoModifier pressed 0 = Ok released /\
    map Image.selected (images released) = [true; false; false; false].
Proof.
  destruct (click_selects_one NoModifier four_images 0)
    as (pressed & released & Hp & Hr & _).
  - discriminate.
  - discriminate.
  - exists pressed, released. split; [exact Hp|]. split; [exact Hr|].
    vm_compute in Hp. injection Hp as <-.
    vm_compute in Hr. injection Hr as <-. reflexivity.
Defined.

(** The selected images of [four_images], the second and the third, are
    closed: the fourth image takes the place of the second and is
    selected. *)
Lemma close_files_moves_selection_witness :
  exists self',
    close_confirmed false four_images = Ok self' /\
    idents (images self') = [0; 3]%nat /\
    last_selected self' = Some 3%nat.
Proof.
  destruct (close_files_moves_selection false four_images)
    as (first & idx & self' & Hhd & Hidx & Hrun & Hid & Hsel).
  - cbn. compute_done.
  - discriminate.
  - exists self'. split; [exact Hrun|]. split; [exact Hid|].
    vm_compute in Hhd. injection Hhd as <-.
    vm_compute in Hidx. injection Hidx as <-.
    exact (proj2 (proj2 Hsel)).
Defined.

(** From the third of four images, the image selected last, one step
    forward. *)
Lemma inc_selection_wraps_witness :
  exists image,
    nth_error (images four_images) 3 = Some image /\
    _inc_selection four_images 1 false
    = select_image four_images (Image.ident image) false false.
Proof.
  exact (proj1 (inc_selection_wraps four_images) 2%nat 2 1 false
           eq_refl eq_refl).
Defined.

End SelectionExamples.

(** ** More on the import sources *)

Section ListingProofs.
Import Py Importer ImporterSpec Listing.

Variable E : Env.

(** *** Dictionaries filled entry by entry *)

Lemma find_app {A} (f : A -> bool) l1 l2 :
  find f (l1 ++ l2)%list
  = match find f l1 with Some x => Some x | None => find f l2 end.
Proof.
  induction l1 as [|x l1 IH]; cbn [app find]; [reflexivity|].
  now destruct (f x).
Qed.

Lemma Dict_get_set {V} k k' (v : V) d :
  Dict.get k' (Dict.set k v d)
  = if String.eqb k k' then Some v else Dict.get k' d.
Proof.
  destruct (String.eqb_spec k k') as [->|Hne].
  - apply Dict_get_set_eq.
  - now apply Dict_get_set_ne.
Qed.

Lemma Dict_keys_set {V} k (v : V) d :
  (In k (Dict.keys d) /\ Dict.keys (Dict.set k v d) = Dict.keys d) \/
  (~ In k (Dict.keys d) /\
   Dict.keys (Dict.set k v d) = (Dict.keys d ++ [k])%list).
Proof.
  unfold Dict.keys.
  induction d as [|[k0 v0] d IH]; cbn [Dict.set map fst].
  - right. split; [intros []|reflexivity].
  - destruct (String.eqb_spec k0 k) as [->|Hne]; cbn [map fst].
    + left. split; [now left|reflexivity].
    + destruct IH as [[Hin Heq]|[Hnin Heq]].
      * left. split; [now right|now rewrite Heq].
      * right. split; [|cbn [app]; now rewrite Heq].
        intros [H|H]; [congruence|contradiction].
Qed.

Lemma Dict_keys_set_NoDup {V} k (v : V) d :
  NoDup (Dict.keys d) -> NoDup (Dict.keys (Dict.set k v d)).
Proof.
  intros Hnd. destruct (Dict_keys_set k v d) as [[_ ->]|[Hnin ->]];
    [exact Hnd|].
  apply NoDup_app. split; [exact Hnd|]. split; [|apply NoDup_singleton].
  intros x Hx Hx'. apply list_elem_of_In in Hx, Hx'.
  destruct Hx' as [<-|[]]. contradiction.
Qed.

Section Filled.
Context {A V : Type} (key : A -> string) (val : A -> V).

Lemma fill_NoDup l :
  forall d,
    NoDup (Dict.keys d) ->
    NoDup (Dict.keys
             (fold_left (fun d p => Dict.set (key p) (val p) d) l d)).
Proof.
  induction l as [|p l IH]; intros d Hd; cbn [fold_left]; [exact Hd|].
  apply IH. now apply Dict_keys_set_NoDup.
Qed.

(** The entry of a key is that of the last element with this key. *)
Lemma fill_get l :
  forall d k,
    Dict.get k (fold_left (fun d p => Dict.set (key p) (val p) d) l d)
    = match find (fun p => String.eqb (key p) k) (rev l) with
      | Some p => Some (val p)
      | None => Dict.get k d
      end.
Proof.
  induction l as [|p l IH]; intros d k; cbn [fold_left rev find];
    [reflexivity|].
  rewrite IH, find_app. cbn [find].
  destruct (find (fun p => String.eqb (key p) k) (rev l)); [reflexivity|].
  rewrite Dict_get_set.
  now destruct (String.eqb (key p) k).
Qed.

End Filled.

(** X10.  [FolderSource.get_file_data] returns [None] exactly when the
    root is not a directory.  Otherwise the listing has one entry for each
    name of an image file found under the root: the entry of a name is
    that of the last file found with this name, so of two files of the
    same name in different folders only the one found later is listed. *)
Theorem folder_listing_by_name (root : string) (s : t) :
  (folder_get_file_data E root s = None <-> isdir s root = false) /\
  forall file_data,
    folder_get_file_data E root s = Some file_data ->
    NoDup (Dict.keys file_data) /\
    forall name,
      Dict.get name file_data
      = option_map (folder_entry E)
          (find (fun path => String.eqb (Path.basename path) name)
             (rev (found E root))).
Proof.
  unfold folder_get_file_data. destruct (isdir s root); cbn [negb].
  2:{ split; [tauto|discriminate]. }
  split; [split; discriminate|].
  intros file_data [= <-].
  change (fold_left _ _ [])
    with (fold_left
            (fun d p => Dict.set (Path.basename p) (folder_entry E p) d)
            (found E root) (@nil (string * FileData.t))).
  split.
  - apply (fill_NoDup Path.basename (folder_entry E)). apply NoDup_nil_2.
  - intros name. rewrite (fill_get Path.basename (folder_entry E)).
    now destruct (find _ (rev (found E root))).
Qed.

(** [CameraSource.get_file_data] over the list of the paths. *)
Lemma camera_file_data_spec model file_list :
  forall acc,
    match camera_file_data E model file_list acc with
    | None =>
        exists path, In path file_list /\
          camera_mtime E (fst (Path.split path)) (snd (Path.split path)) = None
    | Some file_data =>
        (forall path, In path file_list ->
           is_Some (camera_mtime E (fst (Path.split path))
                      (snd (Path.split path)))) /\
        (NoDup (Dict.keys acc) -> NoDup (Dict.keys file_data)) /\
        forall name,
          Dict.get name file_data
          = match find (fun path => String.eqb (snd (Path.split path)) name)
                    (rev file_list) with
            | Some path =>
                option_map (camera_entry model path)
                  (camera_mtime E (fst (Path.split path))
                     (snd (Path.split path)))
            | None => Dict.get name acc
            end
    end.
Proof.
  induction file_list as [|path l IH]; intros acc; cbn [camera_file_data].
  - split; [intros ? []|]. split; [auto|reflexivity].
  - destruct (Path.split path) as [folder name0] eqn:Hsplit.
    destruct (camera_mtime E folder name0) as [ts|] eqn:Hts.
    2:{ exists path. split; [now left|]. now rewrite Hsplit. }
    match goal with
    | |- context [camera_file_data E model l ?acc'] =>
        specialize (IH acc'); destruct (camera_file_data E model l acc')
          as [file_data|]
    end.
    + destruct IH as (Hall & Hnd & Hget). split; [|split].
      * intros p [<-|Hp]; [|now apply Hall].
        rewrite Hsplit. cbn [fst snd]. rewrite Hts. eauto.
      * intros Hacc. apply Hnd. now apply Dict_keys_set_NoDup.
      * intros name. rewrite Hget. cbn [rev]. rewrite find_app. cbn [find].
        destruct (find _ (rev l)); [reflexivity|].
        rewrite Dict_get_set, Hsplit. cbn [fst snd].
        destruct (String.eqb name0 name); [|reflexivity].
        unfold camera_entry. rewrite Hsplit. cbn [fst snd].
        rewrite Hts. reflexivity.
    + destruct IH as (p & Hp & Hnone). exists p. split; [now right|exact Hnone].
Qed.

(** X11.  [CameraSource.get_file_data] opens a session with the camera
    and leaves it by [camera.exit()].  It raises exactly when the session
    cannot be opened, for an error of the library or because the camera
    at the port is another model (a RuntimeError), or when [camera.exit()]
    raises.  Otherwise it is all or nothing: it returns [None] exactly
    when the camera does not list its files or the information of one of
    the files cannot be read, and else a listing with one entry for each
    file name, that of the last file listed with this name. *)
Theorem camera_listing_all_or_nothing (model port_name : string) :
  (forall e,
     session E model port_name = Raise e <->
     camera_init E port_name = Raise e \/
     exists found,
       camera_init E port_name = Ok found /\ found <> model /\
       e = RuntimeError) /\
  (forall e,
     camera_get_file_data E model port_name = Raise e <->
     session E model port_name = Raise e \/
     session E model port_name = Ok tt /\ camera_exit E = Raise e) /\
  (camera_get_file_data E model port_name = Ok None <->
   session E model port_name = Ok tt /\ camera_exit E = Ok tt /\
   (camera_files E = None \/
    exists file_list path,
      camera_files E = Some file_list /\ In path file_list /\
      camera_mtime E (fst (Path.split path)) (snd (Path.split path)) = None)) /\
  forall file_list file_data,
    camera_files E = Some file_list ->
    camera_get_file_data E model port_name = Ok (Some file_data) ->
    NoDup (Dict.keys file_data) /\
    forall name,
      Dict.get name file_data
      = match find (fun path => String.eqb (snd (Path.split path)) name)
                (rev file_list) with
        | Some path =>
            option_map (camera_entry model path)
              (camera_mtime E (fst (Path.split path)) (snd (Path.split path)))
        | None => None
        end.
Proof.
  assert (Hlisting :
    (camera_listing E model = None <->
     camera_files E = None \/
     exists file_list path,
       camera_files E = Some file_list /\ In path file_list /\
       camera_mtime E (fst (Path.split path)) (snd (Path.split path)) = None)
    /\
    forall file_list file_data,
      camera_files E = Some file_list ->
      camera_listing E model = Some file_data ->
      NoDup (Dict.keys file_data) /\
      forall name,
        Dict.get name file_data
        = match find (fun path => String.eqb (snd (Path.split path)) name)
                  (rev file_list) with
          | Some path =>
              option_map (camera_entry model path)
                (camera_mtime E (fst (Path.split path))
                   (snd (Path.split path)))
          | None => None
          end).
  { unfold camera_listing.
    destruct (camera_files E) as [file_list|].
    2:{ split; [split; auto|discriminate]. }
    pose proof (camera_file_data_spec model file_list []) as H.
    destruct (camera_file_data E model file_list []) as [file_data|].
    - destruct H as (Hall & Hnd & Hget). split.
      + split; [discriminate|].
        intros [?|(l & p & [= <-] & Hp & Hnone)]; [discriminate|].
        destruct (Hall p Hp) as [ts Hts]. congruence.
      + intros l fd [= <-] [= <-]. split; [apply Hnd, NoDup_nil_2|exact Hget].
    - destruct H as (p & Hp & Hnone). split.
      + split; [|reflexivity]. intros _. right. now exists file_list, p.
      + discriminate. }
  destruct Hlisting as [Hnone Hsome].
  split.
  { intros e. unfold session.
    destruct (camera_init E port_name) as [found|e0]; cbn [bind].
    - destruct (String.eqb_spec found model) as [->|Hne]; cbn [negb].
      + split; [discriminate|].
        intros [?|(f & [= <-] & Hf & _)]; [discriminate|contradiction].
      + split.
        * intros [= <-]. right. now exists found.
        * intros [?|(f & _ & _ & ->)]; [discriminate|reflexivity].
    - split.
      + intros [= <-]. now left.
      + intros [[= <-]|(f & ? & _)]; [reflexivity|discriminate]. }
  unfold camera_get_file_data.
  destruct (session E model port_name) as [[]|e0]; cbn [bind].
  2:{ split; [|split; [|discriminate]].
      - intros e. split; [intros [= <-]; now left|].
        intros [[= <-]|[? _]]; [reflexivity|discriminate].
      - split; [discriminate|]. intros [? _]. discriminate. }
  destruct (camera_exit E) as [[]|e0]; cbn [bind].
  2:{ split; [|split; [|discriminate]].
      - intros e. split; [intros [= <-]; now right|].
        intros [?|[_ [= <-]]]; [discriminate|reflexivity].
      - split; [discriminate|]. intros (_ & ? & _). discriminate. }
  split; [|split].
  - intros e. split; [discriminate|]. intros [?|[_ ?]]; discriminate.
  - split.
    + intros [= H]. repeat split. now apply Hnone.
    + intros (_ & _ & H). f_equal. now apply Hnone.
  - intros file_list file_data Hfiles [= H]. now apply Hsome.
Qed.

End ListingProofs.

(** ** More on [Importer] *)

Section ImporterMoreProofs.
Import Py Importer ImporterSpec Listing.

Variable E : Env.

(** *** [copy_files] *)

(** X12.  A step of [copy_files], for a folder or a camera and whatever
    its outcome, deletes nothing: every file and directory that existed
    still exists.  The only file that can be new is the destination of the
    entry or, for a folder and a destination that is a directory, the file
    in it with the base name of the source, as [shutil.copy2] writes it.
    A directory that is new is the directory of the destination or a
    directory above it: its path begins the path of that directory.  When
    the entry is yielded, it is the entry given and that file is there;
    the directory of the destination is a directory, unless its name ends
    with ['.'] or with a separator, for which [os.makedirs] makes the
    directories above only. *)
Theorem copy_file_adds_only (src : Source.t) (info : FileData.t) (s : t) :
  let s' := snd (copy_file E src info s) in
  let into (d p : string) :=
    exists root path,
      src = Source.FolderSource root /\
      FileData.path info = Some path /\ d ∈ dirs (world s') /\
      p = Path.join d (Path.basename path) in
  files (world s) ⊆ files (world s') /\
  dirs (world s) ⊆ dirs (world s') /\
  (forall p, p ∈ files (world s') ->
     p ∈ files (world s) \/
     exists d, FileData.dest_path info = Some d /\ (p = d \/ into d p)) /\
  (forall p, p ∈ dirs (world s') ->
     p ∈ dirs (world s) \/
     exists d, FileData.dest_path info = Some d /\
       String.prefix p (Path.dirname d) = true) /\
  (forall item, fst (copy_file E src info s) = Ok (Some item) ->
     item = info /\
     exists d p, FileData.dest_path info = Some d /\
       (p = d \/ into d p) /\ p ∈ files (world s') /\
       (Path.dirname d ∈ dirs (world s') \/
        Path.basename (Path.dirname d) = "." \/
        Path.basename (Path.dirname d) = "")).
Proof.
  intros s' into. subst s' into.
  destruct (copy_file_cases E src info s) as (D & Hsome & Hnone & Hcases).
  assert (Hsub : dirs (world s) ⊆ D).
  { destruct (FileData.dest_path info) as [d|].
    - now destruct (Hsome d eq_refl).
    - now rewrite (Hnone eq_refl). }
  assert (Hnew : forall p, p ∈ D ->
            p ∈ dirs (world s) \/
            exists d, FileData.dest_path info = Some d /\
              String.prefix p (Path.dirname d) = true).
  { intros p Hp. destruct (FileData.dest_path info) as [d|].
    - destruct (Hsome d eq_refl) as [_ Hall].
      destruct (Hall p Hp); [now left|right; now exists d].
    - left. now rewrite (Hnone eq_refl) in Hp. }
  destruct Hcases as [(d & target & Hd & Ht & Hrun & Hdir)|[Hrun|(e & Hrun)]].
  - rewrite Hrun. cbn [fst snd write_file mbind modify emit world set_world
                       files dirs set_files set_trace set_dirs].
    split; [apply union_subseteq_r|]. split; [exact Hsub|].
    split.
    { intros p Hp. apply elem_of_union in Hp as [Hp|Hp]; [|now left].
      apply elem_of_singleton in Hp as ->. right. now exists d. }
    split; [exact Hnew|].
    intros item [= <-]. split; [reflexivity|]. exists d, target.
    split; [exact Hd|]. split; [exact Ht|]. split; [|exact Hdir].
    apply elem_of_union. left. now apply elem_of_singleton.
  - destruct src as [root|model port_name].
    + rewrite Hrun. cbn [fst snd].
      split; [reflexivity|]. split; [reflexivity|].
      split; [now left|]. split; [now left|]. discriminate.
    + destruct Hrun as (folder & ex & _ & _ & ->).
      cbn [fst snd logger_error modify set_log' world set_world files dirs
           set_log set_dirs].
      split; [reflexivity|]. split; [exact Hsub|].
      split; [now left|]. split; [exact Hnew|]. discriminate.
  - rewrite Hrun. cbn [fst snd world set_world files dirs set_dirs].
    split; [reflexivity|]. split; [exact Hsub|].
    split; [now left|]. split; [exact Hnew|]. discriminate.
Qed.

(** *** [select_all] and [select_new] *)

(** A time stamp is [datetime.min] or later. *)
Lemma min_or_later d :
  DateTime.valid d = true ->
  DateTime.ltb DateTime.min d = true \/ d = DateTime.min.
Proof.
  intros Hv. apply valid_bounds in Hv.
  destruct d as [y m d h mi s us].
  cbn [DateTime.year DateTime.month DateTime.day DateTime.hour
       DateTime.minute DateTime.second DateTime.microsecond] in Hv.
  unfold DateTime.ltb, DateTime.fields, DateTime.min.
  cbn [DateTime.year DateTime.month DateTime.day DateTime.hour
       DateTime.minute DateTime.second DateTime.microsecond DateTime.lex_ltb].
  destruct (Z.ltb_spec 1 y); [now left|].
  destruct (Z.eqb_spec 1 y); [|lia]. cbn [orb andb].
  destruct (Z.ltb_spec 1 m); [now left|].
  destruct (Z.eqb_spec 1 m); [|lia]. cbn [orb andb].
  destruct (Z.ltb_spec 1 d); [now left|].
  destruct (Z.eqb_spec 1 d); [|lia]. cbn [orb andb].
  destruct (Z.ltb_spec 0 h); [now left|].
  destruct (Z.eqb_spec 0 h); [|lia]. cbn [orb andb].
  destruct (Z.ltb_spec 0 mi); [now left|].
  destruct (Z.eqb_spec 0 mi); [|lia]. cbn [orb andb].
  destruct (Z.ltb_spec 0 s); [now left|].
  destruct (Z.eqb_spec 0 s); [|lia]. cbn [orb andb].
  destruct (Z.ltb_spec 0 us); [now left|].
  right. f_equal; lia.
Qed.

(** X13.  [select_all] selects the items of the file list that can be
    selected and whose entry has a time stamp later than [datetime.min],
    and deselects the others: every selectable item, but for a file dated
    exactly [datetime.min]. *)
Theorem select_all_selects (s : t) :
  Forall (fun item => is_Some (Dict.get (data item) (file_data s)))
    (file_list_widget (ui s)) ->
  exists s',
    select_all s = (Ok tt, s') /\
    file_data s' = file_data s /\
    file_list_widget (ui s')
    = map (fun item =>
             setSelected (selectable item && newer s DateTime.min item) item)
          (file_list_widget (ui s)) /\
    forall item info,
      Dict.get (data item) (file_data s) = Some info ->
      DateTime.valid (FileData.timestamp info) = true ->
      newer s DateTime.min item = true \/
      FileData.timestamp info = DateTime.min.
Proof.
  intros Hall.
  destruct (select_files_spec DateTime.min s Hall) as (s' & Hrun & Hw & Hd).
  exists s'. unfold select_all, catch_all. rewrite Hrun.
  split; [reflexivity|]. split; [exact Hd|]. split; [exact Hw|].
  intros item info Hget Hv. unfold newer. rewrite Hget.
  now apply min_or_later.
Qed.

Lemma valid_min : DateTime.valid DateTime.min = true.
Proof. reflexivity. Qed.

(** X14.  Without a source, or while nothing is stored as [last_transfer]
    for the section of the source, [select_new] does what [select_all]
    does: the default it reads back is [datetime.min]. *)
Theorem select_new_first_time (s : t) :
  source s = None \/
  (exists section,
     config_section s = Some section /\
     config_store (world s) !! (section, "last_transfer") = None) ->
  select_new s = select_all s.
Proof.
  intros H. unfold select_new, select_all, catch_all. rewrite bind_get.
  destruct (source s) as [src|].
  - destruct H as [H|(section & Hsec & Hcfg)]; [discriminate|].
    rewrite Hsec, bind_assoc, bind_ret. unfold config_get.
    rewrite !bind_assoc, bind_get, bind_ret, Hcfg. unfold default, id.
    cbn [from_option].
    rewrite (strptime_isoformat DateTime.min valid_min), bind_lift_ok.
    reflexivity.
  - rewrite bind_ret. reflexivity.
Qed.

(** *** [copy_selected] without a source *)

(** X15.  [copy_selected] called while no source is selected sets
    [import_in_progress] and then fails on [self.source.copy_files]: the
    AttributeError is logged by [catch_all], nothing is copied, the button
    stays checked and the flag is never reset.  From then on
    [do_not_close] asks the user, and every [copy_selected] finds the flag
    set: it releases the button and does nothing else. *)
Theorem copy_selected_without_source (s : t) (copy_list : list FileData.t) :
  import_in_progress s = false ->
  source s = None ->
  copy_list_of (file_data s) (file_list_widget (ui s)) = Ok copy_list ->
  copy_selected E s
  = (Ok tt,
     set_log' (fun l => l ++ [Exception AttributeError])%list
       (set_import_in_progress true s)) /\
  (forall answer,
     do_not_close answer (snd (copy_selected E s))
     = (true, match answer with Cancel => true | Close => false end)) /\
  (forall s', import_in_progress s' = true ->
     copy_selected E s'
     = (Ok tt, set_ui (set_copy_button false (ui s')) s')).
Proof.
  intros Hip Hsrc Hcl.
  assert (Hrun : copy_selected E s
                 = (Ok tt,
                    set_log' (fun l => l ++ [Exception AttributeError])%list
                      (set_import_in_progress true s))).
  { unfold copy_selected, catch_all. rewrite bind_get, Hip.
    rewrite bind_modify, Hcl, bind_lift_ok, Hsrc. reflexivity. }
  split; [exact Hrun|]. split.
  - intros answer. rewrite Hrun. reflexivity.
  - intros s' Hs'. unfold copy_selected, catch_all.
    rewrite bind_get, Hs'. reflexivity.
Qed.

(** *** [show_file_list] *)



(** *** [refresh] *)

Lemma itemData_AddFolder w idx :
  0 <= idx ->
  (itemData w idx = Some AddFolder <-> idx = count w - 1) /\
  (itemData w idx = Some NewFileList <-> idx = 0).
Proof.
  intros Hidx. unfold itemData, count.
  destruct (Z.eqb_spec idx 0) as [->|H0].
  { split; split; try discriminate; try reflexivity; lia. }
  destruct (Z.leb_spec 1 idx); [|lia].
  destruct (Z.leb_spec idx (Z.of_nat (length (entries w)))); cbn [andb].
  - destruct (nth_error (entries w) (Z.to_nat (idx - 1))) as [[src sec]|]
      eqn:Hn.
    + split; split; try discriminate; lia.
    + apply nth_error_None in Hn. lia.
  - destruct (Z.eqb_spec idx (Z.of_nat (length (entries w)) + 1)).
    + split; split; try discriminate; try reflexivity; lia.
    + split; split; try discriminate; lia.
Qed.

Lemma get_camera_list_Permutation :
  Permutation (get_camera_list E) (if gp E then autodetect E else []).
Proof.
  unfold get_camera_list. destruct (gp E); cbn [negb]; [|reflexivity].
  induction (autodetect E) as [|x l IH]; cbn [Sort.sort]; [reflexivity|].
  rewrite <- IH at 2.
  generalize (Sort.sort (fun a b => String.ltb (fst a) (fst b)) l).
  intros l'. induction l' as [|y l' IH']; cbn [Sort.insert]; [reflexivity|].
  destruct (String.ltb (fst y) (fst x)); [|reflexivity].
  rewrite IH'. apply perm_swap.
Qed.

(** X17.  [refresh] rebuilds the entries of the source selector, one for
    each camera detected followed by the configured folders that are
    directories, in the order of the configuration, and
    never finds the source that was selected again, since the sources are
    new objects: the selector goes back to the first item ['<select
    source>'] (to the last item if that was the current one) without
    [new_source] being called, so that the source, its file data and the
    file list shown stay as they were.  If the text of the folders cannot
    be evaluated, the exception is logged and the signals of the selector
    are left blocked. *)
Theorem refresh_keeps_source (s : t) :
  let text :=
    default "[]" (config_store (world s) !! ("importer", "folders")) in
  let s' := snd (refresh E s) in
  exists detected cameras,
  Permutation detected (if gp E then autodetect E else []) /\
  cameras
  = map (fun '(model, port_name) =>
           (Source.CameraSource model port_name, "importer " ++ model))
        detected /\
  fst (refresh E s) = Ok tt /\
  source s' = source s /\ config_section s' = config_section s /\
  file_data s' = file_data s /\ file_list s' = file_list s /\
  file_list_widget (ui s') = file_list_widget (ui s) /\
  path_format (ui s') = path_format (ui s) /\
  config_store (world s') = config_store (world s) /\
  trace (world s') = trace (world s) /\
  list_files_timer (world s') = list_files_timer (world s) /\
  match eval_list E text with
  | Ok folders =>
      entries (ui s')
      = app cameras
          (map (fun root =>
                  (Source.FolderSource root, "importer folder " ++ root))
             (List.filter (isdir s) folders)) /\
      currentIndex (ui s')
      = (if (0 <? currentIndex (ui s))
            && (currentIndex (ui s) =? count (ui s) - 1)
         then count (ui s') - 1 else 0) /\
      signalsBlocked (ui s') = signalsBlocked (ui s) /\
      log (world s') = log (world s)
  | Raise e =>
      entries (ui s') = cameras /\
      currentIndex (ui s') = 0 /\
      signalsBlocked (ui s') = true /\
      log (world s') = (log (world s) ++ [Exception e])%list
  end.
Proof.
  intros text s'. subst s'.
  exists (get_camera_list E).
  set (cameras :=
         map (fun '(model, port_name) =>
                (Source.CameraSource model port_name, "importer " ++ model))
             (get_camera_list E)).
  exists cameras.
  split; [apply get_camera_list_Permutation|]. split; [reflexivity|].
  remember (refresh E s) as out eqn:Hrun.
  unfold refresh, catch_all, rebuild in Hrun.
  rewrite bind_get, bind_modify, bind_modify, bind_modify in Hrun.
  unfold config_get in Hrun. rewrite bind_assoc, bind_get, bind_ret in Hrun.
  cbn [world set_ui] in Hrun. fold text in Hrun. fold cameras in Hrun.
  destruct (eval_list E text) as [folders|e].
  2:{ cbn [lift mbind fst snd] in Hrun. subst out. repeat split. }
  rewrite bind_lift_ok, bind_get, bind_modify, bind_get in Hrun.
  cbn [ui set_ui] in Hrun.
  set (old := if currentIndex (ui s) >=? 0
              then itemData (ui s) (currentIndex (ui s)) else None) in Hrun.
  assert (Hold : (same_item_data AddFolder old = true <->
                  0 < currentIndex (ui s) /\
                  currentIndex (ui s) = count (ui s) - 1) /\
                 (same_item_data NewFileList old = true ->
                  currentIndex (ui s) = 0)).
  { subst old. unfold Z.geb.
    destruct (Z.compare_spec (currentIndex (ui s)) 0) as [H0|Hlt|Hgt].
    - destruct (itemData_AddFolder (ui s) (currentIndex (ui s)))
        as (Ha & Hn); [lia|].
      rewrite H0 in *. unfold count.
      split; [split; [|lia]|reflexivity].
      destruct (itemData (ui s) 0) as [[]|]; cbn; try discriminate.
      intros _. pose proof (proj1 Ha eq_refl). unfold count in *. lia.
    - cbn. split; [split; [discriminate|lia]|discriminate].
    - destruct (itemData_AddFolder (ui s) (currentIndex (ui s)))
        as (Ha & Hn); [lia|].
      split; [split|].
      + destruct (itemData (ui s) (currentIndex (ui s))) as [[]|];
          cbn; try discriminate.
        intros _. split; [lia|]. now apply Ha.
      + intros (_ & Hc). apply Ha in Hc. rewrite Hc. reflexivity.
      + destruct (itemData (ui s) (currentIndex (ui s))) as [[]|];
          cbn; try discriminate.
        intros _. now apply Hn. }
  destruct Hold as (Hadd & Hnew). clearbody old.
  unfold count in Hrun.
  cbn [entries set_entries set_currentIndex set_signalsBlocked] in Hrun.
  destruct (same_item_data NewFileList old) eqn:Hn.
  { specialize (Hnew eq_refl). rewrite Hnew.
    cbn [Z.geb Z.compare Z.ltb when andb] in Hrun.
    rewrite bind_modify, bind_modify in Hrun. cbn [ret] in Hrun.
    subst out. repeat split. }
  destruct (same_item_data AddFolder old) eqn:Ha.
  - destruct (proj1 Hadd eq_refl) as (Hpos & Hc).
    apply Z.ltb_lt in Hpos. rewrite Hpos.
    rewrite (proj2 (Z.eqb_eq _ _) Hc). cbn [andb].
    match type of Hrun with
    | context [Z.of_nat (length ?l) + 2 - 1 >=? 0] =>
        assert (Hge : (Z.of_nat (length l) + 2 - 1 >=? 0) = true)
          by (rewrite Z.geb_leb; apply Z.leb_le; lia);
        assert (Hlt : (Z.of_nat (length l) + 2 - 1 <? 0) = false)
          by (apply Z.ltb_ge; lia)
    end.
    rewrite Hge, Hlt in Hrun. cbn [when] in Hrun.
    rewrite bind_modify, bind_modify in Hrun. cbn [ret] in Hrun.
    subst out. repeat split.
  - assert (Hf : (0 <? currentIndex (ui s))
                 && (currentIndex (ui s) =? count (ui s) - 1) = false).
    { apply not_true_iff_false. intros H.
      apply andb_true_iff in H. destruct H as (H1 & H2).
      apply Z.ltb_lt in H1. apply Z.eqb_eq in H2.
      pose proof (proj2 Hadd (conj H1 H2)). discriminate. }
    rewrite Hf. cbn [Z.geb Z.compare Z.ltb when Z.opp] in Hrun.
    rewrite bind_ret, bind_modify in Hrun.
    unfold setCurrentIndex in Hrun. rewrite bind_get in Hrun.
    unfold count in Hrun.
    cbn [ui set_ui entries set_entries set_signalsBlocked
         currentIndex set_currentIndex] in Hrun.
    match type of Hrun with
    | context [(0 <=? 0) && (0 <? Z.of_nat (length ?l) + 2)] =>
        assert (Hin : (0 <=? 0) && (0 <? Z.of_nat (length l) + 2) = true)
          by (apply andb_true_iff; split;
              [reflexivity|apply Z.ltb_lt; lia])
    end.
    rewrite Hin in Hrun. cbn [Z.eqb ret] in Hrun.
    subst out. repeat split.
Qed.

End ImporterMoreProofs.

(** ** The memory card of [ImporterExample] *)

Section ImporterMoreExamples.
Import Py Importer ImporterSpec ImporterExample Listing.

(** The pictures of the card, listed by name. *)
Lemma folder_listing_by_name_witness :
  exists file_data,
    folder_get_file_data (sd_card never) "/sd" (chosen never)
    = Some file_data /\
    NoDup (Dict.keys file_data) /\
    Dict.get "b.JPG" file_data
    = Some (folder_entry (sd_card never) "/sd/b.JPG") /\
    Dict.get "d.txt" file_data = None.
Proof.
  destruct (folder_get_file_data (sd_card never) "/sd" (chosen never))
    as [file_data|] eqn:Hrun; [|vm_compute in Hrun; discriminate].
  destruct (proj2 (folder_listing_by_name (sd_card never) "/sd"
                     (chosen never)) file_data Hrun) as (Hnd & Hget).
  exists file_data. split; [reflexivity|]. split; [exact Hnd|].
  split; rewrite Hget; vm_compute; reflexivity.
Defined.

(** The three pictures are listed, two of them selected: [select_all]
    selects the three. *)
Lemma select_all_selects_witness :
  exists s',
    select_all (pressed never) = (Ok tt, s') /\
    file_data s' = file_data (pressed never) /\
    map selected (file_list_widget (ui s')) = [true; true; true].
Proof.
  destruct (select_all_selects (pressed never)) as (s' & Hrun & Hfd & Hw & _).
  - apply (bool_decide_unpack _). vm_compute. exact I.
  - exists s'. split; [exact Hrun|]. split; [exact Hfd|].
    rewrite Hw. vm_compute. reflexivity.
Defined.

(** Nothing was copied from the card yet. *)
Lemma select_new_first_time_witness :
  source (pressed never) <> None /\
  select_new (pressed never) = select_all (pressed never).
Proof.
  split; [discriminate|].
  apply select_new_first_time. right.
  exists "importer folder /sd". split; vm_compute; reflexivity.
Defined.

(** The button is pressed before a source is chosen. *)
Lemma copy_selected_without_source_witness :
  import_in_progress
    (snd (copy_selected (sd_card never)
            (snd (__init__ (sd_card never) "/home/u/Pictures" start))))
  = true /\
  do_not_close Cancel
    (snd (copy_selected (sd_card never)
            (snd (__init__ (sd_card never) "/home/u/Pictures" start))))
  = (true, true).
Proof.
  destruct (copy_selected_without_source (sd_card never)
              (snd (__init__ (sd_card never) "/home/u/Pictures" start)) [])
    as (Hrun & Hclose & _).
  - vm_compute. reflexivity.
  - vm_compute. reflexivity.
  - vm_compute. reflexivity.
  - split; [rewrite Hrun; reflexivity|apply Hclose].
Defined.

End ImporterMoreExamples.

(** ** Sorting the thumbnails *)

Section StringOrder.

Lemma ascii_compare_refl c : Ascii.compare c c = Eq.
Proof. unfold Ascii.compare. apply N.compare_refl. Qed.

Lemma ascii_compare_lt_trans a b c :
  Ascii.compare a b = Lt -> Ascii.compare b c = Lt -> Ascii.compare a c = Lt.
Proof.
  unfold Ascii.compare. rewrite !N.compare_lt_iff. apply N.lt_trans.
Qed.

Lemma string_compare_refl s : String.compare s s = Eq.
Proof.
  induction s as [|c s IH]; cbn [String.compare]; [reflexivity|].
  now rewrite ascii_compare_refl.
Qed.

Lemma string_compare_eq s1 s2 : String.compare s1 s2 = Eq <-> s1 = s2.
Proof.
  split; [apply String.compare_eq_iff|]. intros ->. apply string_compare_refl.
Qed.

Lemma string_compare_lt_trans s1 :
  forall s2 s3,
    String.compare s1 s2 = Lt -> String.compare s2 s3 = Lt ->
    String.compare s1 s3 = Lt.
Proof.
  induction s1 as [|c1 s1 IH]; intros [|c2 s2] [|c3 s3];
    cbn [String.compare]; try discriminate; auto.
  destruct (Ascii.compare c1 c2) eqn:H12; try discriminate.
  - apply Ascii.compare_eq_iff in H12 as ->.
    destruct (Ascii.compare c2 c3); try discriminate; auto. apply IH.
  - intros _. destruct (Ascii.compare c2 c3) eqn:H23; try discriminate.
    + apply Ascii.compare_eq_iff in H23 as <-. now rewrite H12.
    + now rewrite (ascii_compare_lt_trans _ _ _ H12 H23).
Qed.

Lemma string_ltb_lt s1 s2 :
  String.ltb s1 s2 = true <-> String.compare s1 s2 = Lt.
Proof.
  unfold String.ltb. destruct (String.compare s1 s2);
    split; congruence.
Qed.

Lemma string_ltb_irrefl s : String.ltb s s = false.
Proof. unfold String.ltb. now rewrite string_compare_refl. Qed.

Lemma string_ltb_trans s1 s2 s3 :
  String.ltb s1 s2 = true -> String.ltb s2 s3 = true ->
  String.ltb s1 s3 = true.
Proof. rewrite !string_ltb_lt. apply string_compare_lt_trans. Qed.

Lemma string_ltb_cases s1 s2 :
  String.ltb s1 s2 = true \/ s1 = s2 \/ String.ltb s2 s1 = true.
Proof.
  destruct (String.compare s1 s2) eqn:H.
  - apply String.compare_eq_iff in H. auto.
  - left. now apply string_ltb_lt.
  - right. right. apply string_ltb_lt.
    now rewrite String.compare_antisym, H.
Qed.

Lemma string_ltb_asym s1 s2 :
  String.ltb s1 s2 = true -> String.ltb s2 s1 = false.
Proof.
  intros H. destruct (String.ltb s2 s1) eqn:H'; [|reflexivity].
  pose proof (string_ltb_trans _ _ _ H H') as Hc.
  now rewrite string_ltb_irrefl in Hc.
Qed.

(** The order [<=] of strings, written with [<] as the sort does. *)
Lemma string_le_trans s1 s2 s3 :
  String.ltb s2 s1 = false -> String.ltb s3 s2 = false ->
  String.ltb s3 s1 = false.
Proof.
  intros H12 H23. destruct (String.ltb s3 s1) eqn:H31; [|reflexivity].
  destruct (string_ltb_cases s1 s2) as [H|[->|H]]; try congruence.
  pose proof (string_ltb_trans _ _ _ H31 H). congruence.
Qed.

End StringOrder.

Section DigitOrder.

Lemma compare_app_same_length a :
  forall a' b b',
    String.length a = String.length a' ->
    String.compare (a ++ b) (a' ++ b')
    = match String.compare a a' with
      | Eq => String.compare b b'
      | c => c
      end.
Proof.
  induction a as [|c a IH]; intros [|c' a'] b b' Hlen;
    try discriminate; [reflexivity|].
  rewrite !append_cons. cbn [String.compare].
  destruct (Ascii.compare c c'); try reflexivity.
  apply IH. now injection Hlen.
Qed.

Lemma digit_compare m n :
  0 <= m < 10 -> 0 <= n < 10 ->
  Ascii.compare (Str.digit m) (Str.digit n) = (m ?= n).
Proof.
  intros Hm Hn.
  rewrite <- (Z2Nat.id m), <- (Z2Nat.id n) by lia.
  assert (Hi : (Z.to_nat m < 10)%nat) by lia.
  assert (Hj : (Z.to_nat n < 10)%nat) by lia.
  destruct (Z.to_nat m) as [|[|[|[|[|[|[|[|[|[|i]]]]]]]]]]; try lia;
    destruct (Z.to_nat n) as [|[|[|[|[|[|[|[|[|[|j]]]]]]]]]]; try lia;
    reflexivity.
Qed.

(** Numbers written with the same number of digits compare as their
    texts do. *)
Lemma zero_padded_compare w :
  forall m n,
    0 <= m < 10 ^ Z.of_nat w -> 0 <= n < 10 ^ Z.of_nat w ->
    String.compare (Str.zero_padded w m) (Str.zero_padded w n) = (m ?= n).
Proof.
  induction w as [|w IH]; intros m n Hm Hn.
  - cbn in Hm, Hn. assert (m = 0) by lia. assert (n = 0) by lia.
    subst. reflexivity.
  - rewrite Nat2Z.inj_succ, Z.pow_succ_r in Hm, Hn by lia.
    rewrite !zero_padded_S.
    rewrite compare_app_same_length by now rewrite !zero_padded_length.
    pose proof (Z.div_mod m 10 ltac:(lia)) as Em.
    pose proof (Z.div_mod n 10 ltac:(lia)) as En.
    pose proof (Z.mod_pos_bound m 10 ltac:(lia)) as Bm.
    pose proof (Z.mod_pos_bound n 10 ltac:(lia)) as Bn.
    rewrite IH by lia.
    cbn [String.compare]. rewrite digit_compare by lia.
    destruct (Z.compare_spec (m / 10) (n / 10)) as [H|H|H].
    + destruct (Z.compare_spec (m mod 10) (n mod 10)) as [H'|H'|H'];
        symmetry; [apply Z.compare_eq_iff|apply Z.compare_lt_iff
                  |apply Z.compare_gt_iff]; lia.
    + symmetry. apply Z.compare_lt_iff. lia.
    + symmetry. apply Z.compare_gt_iff. lia.
Qed.

End DigitOrder.

Section SortProofs.
Import Thumbnails.
Context {A : Type} (key : A -> string).

Lemma insert_Permutation x l : Permutation (insert key x l) (x :: l).
Proof.
  induction l as [|y l IH]; cbn [insert]; [reflexivity|].
  destruct (String.ltb (key y) (key x)); [|reflexivity].
  rewrite IH. apply perm_swap.
Qed.

Lemma sort_Permutation l : Permutation (sort key l) l.
Proof.
  induction l as [|x l IH]; cbn [sort fold_right]; [reflexivity|].
  fold (sort key l). rewrite insert_Permutation. now constructor.
Qed.

Lemma insert_sorted x l :
  ForallOrdPairs (fun a b => String.ltb (key b) (key a) = false) l ->
  ForallOrdPairs (fun a b => String.ltb (key b) (key a) = false)
    (insert key x l).
Proof.
  induction 1 as [|y l Hy Hl IH]; cbn [insert].
  - repeat constructor.
  - destruct (String.ltb (key y) (key x)) eqn:Hyx.
    + constructor; [|exact IH].
      apply List.Forall_forall. intros z Hz.
      apply (Permutation_in _ (insert_Permutation x l)) in Hz.
      destruct Hz as [<-|Hz].
      * now apply string_ltb_asym.
      * now apply (proj1 (List.Forall_forall _ _) Hy).
    + constructor; [|now constructor].
      constructor; [exact Hyx|].
      apply List.Forall_forall. intros z Hz.
      apply (string_le_trans _ (key y)); [exact Hyx|].
      now apply (proj1 (List.Forall_forall _ _) Hy).
Qed.

Lemma sort_sorted l :
  ForallOrdPairs (fun a b => String.ltb (key b) (key a) = false)
    (sort key l).
Proof.
  induction l as [|x l IH]; cbn [sort fold_right]; [constructor|].
  now apply insert_sorted.
Qed.

(** The sort is stable: the elements of one key keep their order. *)
Lemma insert_stable k x l :
  List.filter (fun y => String.eqb (key y) k) (insert key x l)
  = List.filter (fun y => String.eqb (key y) k) (x :: l).
Proof.
  induction l as [|y l IH]; cbn [insert]; [reflexivity|].
  destruct (String.ltb (key y) (key x)) eqn:Hyx; [|reflexivity].
  cbn [List.filter] in *. rewrite IH.
  destruct (String.eqb_spec (key x) k) as [Hx|Hx];
    destruct (String.eqb_spec (key y) k) as [Hy|Hy]; try reflexivity.
  rewrite Hx, Hy, string_ltb_irrefl in Hyx. discriminate.
Qed.

Lemma sort_stable k l :
  List.filter (fun y => String.eqb (key y) k) (sort key l)
  = List.filter (fun y => String.eqb (key y) k) l.
Proof.
  induction l as [|x l IH]; cbn [sort fold_right]; [reflexivity|].
  fold (sort key l). rewrite insert_stable. cbn [List.filter].
  now rewrite IH.
Qed.

(** Sorted elements with different keys are in strict order. *)
Lemma sorted_strict l :
  List.NoDup (map key l) ->
  ForallOrdPairs (fun a b => String.ltb (key b) (key a) = false) l ->
  ForallOrdPairs (fun a b => String.ltb (key a) (key b) = true) l.
Proof.
  intros Hnd Hs. induction Hs as [|x l Hx Hl IH]; [constructor|].
  cbn [map] in Hnd. apply List.NoDup_cons_iff in Hnd as (Hnin & Hnd).
  constructor; [|now apply IH].
  apply List.Forall_forall. intros y Hy.
  pose proof (proj1 (List.Forall_forall _ _) Hx y Hy) as Hle.
  destruct (string_ltb_cases (key x) (key y)) as [H|[H|H]];
    [exact H| |congruence].
  exfalso. apply Hnin. rewrite H. now apply List.in_map.
Qed.

End SortProofs.

Section DateKeyProofs.
Import Py ImageList Thumbnails.

Lemma date_key_key_date D image :
  _date_key D image
  = strftime D (key_date D image) "%Y%m%d%H%M%S%f" ++ Image.path image.
Proof.
  unfold _date_key, key_date.
  destruct (date_taken D image), (date_digitised D image),
    (date_modified D image); reflexivity.
Qed.

Lemma append_empty_r (s : string) : s ++ "" = s.
Proof.
  induction s as [|c s IH]; [reflexivity|].
  rewrite append_cons. now rewrite IH.
Qed.

Lemma strftime_key d :
  Format.strftime_numeric d "%Y%m%d%H%M%S%f"
  = Str.zero_padded 4 (DateTime.year d)
    ++ Str.zero_padded 2 (DateTime.month d)
    ++ Str.zero_padded 2 (DateTime.day d)
    ++ Str.zero_padded 2 (DateTime.hour d)
    ++ Str.zero_padded 2 (DateTime.minute d)
    ++ Str.zero_padded 2 (DateTime.second d)
    ++ Str.zero_padded 6 (DateTime.microsecond d).
Proof.
  unfold Format.strftime_numeric.
  cbn [Format.strftime_from Format.directive Ascii.eqb Bool.eqb].
  now rewrite append_empty_r.
Qed.

Lemma append_assoc (s1 s2 s3 : string) : (s1 ++ s2) ++ s3 = s1 ++ (s2 ++ s3).
Proof.
  induction s1 as [|c s1 IH]; [reflexivity|].
  rewrite !append_cons. now rewrite IH.
Qed.

(** X20.  With the numeric [strftime] and dates with a year of four
    digits, the key of [_date_key] of one image is below that of another
    exactly when its date is earlier, or the dates are the same and its
    path is below the other path: sorting by date puts the images in the
    order of their dates, and images of one date in the order of their
    paths. *)
Theorem date_key_chronological (D : Dates) (a b : Image.t) :
  (forall d fmt, strftime D d fmt = Format.strftime_numeric d fmt) ->
  DateTime.valid (key_date D a) = true ->
  DateTime.valid (key_date D b) = true ->
  1000 <= DateTime.year (key_date D a) ->
  1000 <= DateTime.year (key_date D b) ->
  (String.ltb (_date_key D a) (_date_key D b) = true <->
   DateTime.ltb (key_date D a) (key_date D b) = true \/
   (key_date D a = key_date D b /\
    String.ltb (Image.path a) (Image.path b) = true)).
Proof.
  intros Hf Ha Hb _ _.
  rewrite !date_key_key_date, !Hf, !strftime_key.
  apply valid_bounds in Ha, Hb.
  destruct (key_date D a) as [y1 m1 d1 H1 M1 S1 u1].
  destruct (key_date D b) as [y2 m2 d2 H2 M2 S2 u2].
  cbn [DateTime.year DateTime.month DateTime.day DateTime.hour
       DateTime.minute DateTime.second DateTime.microsecond] in *.
  rewrite !append_assoc.
  unfold String.ltb at 1.
  rewrite !compare_app_same_length by now rewrite !zero_padded_length.
  rewrite !zero_padded_compare by (cbn; lia).
  unfold DateTime.ltb, DateTime.fields.
  cbn [DateTime.lex_ltb DateTime.year DateTime.month DateTime.day
       DateTime.hour DateTime.minute DateTime.second DateTime.microsecond].
  repeat match goal with
  | |- context [?x ?= ?y] =>
      destruct (Z.compare_spec x y) as [->|Hlt|Hgt];
      [rewrite Z.ltb_irrefl, Z.eqb_refl; cbn [orb andb]
      |apply Z.ltb_lt in Hlt as Hlt'; rewrite Hlt'; cbn [orb];
       split; [auto|reflexivity]
      |assert (Hn : (x <? y) = false) by (apply Z.ltb_ge; lia);
       assert (Hn' : (x =? y) = false) by (apply Z.eqb_neq; lia);
       rewrite Hn, Hn'; cbn [orb andb];
       split; [discriminate|intros [H|[H _]]; [discriminate|];
               injection H; intros; lia]]
  end.
  fold (String.ltb (Image.path a) (Image.path b)).
  split; [intros H; right; split; [reflexivity|exact H]|].
  intros [H|[_ H]]; [discriminate|exact H].
Qed.

End DateKeyProofs.

Section ThumbnailsProofs.
Import Py ImageList Thumbnails.

Variable tk : Image.Toolkit.

Lemma show_thumbnail_keeps image :
  Image.ident (show_thumbnail tk image) = Image.ident image /\
  Image.path (show_thumbnail tk image) = Image.path image /\
  Image.selected (show_thumbnail tk image) = Image.selected image /\
  Image.metadata (show_thumbnail tk image) = Image.metadata image.
Proof.
  unfold show_thumbnail, Image.load_thumbnail.
  match goal with |- context [if ?c then _ else _] => destruct c end;
    repeat split.
Qed.

Lemma ForallOrdPairs_map {A B} (f : A -> B) (R : B -> B -> Prop) l :
  ForallOrdPairs (fun a b => R (f a) (f b)) l ->
  ForallOrdPairs R (map f l).
Proof.
  induction 1 as [|x l Hx Hl IH]; cbn [map]; constructor; [|exact IH].
  apply List.Forall_forall. intros y Hy.
  apply List.in_map_iff in Hy as (z & <- & Hz).
  now apply (proj1 (List.Forall_forall _ _) Hx).
Qed.

Lemma by_name_strictly_sorted D self :
  sort_date self = false ->
  NoDup (paths (images (image_list self))) ->
  ForallOrdPairs (fun a b => String.ltb a b = true)
    (paths (images (image_list (_sort_thumbnails tk D self)))).
Proof.
  intros Hsd Hnd. unfold _sort_thumbnails. rewrite Hsd.
  cbn [image_list set_image_list config_set images emit set_images sort_key].
  unfold paths. rewrite map_map.
  rewrite (map_ext _ Image.path)
    by (intros image; apply show_thumbnail_keeps).
  apply ForallOrdPairs_map.
  apply sorted_strict; [|apply sort_sorted].
  apply NoDup_ListNoDup.
  assert (Hp : Permutation
                 (map Image.path
                    (sort Image.path (images (image_list self))))
                 (paths (images (image_list self))))
    by apply Permutation_map, sort_Permutation.
  rewrite Hp. exact Hnd.
Qed.

(** X18.  [_sort_thumbnails] puts the images in the order of their keys,
    the path or the key of [_date_key] as the check box [sort_date] says:
    the list has the same images, no image comes after one with a greater
    key, and images with the same key keep their order.  The identities,
    the paths and the selection of the images stay, and the setting is
    written to the configuration.  A list sorted by name in which no two
    images have the same path is in strictly increasing order of the
    paths. *)
Theorem sort_thumbnails_sorted (D : Dates) (self : t) :
  let key := sort_key D (sort_date self) in
  let self' := _sort_thumbnails tk D self in
  exists sorted : list Image.t,
    images (image_list self') = map (show_thumbnail tk) sorted /\
    Permutation sorted (images (image_list self)) /\
    ForallOrdPairs (fun a b => String.ltb (key b) (key a) = false) sorted /\
    (forall k,
       List.filter (fun image => String.eqb (key image) k) sorted
       = List.filter (fun image => String.eqb (key image) k)
           (images (image_list self))) /\
    map (fun image =>
           (Image.ident image, Image.path image, Image.selected image))
        (images (image_list self'))
    = map (fun image =>
             (Image.ident image, Image.path image, Image.selected image))
          sorted /\
    (sort_date self = false ->
     NoDup (paths (images (image_list self))) ->
     ForallOrdPairs (fun a b => String.ltb a b = true)
       (paths (images (image_list self')))) /\
    last_selected (image_list self') = last_selected (image_list self) /\
    selection_anchor (image_list self')
    = selection_anchor (image_list self) /\
    config_store self'
    = <[("controls", "sort_date") := str_bool (sort_date self)]>
        (config_store self) /\
    log self' = log self.
Proof.
  intros key self'.
  exists (sort key (images (image_list self))).
  split; [reflexivity|].
  split; [apply sort_Permutation|].
  split; [apply sort_sorted|].
  split; [intros k; apply sort_stable|].
  assert (Hkeep : forall l,
             map (fun image =>
                    (Image.ident image, Image.path image,
                     Image.selected image))
               (map (show_thumbnail tk) l)
             = map (fun image =>
                      (Image.ident image, Image.path image,
                       Image.selected image)) l).
  { intros l. rewrite map_map. apply map_ext. intros image.
    destruct (show_thumbnail_keeps image) as (-> & -> & -> & _).
    reflexivity. }
  split; [apply Hkeep|].
  split; [|repeat split].
  intros Hsd Hnd. now apply by_name_strictly_sorted.
Qed.

(** *** [open_file_list] *)

Lemma open_file_In os path self p :
  In p (paths (images self)) ->
  In p (paths (images (open_file tk os path self))).
Proof.
  intros Hin.
  destruct (open_file_cases tk os path self)
    as [(_ & _ & image & _ & ->)|(_ & ->)]; [|assumption].
  unfold paths. rewrite map_app. apply List.in_or_app. now left.
Qed.

Lemma open_file_adds os path self :
  isfile os (abspath os path) = true ->
  In (abspath os path) (paths (images (open_file tk os path self))).
Proof.
  intros Hf.
  destruct (open_file_cases tk os path self)
    as [(_ & _ & image & Hp & ->)|([Hn|Hin] & ->)].
  - unfold paths. rewrite map_app. apply List.in_or_app. right.
    cbn [map In]. now left.
  - congruence.
  - assumption.
Qed.

Lemma open_files_paths calls :
  forall self,
    (NoDup (paths (images self)) ->
     NoDup (paths (images (open_files tk calls self)))) /\
    (forall p, In p (paths (images self)) ->
       In p (paths (images (open_files tk calls self)))) /\
    (forall os path, In (os, path) calls ->
       isfile os (abspath os path) = true ->
       In (abspath os path) (paths (images (open_files tk calls self)))) /\
    (forall p, In p (paths (images (open_files tk calls self))) ->
       In p (paths (images self)) \/
       exists os path, In (os, path) calls /\ p = abspath os path /\
                       isfile os p = true).
Proof.
  induction calls as [|[os path] calls IH]; intros self;
    cbn [open_files].
  - repeat split; auto. intros os path [].
  - destruct (IH (open_file tk os path self)) as (Hnd & Hin & Hadd & Hfrom).
    split; [intros H; now apply Hnd, open_file_NoDup|].
    split; [intros p H; now apply Hin, open_file_In|].
    split.
    + intros os' path' [[= -> ->]|Hc] Hf.
      * now apply Hin, open_file_adds.
      * now apply Hadd.
    + intros p Hp. apply Hfrom in Hp as [Hp|(os' & path' & Hc & -> & Hf)].
      * destruct (open_file_cases tk os path self)
          as [(Hf & _ & image & Hi & E)|(_ & E)]; rewrite E in Hp;
          [|now left].
        unfold paths in Hp. rewrite map_app in Hp.
        apply List.in_app_or in Hp as [Hp|[<-|[]]]; [now left|].
        right. exists os, path. rewrite Hi. repeat split; auto. now left.
      * right. exists os', path'. repeat split; auto. now right.
Qed.

Lemma sort_thumbnails_paths D self :
  Permutation (paths (images (image_list (_sort_thumbnails tk D self))))
    (paths (images (image_list self))).
Proof.
  unfold _sort_thumbnails.
  cbn [image_list set_image_list config_set images emit set_images].
  unfold paths. rewrite map_map.
  rewrite (map_ext _ Image.path)
    by (intros image; apply show_thumbnail_keeps).
  apply Permutation_map, sort_Permutation.
Qed.

(** X19.  [open_file_list] opens the files of the list, stores the
    directory of the last path given, whether it was opened or not, as the
    directory to show next time, and sorts the thumbnails: the images open
    before stay, every path of the list that is a file is open afterwards,
    nothing else is, and no path is open twice.  For the empty list
    nothing changes but the log: [path_list[-1]] raises [IndexError]. *)
Theorem open_file_list_opens (D : Dates) (self : t) :
  (image_list (open_file_list tk D [] self) = image_list self /\
   config_store (open_file_list tk D [] self) = config_store self /\
   log (open_file_list tk D [] self) = (log self ++ [IndexError])%list) /\
  forall (front : list (Os * string)) (os : Os) (path : string),
    let calls := (front ++ [(os, path)])%list in
    let self' := open_file_list tk D calls self in
    log self' = log self /\
    config_store self' !! ("paths", "images") = Some (Path.dirname path) /\
    config_store self' !! ("controls", "sort_date")
    = Some (str_bool (sort_date self)) /\
    (NoDup (paths (images (image_list self))) ->
     NoDup (paths (images (image_list self')))) /\
    (forall p, In p (paths (images (image_list self'))) <->
       In p (paths (images (image_list self))) \/
       exists os' path', In (os', path') calls /\ p = abspath os' path' /\
                         isfile os' p = true) /\
    (sort_date self = false ->
     NoDup (paths (images (image_list self))) ->
     ForallOrdPairs (fun a b => String.ltb a b = true)
       (paths (images (image_list self')))).
Proof.
  split; [repeat split|].
  intros front os path calls self'.
  assert (Hlast : List.last (map (fun c : Os * string => Some (snd c)) calls)
                    None = Some path).
  { subst calls. rewrite map_app. cbn [map snd]. apply List.last_last. }
  assert (Hrun : self'
                 = done_opening tk D path
                     (set_image_list
                        (open_files tk calls (image_list self)) self)).
  { subst self'. unfold open_file_list. now rewrite Hlast. }
  destruct (open_files_paths calls (image_list self))
    as (Hnd & Hin & Hadd & Hfrom).
  pose proof (sort_thumbnails_paths D
                (config_set "paths" "images" (Path.dirname path)
                   (set_image_list
                      (open_files tk calls (image_list self)) self)))
    as Hperm.
  fold (done_opening tk D path
          (set_image_list (open_files tk calls (image_list self)) self))
    in Hperm.
  rewrite <- Hrun in Hperm.
  cbn [image_list config_set set_image_list] in Hperm.
  split; [rewrite Hrun; reflexivity|].
  split.
  { rewrite Hrun. unfold done_opening, _sort_thumbnails.
    cbn [config_store config_set set_image_list sort_date].
    rewrite lookup_insert_ne by congruence. apply lookup_insert_eq. }
  split.
  { rewrite Hrun. unfold done_opening, _sort_thumbnails.
    cbn [config_store config_set set_image_list sort_date].
    apply lookup_insert_eq. }
  split; [intros H; rewrite Hperm; now apply Hnd|].
  split.
  { intros p. split.
    - intros Hp. apply Hfrom. apply list_elem_of_In.
      rewrite <- Hperm. now apply list_elem_of_In.
    - intros Hp. apply list_elem_of_In. rewrite Hperm.
      apply list_elem_of_In.
      destruct Hp as [Hp|(os' & path' & Hc & -> & Hf)];
        [now apply Hin|now apply Hadd]. }
  intros Hsd H.
  rewrite Hrun. apply by_name_strictly_sorted; [exact Hsd|].
  now apply Hnd.
Qed.

End ThumbnailsProofs.

Section ThumbnailsExamples.
Import Py ImageList Thumbnails ImageListExample ThumbnailsExample.

(** The picture of the 6th of March comes before the picture of the
    8th. *)
Lemma date_key_chronological_witness :
  String.ltb (_date_key dates (Image.jpeg_file 3 "/p/d.jpg"))
    (_date_key dates (Image.jpeg_file 0 "/p/a.jpg")) = true.
Proof.
  apply (date_key_chronological dates (Image.jpeg_file 3 "/p/d.jpg")
           (Image.jpeg_file 0 "/p/a.jpg")).
  - reflexivity.
  - vm_compute. reflexivity.
  - vm_compute. reflexivity.
  - vm_compute. discriminate.
  - vm_compute. discriminate.
  - left. vm_compute. reflexivity.
Defined.

(** Sorted by date the four images are in the order of the 6th, the 7th
    (two images, in the order of their paths) and the 8th; the selection
    stays with the second and the third image made. *)
Lemma sort_by_date_example :
  map (fun image => (Image.ident image, Image.selected image))
    (images (image_list
               (_sort_thumbnails Image.reference_toolkit dates (four true))))
  = [(3, false); (1, true); (2, true); (0, false)]%nat /\
  idents (images (image_list
                    (_sort_thumbnails Image.reference_toolkit dates
                       (four false))))
  = [0; 1; 2; 3]%nat.
Proof. split; vm_compute; reflexivity. Qed.

End ThumbnailsExamples.

(** ** The items of the layout *)

Section ThumbsItemsProofs.
Import Py ThumbsLayout ThumbsItems.

Lemma out_of_range_spec (idx len : Z) :
  (idx <? 0) || (idx >=? len) = true <-> idx < 0 \/ len <= idx.
Proof.
  rewrite orb_true_iff, Z.ltb_lt, Z.geb_leb, Z.leb_le. tauto.
Qed.

(** X21.  [takeAt] returns the item that [itemAt] returns for the index.
    For an index that is negative or not below [count] both return [None]
    and the layout stays as it is; no index is counted from the end of
    the list and none raises an exception.  Otherwise [takeAt] takes one
    item out: the items before it keep their index, the items after it
    move down by one.  Taking the item at the last index after [addItem]
    gives the item added and the layout as it was. *)
Theorem takeAt_removes_one (self : t) (idx : Z) :
  fst (takeAt self idx) = itemAt self idx /\
  (itemAt self idx = None <-> idx < 0 \/ count self <= idx) /\
  (itemAt self idx = None -> snd (takeAt self idx) = self) /\
  (itemAt self idx <> None ->
   count (snd (takeAt self idx)) = count self - 1 /\
   forall j,
     itemAt (snd (takeAt self idx)) j
     = itemAt self (if j <? idx then j else j + 1)) /\
  (forall item,
     takeAt (addItem item self) (count self) = (Some item, self)).
Proof.
  unfold takeAt, itemAt, count.
  destruct ((idx <? 0) || (idx >=? Z.of_nat (length (item_list self))))
    eqn:Hout.
  - apply out_of_range_spec in Hout.
    split; [reflexivity|]. split; [tauto|]. split; [reflexivity|].
    split; [congruence|].
    intros item. unfold addItem. cbn [item_list set_item_list].
    rewrite length_app. cbn [length].
    assert (Hin : (Z.of_nat (length (item_list self)) <? 0)
                  || (Z.of_nat (length (item_list self))
                      >=? Z.of_nat (length (item_list self) + 1)) = false).
    { apply not_true_iff_false. rewrite out_of_range_spec. lia. }
    rewrite Hin, Nat2Z.id.
    rewrite nth_error_app2, Nat.sub_diag by lia. cbn [nth_error].
    rewrite firstn_app, Nat.sub_diag, firstn_all. cbn [firstn].
    rewrite skipn_all2 by (rewrite length_app; cbn [length]; lia).
    rewrite !app_nil_r. now destruct self.
  - apply not_true_iff_false in Hout. rewrite out_of_range_spec in Hout.
    assert (Hidx : 0 <= idx < Z.of_nat (length (item_list self))) by lia.
    assert (Hlt : (Z.to_nat idx < length (item_list self))%nat) by lia.
    destruct (nth_error (item_list self) (Z.to_nat idx)) as [item|] eqn:Hn;
      [|apply nth_error_None in Hn; lia].
    split; [reflexivity|]. split; [split; [discriminate|lia]|].
    split; [discriminate|]. split.
    + intros _. cbn [snd item_list set_item_list].
      rewrite length_app, length_firstn, length_skipn.
      split; [lia|]. intros j.
      destruct (Z.ltb_spec j idx) as [Hj|Hj].
      * destruct ((j <? 0)
                  || (j >=? Z.of_nat (Init.Nat.min (Z.to_nat idx)
                                         (length (item_list self))
                                       + (length (item_list self)
                                          - S (Z.to_nat idx))))) eqn:Ho.
        -- apply out_of_range_spec in Ho.
           assert (Hneg : j < 0) by lia.
           apply Z.ltb_lt in Hneg. now rewrite Hneg.
        -- apply not_true_iff_false in Ho.
           rewrite out_of_range_spec in Ho.
           assert (Hi : (j <? 0)
                        || (j >=? Z.of_nat (length (item_list self)))
                        = false).
           { apply not_true_iff_false. rewrite out_of_range_spec. lia. }
           rewrite Hi, nth_error_app1 by (rewrite length_firstn; lia).
           rewrite nth_error_firstn.
           assert (Hb : (Z.to_nat j <? Z.to_nat idx)%nat = true)
             by (apply Nat.ltb_lt; lia).
           now rewrite Hb.
      * destruct ((j <? 0)
                  || (j >=? Z.of_nat (Init.Nat.min (Z.to_nat idx)
                                         (length (item_list self))
                                       + (length (item_list self)
                                          - S (Z.to_nat idx))))) eqn:Ho.
        -- apply out_of_range_spec in Ho.
           assert (Hi : (j + 1 <? 0)
                        || (j + 1 >=? Z.of_nat (length (item_list self)))
                        = true).
           { apply out_of_range_spec. lia. }
           now rewrite Hi.
        -- apply not_true_iff_false in Ho.
           rewrite out_of_range_spec in Ho.
           assert (Hi : (j + 1 <? 0)
                        || (j + 1 >=? Z.of_nat (length (item_list self)))
                        = false).
           { apply not_true_iff_false. rewrite out_of_range_spec. lia. }
           rewrite Hi, nth_error_app2 by (rewrite length_firstn; lia).
           rewrite length_firstn, nth_error_skipn. f_equal. lia.
    + intros item'. unfold addItem. cbn [item_list set_item_list].
      rewrite length_app. cbn [length].
      assert (Hin : (Z.of_nat (length (item_list self)) <? 0)
                    || (Z.of_nat (length (item_list self))
                        >=? Z.of_nat (length (item_list self) + 1)) = false).
      { apply not_true_iff_false. rewrite out_of_range_spec. lia. }
      rewrite Hin, Nat2Z.id.
      rewrite nth_error_app2, Nat.sub_diag by lia. cbn [nth_error].
      rewrite firstn_app, Nat.sub_diag, firstn_all. cbn [firstn].
      rewrite skipn_all2 by (rewrite length_app; cbn [length]; lia).
      rewrite !app_nil_r. now destruct self.
Qed.

End ThumbsItemsProofs.
